(** * Cold-chain batching pipeline: shallow embedding and verified properties

    The development embeds three programs of the repository,

    - [traceability_backend/data_cleaner.py]: the message handler that
      validates a sensor event, hashes it, accumulates it per batch and
      writes a batch file once [MAX_PER_BATCH] records are cached; what
      the disk does with a write (it returns, is refused, or breaks
      midway) is an input of each call;
    - [comp6452/upload_to_ipfs.py]: [compute_merkle_root], the pairwise
      SHA-256 aggregation of the record hashes of a batch file, and the
      script that uploads the batch files and records them;
    - [traceability_backend/gateway.py]: the MQTT callback in front of
      the handler;

    together with the parts of the Python library they call
    ([hashlib.sha256], [bytes.fromhex], [json.dumps], [str.split],
    [str.strip]). *)

From Stdlib Require Import ZArith NArith List Strings.String Strings.Ascii Strings.Byte.
From Stdlib Require Import DecimalString Lia Permutation Sorted.
From stdpp Require Import base option list gmap.
From Equations Require Import Equations.
Import ListNotations.

Local Open Scope Z_scope.

(** ** Python values shared by both programs *)

(** A Python [str] is a sequence of Unicode code points. *)
Definition codepoint := N.
Definition pystr := list codepoint.

(** [str s] is the Python string whose characters are those of the literal
    [s] (code points below 256). *)
Definition str (s : string) : pystr :=
  map N_of_ascii (list_ascii_of_string s).

(** The exceptions that the embedded code can raise. *)
Inductive exn : Type :=
| ValueError
| KeyError (key : pystr)
| IndexError
| AttributeError
| TypeError
| JSONDecodeError
| OSError.

(** A call either returns a value or raises. *)
Inductive outcome (A : Type) : Type :=
| Returned (a : A)
| Raised (e : exn).
Arguments Returned {A} a.
Arguments Raised {A} e.

#[global] Instance outcome_ret : MRet outcome := fun A a => Returned a.
#[global] Instance outcome_bind : MBind outcome := fun A B k m =>
  match m with
  | Returned a => k a
  | Raised e => Raised e
  end.

(** [lst[i]] for an index from the front. *)
Definition list_getitem {A} (l : list A) (i : nat) : outcome A :=
  match l !! i with
  | Some x => Returned x
  | None => Raised IndexError
  end.

(** ** Hexadecimal text: [bytes.hex] and [bytes.fromhex] *)

Module Hex.

(** The lowercase digit of a value below 16. *)
Definition digit (v : N) : codepoint :=
  (if v <? 10 then 48 + v else 87 + v)%N.

(** The value of a hexadecimal digit, in either case. *)
Definition digit_value (c : codepoint) : option N :=
  (if (48 <=? c) && (c <=? 57) then Some (c - 48)
   else if (97 <=? c) && (c <=? 102) then Some (c - 87)
   else if (65 <=? c) && (c <=? 70) then Some (c - 55)
   else None)%N.

Definition byte_of_N (n : N) : byte :=
  match Byte.of_N n with
  | Some b => b
  | None => x00
  end.

(** [bytes.hex()]: two lowercase digits per byte. *)
Definition hex (bs : list byte) : pystr :=
  flat_map (fun b => [digit (Byte.to_N b / 16); digit (Byte.to_N b mod 16)]%N) bs.

(** [Py_ISSPACE]: space, tab, line feed, vertical tab, form feed and
    carriage return. *)
Definition is_space (c : codepoint) : bool :=
  ((c =? 32) || ((9 <=? c) && (c <=? 13)))%N.

(** [bytes.fromhex]: runs of ASCII whitespace are skipped before each
    byte; a byte is two adjacent hexadecimal digits; anything else is a
    [ValueError]. *)
Fixpoint fromhex (s : pystr) : outcome (list byte) :=
  match s with
  | [] => Returned []
  | c :: rest =>
      if is_space c then fromhex rest
      else
        match digit_value c, rest with
        | Some top, d :: rest' =>
            match digit_value d with
            | Some bot =>
                bs ← fromhex rest';
                Returned (byte_of_N (top * 16 + bot)%N :: bs)
            | None => Raised ValueError
            end
        | _, _ => Raised ValueError
        end
  end.

End Hex.

(** ** SHA-256 (FIPS 180-4), the function behind [hashlib.sha256] *)

Module SHA256.

Definition mask32 : Z := 2 ^ 32 - 1.
Definition add32 (x y : Z) : Z := (x + y) mod 2 ^ 32.

Definition rotr (n x : Z) : Z :=
  Z.lor (Z.shiftr x n) (Z.land (Z.shiftl x (32 - n)) mask32).

Definition Ch (x y z : Z) : Z :=
  Z.lxor (Z.land x y) (Z.land (Z.lxor x mask32) z).
Definition Maj (x y z : Z) : Z :=
  Z.lxor (Z.lxor (Z.land x y) (Z.land x z)) (Z.land y z).
Definition bsig0 (x : Z) : Z := Z.lxor (Z.lxor (rotr 2 x) (rotr 13 x)) (rotr 22 x).
Definition bsig1 (x : Z) : Z := Z.lxor (Z.lxor (rotr 6 x) (rotr 11 x)) (rotr 25 x).
Definition ssig0 (x : Z) : Z := Z.lxor (Z.lxor (rotr 7 x) (rotr 18 x)) (Z.shiftr x 3).
Definition ssig1 (x : Z) : Z := Z.lxor (Z.lxor (rotr 17 x) (rotr 19 x)) (Z.shiftr x 10).

(** The round constants are the first 32 bits of the fractional parts of
    the cube roots of the first 64 primes, and the initial hash value
    those of the square roots of the first 8 primes. *)
Definition primes : list Z :=
  [2; 3; 5; 7; 11; 13; 17; 19; 23; 29; 31; 37; 41; 43; 47; 53;
   59; 61; 67; 71; 73; 79; 83; 89; 97; 101; 103; 107; 109; 113; 127; 131;
   137; 139; 149; 151; 157; 163; 167; 173; 179; 181; 191; 193; 197; 199; 211; 223;
   227; 229; 233; 239; 241; 251; 257; 263; 269; 271; 277; 281; 283; 293; 307; 311].

(** Integer cube root, most significant bit first. *)
Fixpoint cbrt_bits (bit : nat) (n r : Z) : Z :=
  let r' := r + 2 ^ Z.of_nat bit in
  let r'' := if r' * r' * r' <=? n then r' else r in
  match bit with
  | O => r''
  | S b => cbrt_bits b n r''
  end.

Definition frac_cbrt32 (p : Z) : Z := cbrt_bits 40 (p * 2 ^ 96) 0 mod 2 ^ 32.
Definition frac_sqrt32 (p : Z) : Z := Z.sqrt (p * 2 ^ 64) mod 2 ^ 32.

Definition K : list Z := Eval vm_compute in map frac_cbrt32 primes.
Definition H0 : list Z := Eval vm_compute in map frac_sqrt32 (firstn 8 primes).

(** Padding: a one bit, zero bits, and the bit length on 64 bits, to a
    multiple of 64 bytes. *)
Fixpoint be_bytes (count : nat) (v : Z) : list Z :=
  match count with
  | O => []
  | S c => (Z.shiftr v (8 * Z.of_nat c)) mod 256 :: be_bytes c v
  end.

Definition pad (msg : list Z) : list Z :=
  let len := Z.of_nat (length msg) in
  msg ++ [128] ++ repeat 0 (Z.to_nat ((55 - len) mod 64)) ++ be_bytes 8 (8 * len).

Fixpoint be_words (count : nat) (bs : list Z) : list Z :=
  match count, bs with
  | S c, b0 :: b1 :: b2 :: b3 :: rest =>
      (((b0 * 256 + b1) * 256 + b2) * 256 + b3) :: be_words c rest
  | _, _ => []
  end.

(** The message schedule, held most recent word first. *)
Fixpoint schedule (count : nat) (rev_w : list Z) : list Z :=
  match count with
  | O => rev_w
  | S c =>
      let wt := add32 (add32 (ssig1 (nth 1 rev_w 0)) (nth 6 rev_w 0))
                      (add32 (ssig0 (nth 14 rev_w 0)) (nth 15 rev_w 0)) in
      schedule c (wt :: rev_w)
  end.

Record regs := Regs { ra : Z; rb : Z; rc : Z; rd : Z; re : Z; rf : Z; rg : Z; rh : Z }.

Definition round (s : regs) (kw : Z * Z) : regs :=
  let t1 := add32 (add32 (add32 (rh s) (bsig1 (re s)))
                         (add32 (Ch (re s) (rf s) (rg s)) (fst kw))) (snd kw) in
  let t2 := add32 (bsig0 (ra s)) (Maj (ra s) (rb s) (rc s)) in
  Regs (add32 t1 t2) (ra s) (rb s) (rc s) (add32 (rd s) t1) (re s) (rf s) (rg s).

Definition regs_of (h : list Z) : regs :=
  Regs (nth 0 h 0) (nth 1 h 0) (nth 2 h 0) (nth 3 h 0)
       (nth 4 h 0) (nth 5 h 0) (nth 6 h 0) (nth 7 h 0).
Definition list_of (s : regs) : list Z :=
  [ra s; rb s; rc s; rd s; re s; rf s; rg s; rh s].

Definition compress (h : list Z) (block : list Z) : list Z :=
  let w := List.rev (schedule 48 (List.rev (be_words 16 block))) in
  let s := fold_left round (combine K w) (regs_of h) in
  map (fun p => add32 (fst p) (snd p)) (combine h (list_of s)).

Fixpoint blocks (count : nat) (h : list Z) (bs : list Z) : list Z :=
  match count with
  | O => h
  | S c => blocks c (compress h (firstn 64 bs)) (skipn 64 bs)
  end.

(** [hashlib.sha256(data).digest()]. *)
Definition digest (data : list byte) : list byte :=
  let padded := pad (map (fun b => Z.of_N (Byte.to_N b)) data) in
  let h := blocks (length padded / 64) H0 padded in
  map (fun z => Hex.byte_of_N (Z.to_N z)) (flat_map (be_bytes 4) h).

(** [hashlib.sha256(data).hexdigest()]. *)
Definition hexdigest (data : list byte) : pystr := Hex.hex (digest data).

End SHA256.

(** The bytes of an ASCII text, which are its UTF-8 encoding. *)
Definition ascii_bytes (s : string) : list byte :=
  map byte_of_ascii (list_ascii_of_string s).

(** ** Python values as [json.loads] produces them *)

(** A Python [float] is held as what [repr] shows of it: the sign, the
    shortest digit string that reads back as the same double (its first
    digit and the others), and the position of the decimal point: the value
    is [0.d1d2...] times ten to the [decpt] (the triple that the
    interpreter's double-to-string conversion works from). Zero has the
    single digit 0 and [decpt = 1]. *)
Inductive pyfloat : Type :=
| Finite (negative : bool) (digit : N) (digits : list N) (decpt : Z)
| Infinity (negative : bool)
| NaN.

(** The values a decoded message body is made of. A [dict] keeps its items
    in insertion order; its keys are strings and pairwise distinct. *)
#[warnings="-register-all"]
Inductive value : Type :=
| VNone
| VBool (b : bool)
| VInt (z : Z)
| VFloat (f : pyfloat)
| VStr (s : pystr)
| VList (l : list value)
| VDict (items : list (pystr * value)).

(** The number that an [int] or a [float] stands for, as a decimal
    mantissa and a power of ten; none for the other values, nor for an
    infinity or a NaN. *)
Definition digits_value (ds : list N) : Z :=
  fold_left (fun acc d => 10 * acc + Z.of_N d) ds 0.

Definition number_value (v : value) : option (Z * Z) :=
  match v with
  | VInt z => Some (z, 0)
  | VFloat (Finite neg d ds decpt) =>
      let mantissa := digits_value (d :: ds) in
      Some (if neg then - mantissa else mantissa, decpt - Z.of_nat (length (d :: ds)))
  | _ => None
  end.

(** Two values are numbers and are equal as numbers ([1 == 1.0]). *)
Definition same_number (a b : value) : bool :=
  match number_value a, number_value b with
  | Some (m1, e1), Some (m2, e2) =>
      let e := Z.min e1 e2 in
      (m1 * 10 ^ (e1 - e) =? m2 * 10 ^ (e2 - e))
  | _, _ => false
  end.

(** [k in d] and [d.get(k)] / [d[k]] on the items of a dict. *)
Fixpoint dict_lookup (k : pystr) (items : list (pystr * value)) : option value :=
  match items with
  | [] => None
  | (k', v) :: rest => if decide (k = k') then Some v else dict_lookup k rest
  end.

Definition keys (items : list (pystr * value)) : list pystr := map fst items.

(** The keys of a dict are pairwise distinct. *)
Definition dict_wf (items : list (pystr * value)) : Prop := NoDup (keys items).

(** [s.split(sep)] for a one-character separator: every occurrence
    splits, empty pieces are kept. *)
Fixpoint split (sep : codepoint) (s : pystr) : list pystr :=
  match s with
  | [] => [[]]
  | c :: rest =>
      if N.eqb c sep then [] :: split sep rest
      else
        match split sep rest with
        | piece :: pieces => (c :: piece) :: pieces
        | [] => [[c]]
        end
  end.

(** Comparison of strings: lexicographic on code points, a proper prefix
    first. *)
Fixpoint str_compare (a b : pystr) : comparison :=
  match a, b with
  | [], [] => Eq
  | [], _ :: _ => Lt
  | _ :: _, [] => Gt
  | x :: a', y :: b' =>
      match N.compare x y with
      | Eq => str_compare a' b'
      | c => c
      end
  end.

Definition str_le (a b : pystr) : bool :=
  match str_compare a b with Gt => false | _ => true end.

(** ** [json.dumps] *)

Module Json.

Local Open Scope string_scope.

Definition quote : ascii := "034"%char.
Definition backslash : ascii := "092"%char.
Definition newline : ascii := "010"%char.

Definition char (c : ascii) : string := String c EmptyString.
Definition hex_char (v : N) : ascii := ascii_of_N (Hex.digit v).

(** [format(n, '04x')] for a code unit below 65536. *)
Definition hex4 (n : N) : string :=
  String (hex_char (n / 4096 mod 16))
    (String (hex_char (n / 256 mod 16))
       (String (hex_char (n / 16 mod 16))
          (String (hex_char (n mod 16)) EmptyString)))%N.

Definition u_escape (n : N) : string := String backslash (String "u" (hex4 n)).

(** One character of [py_encode_basestring_ascii]: the short escapes,
    printable ASCII as it is, everything else as [\uXXXX], with a
    surrogate pair above the basic plane. *)
Definition escape_char (c : codepoint) : string :=
  (if c =? 34 then String backslash (char quote)
   else if c =? 92 then String backslash (char backslash)
   else if c =? 10 then String backslash "n"
   else if c =? 13 then String backslash "r"
   else if c =? 9 then String backslash "t"
   else if c =? 12 then String backslash "f"
   else if c =? 8 then String backslash "b"
   else if (32 <=? c) && (c <=? 126) then char (ascii_of_N c)
   else if c <? 65536 then u_escape c
   else
     let n := c - 65536 in
     u_escape (N.lor 55296 (N.land (N.shiftr n 10) 1023))
     ++ u_escape (N.lor 56320 (N.land n 1023)))%N.

Definition encode_str (s : pystr) : string :=
  String quote (String.concat EmptyString (map escape_char s) ++ char quote).

(** [int.__repr__]. *)
Definition int_repr (z : Z) : string :=
  DecimalString.NilZero.string_of_int (Z.to_int z).

Definition digit_char (d : N) : ascii := ascii_of_N (48 + d).
Definition digits_text (ds : list N) : string :=
  string_of_list_ascii (map digit_char ds).
Definition zeros (n : nat) : string := string_of_list_ascii (repeat "0"%char n).

(** The exponent of the scientific form: a sign and at least two
    digits. *)
Definition exponent_text (e : Z) : string :=
  let mag := DecimalString.NilZero.string_of_uint (N.to_uint (Z.abs_N e)) in
  String (if (e <? 0)%Z then "-"%char else "+"%char)
         (if (Z.abs e <? 10)%Z then String "0" mag else mag).

(** [float.__repr__]: positional form when [-4 < decpt <= 16], with
    [.0] added to a whole number; scientific form otherwise. *)
Definition float_repr (f : pyfloat) : string :=
  match f with
  | NaN => "nan"
  | Infinity neg => if neg then "-inf" else "inf"
  | Finite neg d more decpt =>
      let ds := d :: more in
      let n := Z.of_nat (length ds) in
      let body :=
        if ((decpt <=? -4) || (16 <? decpt))%Z then
          match more with
          | [] => char (digit_char d) ++ "e" ++ exponent_text (decpt - 1)
          | _ :: _ =>
              String (digit_char d) ("." ++ digits_text more)
              ++ "e" ++ exponent_text (decpt - 1)
          end
        else if (decpt <=? 0)%Z then
          "0." ++ zeros (Z.to_nat (- decpt)) ++ digits_text ds
        else if (n <=? decpt)%Z then
          digits_text ds ++ zeros (Z.to_nat (decpt - n)) ++ ".0"
        else
          digits_text (firstn (Z.to_nat decpt) ds) ++ "."
          ++ digits_text (skipn (Z.to_nat decpt) ds)
      in
      if neg then String "-" body else body
  end.

(** What the encoder writes for a float: [repr] of a finite one, and the
    JavaScript names otherwise ([allow_nan] is on by default). *)
Definition encode_float (f : pyfloat) : string :=
  match f with
  | NaN => "NaN"
  | Infinity neg => if neg then "-Infinity" else "Infinity"
  | Finite _ _ _ _ => float_repr f
  end.

(** [sorted(dct.items())]: the keys of a dict are distinct, so the order
    of the items is that of their keys. Insertion keeps equal keys in
    their given order. *)
Fixpoint insert_item {A} (x : pystr * A) (l : list (pystr * A)) : list (pystr * A) :=
  match l with
  | [] => [x]
  | y :: rest => if str_le (fst x) (fst y) then x :: l else y :: insert_item x rest
  end.

Definition sort_items {A} (l : list (pystr * A)) : list (pystr * A) :=
  fold_right insert_item [] l.

(** The text between two items, and around them: with an indent, each
    item starts a line at its nesting level. *)
Definition spaces (n : nat) : string := string_of_list_ascii (repeat " "%char n).

Definition newline_indent (indent : option nat) (level : nat) : string :=
  match indent with
  | Some width => String newline (spaces (width * level))
  | None => EmptyString
  end.

Definition item_separator (indent : option nat) : string :=
  match indent with Some _ => "," | None => ", " end.

Fixpoint join (sep : string) (parts : list string) : string :=
  match parts with
  | [] => EmptyString
  | [p] => p
  | p :: rest => p ++ sep ++ join sep rest
  end.

Definition bracket (indent : option nat) (level : nat)
    (open close : string) (parts : list string) : string :=
  match parts with
  | [] => open ++ close
  | _ =>
      open ++ newline_indent indent (S level)
      ++ join (item_separator indent ++ newline_indent indent (S level)) parts
      ++ newline_indent indent level ++ close
  end.

(** [json.dumps(v, indent=indent, sort_keys=sort_keys)] at nesting depth
    [level]. The items of a dict are put in key order, when asked, after
    their values are rendered: the order looks at keys only. *)
Fixpoint encode (indent : option nat) (sort_keys : bool) (level : nat) (v : value) : string :=
  match v with
  | VNone => "null"
  | VBool true => "true"
  | VBool false => "false"
  | VInt z => int_repr z
  | VFloat f => encode_float f
  | VStr s => encode_str s
  | VList l =>
      bracket indent level "[" "]" (map (encode indent sort_keys (S level)) l)
  | VDict items =>
      let rendered :=
        map (fun kv => (fst kv, encode indent sort_keys (S level) (snd kv))) items in
      let ordered := if sort_keys then sort_items rendered else rendered in
      bracket indent level "{" "}"
        (map (fun kr => encode_str (fst kr) ++ ": " ++ snd kr) ordered)
  end.

Definition dumps (indent : option nat) (sort_keys : bool) (v : value) : string :=
  encode indent sort_keys 0 v.

End Json.

(** ** [traceability_backend/data_cleaner.py] *)

Module DataCleaner.

Definition BATCH_DIR : pystr := str "./batches".
Definition MAX_PER_BATCH : nat := 4.

(** What the channel is told about a delivery. *)
Inductive reply : Type :=
| basic_ack (delivery_tag : N)
| basic_nack (delivery_tag : N) (requeue : bool).

(** What the disk does with the write of a flush, an input of the call
    like the reading of the clock. [Written]: the directory is there or
    made, the file is opened (made, or emptied when there is one of that
    path), the text written and the file closed. [Refused e]:
    [os.makedirs] or [open] raises [e] (a name that is too long, no
    permission), and no file is touched. [Broken e kept]: the file is
    opened, and the write raises [e] when [kept] characters of the text
    have reached the file. *)
Inductive disk_reply : Type :=
| Written
| Refused (e : exn)
| Broken (e : exn) (kept : nat).

(** The state the handler works on: the module's [batch_cache], the
    files under [BATCH_DIR] (the text of each, by its path, two paths
    being one file when they are the same string) and what was sent on
    the channel (oldest first). Answering the broker is taken to
    succeed; what is printed is left out. *)
Record world : Type := World {
  batch_cache : gmap pystr (list value);
  files : gmap pystr string;
  channel : list reply
}.

Definition initial_world : world := World ∅ ∅ [].

(** A statement of the handler: it runs in a world and returns or
    raises, leaving the world as it has made it so far. *)
Definition prog (A : Type) : Type := world -> outcome A * world.

#[global] Instance prog_ret : MRet prog := fun A a w => (Returned a, w).
#[global] Instance prog_bind : MBind prog := fun A B k m w =>
  match m w with
  | (Returned a, w') => k a w'
  | (Raised e, w') => (Raised e, w')
  end.

Definition lift {A} (o : outcome A) : prog A := fun w => (o, w).

(** [try: body except Exception as e: handler(e)]. *)
Definition try_except {A} (body : prog A) (handler : exn -> prog A) : prog A :=
  fun w =>
    match body w with
    | (Returned a, w') => (Returned a, w')
    | (Raised e, w') => handler e w'
    end.

(** [batch_cache[batch_id]] on a [defaultdict(list)]: a missing key is
    entered with an empty list. *)
Definition cache_getitem (batch_id : pystr) : prog (list value) := fun w =>
  match batch_cache w !! batch_id with
  | Some records => (Returned records, w)
  | None =>
      (Returned [],
       World (<[batch_id := []]> (batch_cache w)) (files w) (channel w))
  end.

(** The list held at a key is changed in place. *)
Definition cache_setitem (batch_id : pystr) (records : list value) : prog unit :=
  fun w =>
    (Returned tt,
     World (<[batch_id := records]> (batch_cache w)) (files w) (channel w)).

(** [os.makedirs(BATCH_DIR, exist_ok=True)] and
    [with open(path, 'w') as f: f.write(text)]: the mode ['w'] replaces
    what a file of that path held; a write that fails raises, and leaves
    of the text what had reached the file. *)
Definition write_file (disk : disk_reply) (path : pystr) (text : string)
    : prog unit := fun w =>
  match disk with
  | Written =>
      (Returned tt, World (batch_cache w) (<[path := text]> (files w)) (channel w))
  | Refused e => (Raised e, w)
  | Broken e kept =>
      (Raised e,
       World (batch_cache w) (<[path := substring 0 kept text]> (files w)) (channel w))
  end.

Definition send (r : reply) : prog unit := fun w =>
  (Returned tt, World (batch_cache w) (files w) (channel w ++ [r])).

(** [calc_sha256]: the digest of the JSON text of the record, keys
    sorted. The text is ASCII, so its UTF-8 bytes are its characters. *)
Definition calc_sha256 (record : value) : pystr :=
  let raw := ascii_bytes (Json.dumps None true record) in
  SHA256.hexdigest raw.

(** [os.path.join(BATCH_DIR, filename)] with the POSIX separator; the
    file name has no separator in it, [batch_id] being a piece of a
    string split at the same character. *)
Definition path_join (dir filename : pystr) : pystr :=
  dir ++ str "/" ++ filename.

(** [try_flush_batch]; [timestamp] is what
    [datetime.utcnow().strftime('%Y%m%dT%H%M%SZ')] gives at the call, and
    [disk] what the disk does with the write. [records] and the list that
    is cleared are the one list held at [batch_id]; the list is cleared
    only when the write has returned. *)
Definition try_flush_batch (timestamp : pystr) (disk : disk_reply)
    (batch_id : pystr) : prog unit :=
  records ← cache_getitem batch_id;
  if (MAX_PER_BATCH <=? length records)%nat then
    let filename := batch_id ++ str "_" ++ timestamp ++ str ".json" in
    let path := path_join BATCH_DIR filename in
    write_file disk path (Json.dumps (Some 2%nat) false (VList records));;
    _ ← cache_getitem batch_id;
    cache_setitem batch_id []
  else mret tt.

(** A delivery: the routing key and delivery tag of [method], and what
    [json.loads(body)] makes of the body. *)
Record message : Type := Message {
  routing_key : pystr;
  delivery_tag : N;
  loads_body : outcome value
}.

(** [payload.get(key)]: only a dict has the method. *)
Definition get (payload : value) (key : pystr) : outcome value :=
  match payload with
  | VDict items => Returned (default VNone (dict_lookup key items))
  | _ => Raised AttributeError
  end.

(** [payload[key]] with a string key: a [KeyError] when a dict lacks
    the key, a [TypeError] from a value of another type. *)
Definition getitem (payload : value) (key : pystr) : outcome value :=
  match payload with
  | VDict items =>
      match dict_lookup key items with
      | Some v => Returned v
      | None => Raised (KeyError key)
      end
  | _ => Raised TypeError
  end.

(** [isinstance(v, (int, float))]: [bool] is a subclass of [int]. *)
Definition is_int_or_float (v : value) : bool :=
  match v with
  | VInt _ | VFloat _ | VBool _ => true
  | _ => false
  end.

Definition slash : codepoint := 47%N.

(** The body of the [try] in [on_message]. *)
Definition on_message_body (timestamp : pystr) (disk : disk_reply) (m : message)
    : prog unit :=
  payload ← lift (loads_body m);
  batch_id ← lift (list_getitem (split slash (routing_key m)) 1);
  temp ← lift (get payload (str "temp"));
  if negb (is_int_or_float temp) then send (basic_ack (delivery_tag m))
  else
    hum ← lift (get payload (str "hum"));
    if negb (is_int_or_float hum) then send (basic_ack (delivery_tag m))
    else
      ts ← lift (getitem payload (str "ts"));
      temp ← lift (getitem payload (str "temp"));
      hum ← lift (getitem payload (str "hum"));
      location ← lift (getitem payload (str "location"));
      productName ← lift (getitem payload (str "productName"));
      let record := VDict [
        (str "batch_id", VStr batch_id);
        (str "ts", ts);
        (str "temp", temp);
        (str "hum", hum);
        (str "location", location);
        (str "productName", productName);
        (str "hash", VStr (calc_sha256 payload))
      ] in
      records ← cache_getitem batch_id;
      cache_setitem batch_id (records ++ [record]);;
      try_flush_batch timestamp disk batch_id;;
      send (basic_ack (delivery_tag m)).

(** [on_message]: any exception is answered with a [basic_nack] that
    does not requeue. *)
Definition on_message (timestamp : pystr) (disk : disk_reply) (m : message)
    (w : world) : world :=
  snd (try_except (on_message_body timestamp disk m)
         (fun e => send (basic_nack (delivery_tag m) false)) w).

(** The handler run over a sequence of deliveries, each with the clock
    reading of its call and with what the disk does at that call. *)
Definition run (deliveries : list (pystr * disk_reply * message)) (w : world)
    : world :=
  fold_left (fun w d => on_message (fst (fst d)) (snd (fst d)) (snd d) w)
    deliveries w.

(** The records accumulated for a key; none when the key is not
    entered. *)
Definition cached (w : world) (batch_id : pystr) : list value :=
  default [] (batch_cache w !! batch_id).

(** The path and the text of the file that a flush writes. *)
Definition artifact_path (batch_id timestamp : pystr) : pystr :=
  path_join BATCH_DIR (batch_id ++ str "_" ++ timestamp ++ str ".json").

Definition artifact_text (records : list value) : string :=
  Json.dumps (Some 2%nat) false (VList records).

(** The record that the handler builds from a payload. *)
Definition record_of (batch_id : pystr) (items : list (pystr * value))
    (ts temp hum location productName : value) : value :=
  VDict [
    (str "batch_id", VStr batch_id);
    (str "ts", ts);
    (str "temp", temp);
    (str "hum", hum);
    (str "location", location);
    (str "productName", productName);
    (str "hash", VStr (calc_sha256 (VDict items)))
  ].

(** A delivery is a valid event for [batch_id], with [record] as its
    record, when its body decodes to a dict, the second piece of its
    routing key is [batch_id], [temp] and [hum] are numbers, and [ts],
    [location] and [productName] are there. *)
Inductive valid_event (m : message) (batch_id : pystr) (record : value) : Prop :=
| Valid_event (items : list (pystr * value))
    (ts temp hum location productName : value)
    (Hbody : loads_body m = Returned (VDict items))
    (Hkey : split slash (routing_key m) !! 1%nat = Some batch_id)
    (Htemp : dict_lookup (str "temp") items = Some temp)
    (Htemp_number : is_int_or_float temp = true)
    (Hhum : dict_lookup (str "hum") items = Some hum)
    (Hhum_number : is_int_or_float hum = true)
    (Hts : dict_lookup (str "ts") items = Some ts)
    (Hlocation : dict_lookup (str "location") items = Some location)
    (HproductName : dict_lookup (str "productName") items = Some productName)
    (Hrecord : record = record_of batch_id items ts temp hum location productName).

(** The world after a valid event: the record is added to those of its
    key. At [MAX_PER_BATCH] records or more the file is written: when the
    write returns the list is emptied and the event acknowledged; when it
    raises, the list stays as it is, with the record, and the event is
    answered with [basic_nack]. *)
Definition accept (timestamp : pystr) (disk : disk_reply) (batch_id : pystr)
    (record : value) (tag : N) (w : world) : world :=
  let records := cached w batch_id ++ [record] in
  let path := artifact_path batch_id timestamp in
  let text := artifact_text records in
  if (MAX_PER_BATCH <=? length records)%nat then
    match disk with
    | Written =>
        World (<[batch_id := []]> (batch_cache w))
              (<[path := text]> (files w))
              (channel w ++ [basic_ack tag])
    | Refused e =>
        World (<[batch_id := records]> (batch_cache w))
              (files w)
              (channel w ++ [basic_nack tag false])
    | Broken e kept =>
        World (<[batch_id := records]> (batch_cache w))
              (<[path := substring 0 kept text]> (files w))
              (channel w ++ [basic_nack tag false])
    end
  else
    World (<[batch_id := records]> (batch_cache w))
          (files w)
          (channel w ++ [basic_ack tag]).

(** The records of the valid events for a key among a sequence of
    deliveries, in order of arrival. *)
Inductive arrivals (batch_id : pystr)
  : list (pystr * disk_reply * message) -> list value -> Prop :=
| arrivals_nil : arrivals batch_id [] []
| arrivals_valid (timestamp : pystr) (disk : disk_reply) (m : message)
    (record : value)
    (deliveries : list (pystr * disk_reply * message)) (records : list value) :
    valid_event m batch_id record ->
    arrivals batch_id deliveries records ->
    arrivals batch_id ((timestamp, disk, m) :: deliveries) (record :: records)
| arrivals_other (timestamp : pystr) (disk : disk_reply) (m : message)
    (deliveries : list (pystr * disk_reply * message)) (records : list value) :
    ~ (exists record, valid_event m batch_id record) ->
    arrivals batch_id deliveries records ->
    arrivals batch_id ((timestamp, disk, m) :: deliveries) records.

(** Every write of a sequence of deliveries succeeds. *)
Definition writes_succeed (deliveries : list (pystr * disk_reply * message)) : Prop :=
  Forall (fun d => snd (fst d) = Written) deliveries.

(** A JSON number and a JSON boolean, as values. *)
Definition json_number (v : value) : bool :=
  match v with VInt _ | VFloat _ => true | _ => false end.

Definition json_boolean (v : value) : bool :=
  match v with VBool _ => true | _ => false end.

(** The field is there and the handler's check takes it for a number. *)
Definition numeric_field (key : pystr) (items : list (pystr * value)) : bool :=
  match dict_lookup key items with
  | Some v => is_int_or_float v
  | None => false
  end.

(** Every open batch is below the threshold. *)
Definition below_threshold (w : world) : Prop :=
  forall (batch_id : pystr) (records : list value),
    batch_cache w !! batch_id = Some records ->
    (length records < MAX_PER_BATCH)%nat.

End DataCleaner.

(** ** Sample deliveries *)

(** Readings as the test publisher sends them, on the topic of batch
    [batch321]. *)
Module Sample.
Import DataCleaner.

Definition hum : value := VFloat (Finite false 7 [5%N; 5%N] 2).
Definition ts : value := VStr (str "2025-07-31T01:56:14Z").
Definition location : value := VStr (str "Beijing").
Definition productName : value := VStr (str "Beef").

Definition reading (temp : value) : list (pystr * value) :=
  [(str "temp", temp); (str "hum", hum); (str "ts", ts);
   (str "location", location); (str "productName", productName)].

Definition delivery (routing_key : string) (items : list (pystr * value)) : message :=
  Message (str routing_key) 1 (Returned (VDict items)).

Definition event (temp : value) : message :=
  delivery "coldchain/batch321/sensor" (reading temp).

Definition record (temp : value) : value :=
  record_of (str "batch321") (reading temp) ts temp hum location productName.

(** A reading without [hum], one without [ts], and one for another
    batch. *)
Definition without_hum : message :=
  delivery "coldchain/batch321/sensor"
    [(str "temp", VInt 2); (str "ts", ts);
     (str "location", location); (str "productName", productName)].

Definition without_ts : message :=
  delivery "coldchain/batch321/sensor"
    [(str "temp", VInt 2); (str "hum", hum);
     (str "location", location); (str "productName", productName)].

Definition elsewhere : message :=
  delivery "coldchain/batch777/sensor" (reading (VInt 9)).

Definition clock : pystr := str "20250731T020929Z".

(** A key of 234 characters: with the underscore, the 16 characters of
    the clock and [.json] the name of its file has 256, one more than
    the 255 that a name may have on the usual file systems, where
    [open] raises [OSError] for it. *)
Definition long_key : pystr := List.repeat 107%N 234.

Definition long_event (temp : value) : message :=
  Message (str "coldchain/" ++ long_key ++ str "/sensor") 1
          (Returned (VDict (reading temp))).

Definition long_record (temp : value) : value :=
  record_of long_key (reading temp) ts temp hum location productName.

End Sample.

(** ** [comp6452/upload_to_ipfs.py] *)

Module Upload.

(** [current.append(current[-1])] when the length is odd. *)
Definition pad_odd (current : list pystr) : list pystr :=
  if Nat.odd (length current) then current ++ [List.last current []] else current.

(** The [for] loop over the pairs of one level: the two hashes are
    decoded from hex, joined and hashed. *)
Fixpoint next_level (current : list pystr) : outcome (list pystr) :=
  match current with
  | [] => Returned []
  | [a] => _ ← Hex.fromhex a; Raised IndexError
  | a :: b :: rest =>
      left ← Hex.fromhex a;
      right ← Hex.fromhex b;
      let combined := left ++ right in
      parents ← next_level rest;
      Returned (SHA256.hexdigest combined :: parents)
  end.

Lemma next_level_length current parents :
  next_level current = Returned parents ->
  length current = (2 * length parents)%nat.
Proof.
  revert parents. induction current as [current IH] using (well_founded_induction
    (well_founded_ltof _ (@length pystr))).
  destruct current as [|a [|b rest]]; intros parents; simpl.
  - intros [= <-]. reflexivity.
  - destruct (Hex.fromhex a); discriminate.
  - destruct (Hex.fromhex a); [|discriminate]. simpl.
    destruct (Hex.fromhex b); [|discriminate]. simpl.
    destruct (next_level rest) as [ps|] eqn:E; [|discriminate]. simpl.
    intros [= <-]. simpl.
    assert (Hrest : ltof _ (@length pystr) rest (a :: b :: rest))
      by (unfold ltof; simpl; lia).
    rewrite (IH rest Hrest ps E). lia.
Qed.

Lemma pad_odd_length current :
  (length (pad_odd current) = length current + Nat.b2n (Nat.odd (length current)))%nat.
Proof.
  unfold pad_odd. destruct (Nat.odd (length current)); simpl.
  - rewrite length_app. reflexivity.
  - lia.
Qed.

(** A level of more than one hash is followed by a shorter one. *)
Lemma level_shrinks current parents :
  (1 < length current)%nat ->
  next_level (pad_odd current) = Returned parents ->
  (length parents < length current)%nat.
Proof.
  intros Hlen Hnext. apply next_level_length in Hnext.
  rewrite pad_odd_length in Hnext.
  destruct (Nat.odd (length current)); simpl in Hnext; lia.
Qed.

(** A value together with the equation that names it. *)
Definition inspect {A} (a : A) : {b : A | a = b} := exist _ a eq_refl.

(** The [while len(current) > 1] loop and the [return current[0]] after
    it. *)
Equations? levels (current : list pystr) : outcome pystr
  by wf (length current) lt :=
  levels current with le_lt_dec (length current) 1 => {
    | left _ => list_getitem current 0
    | right more with inspect (next_level (pad_odd current)) => {
        | exist _ (Returned parents) run => levels parents
        | exist _ (Raised e) _ => Raised e } }.
Proof. eapply level_shrinks; eassumption. Qed.

(** [compute_merkle_root]; [None] is Python's [None]. *)
Definition compute_merkle_root (hash_list : list pystr) : outcome (option pystr) :=
  match hash_list with
  | [] => Returned None
  | _ => root ← levels hash_list; Returned (Some root)
  end.

(** One pass of the body of the [while] loop, and [n] passes in a row. *)
Definition loop_body (current : list pystr) : outcome (list pystr) :=
  next_level (pad_odd current).

Fixpoint passes (n : nat) (current : list pystr) : outcome (list pystr) :=
  match n with
  | O => Returned current
  | S k => parents ← loop_body current; passes k parents
  end.

(** A fingerprint is a string that [bytes.fromhex] decodes, as the hex
    digest of a record is. *)
Definition fingerprint (h : pystr) : bool :=
  match Hex.fromhex h with
  | Returned _ => true
  | Raised _ => false
  end.

End Upload.

(** ** Notions used in the statements and proofs *)

Module Texts.
Local Open Scope string_scope.

(** The order of two items by their keys. *)
Definition key_le {A} (x y : pystr * A) : Prop := str_le (fst x) (fst y) = true.

(** A character that no [int] is written with and every [float] is. *)
Definition float_mark (c : ascii) : bool :=
  (Ascii.eqb c "." || Ascii.eqb c "e" || Ascii.eqb c "N" || Ascii.eqb c "I")%bool.

Fixpoint has_float_mark (s : string) : bool :=
  match s with
  | EmptyString => false
  | String c rest => (float_mark c || has_float_mark rest)%bool
  end.

(** Items that carry two texts each: the same text twice, or the text of
    an [int] and that of a [float]. *)
Definition same_texts (x : pystr * (string * string)) : Prop :=
  fst (snd x) = snd (snd x).

Definition int_and_float (x : pystr * (string * string)) : Prop :=
  exists z f, snd x = (Json.int_repr z, Json.encode_float f).

(** Exactly one item of the list is of the second kind. *)
Inductive one_differs : list (pystr * (string * string)) -> Prop :=
| differs_here x rest :
    int_and_float x -> Forall same_texts rest -> one_differs (x :: rest)
| differs_later x rest :
    same_texts x -> one_differs rest -> one_differs (x :: rest).

(** The two texts of a list of items, joined as the items of a dict. *)
Definition first_texts (l : list (pystr * (string * string))) : list string :=
  map (fun kr => Json.encode_str (fst kr) ++ ": " ++ fst (snd kr)) l.

Definition second_texts (l : list (pystr * (string * string))) : list string :=
  map (fun kr => Json.encode_str (fst kr) ++ ": " ++ snd (snd kr)) l.

End Texts.

(** ** The handler's verdict on a delivery, and the batches it has sealed *)

Module Ledger.
Import DataCleaner.

(** [key in payload] for the items of a dict. *)
Definition has_key (key : pystr) (items : list (pystr * value)) : bool :=
  match dict_lookup key items with
  | Some _ => true
  | None => false
  end.

(** The batch key and the record of a delivery that the handler accepts;
    none for a delivery that it rejects. *)
Definition event_of (m : message) : option (pystr * value) :=
  match loads_body m, split slash (routing_key m) !! 1%nat with
  | Returned (VDict items), Some batch_id =>
      match dict_lookup (str "temp") items, dict_lookup (str "hum") items,
            dict_lookup (str "ts") items, dict_lookup (str "location") items,
            dict_lookup (str "productName") items with
      | Some temp, Some hum, Some ts, Some location, Some productName =>
          if is_int_or_float temp && is_int_or_float hum
          then Some (batch_id, record_of batch_id items ts temp hum location productName)
          else None
      | _, _, _, _, _ => None
      end
  | _, _ => None
  end.

(** The deliveries that are answered with [basic_ack]: the body is a JSON
    object, the routing key has a second piece, and either [temp] or
    [hum] fails the check of the handler, or [ts], [location] and
    [productName] are all there. *)
Definition acknowledged (m : message) : bool :=
  match loads_body m, split slash (routing_key m) !! 1%nat with
  | Returned (VDict items), Some _ =>
      negb (numeric_field (str "temp") items)
      || negb (numeric_field (str "hum") items)
      || (has_key (str "ts") items && has_key (str "location") items
          && has_key (str "productName") items)
  | _, _ => false
  end.

Definition reply_to (m : message) : reply :=
  if acknowledged m then basic_ack (delivery_tag m)
  else basic_nack (delivery_tag m) false.

(** The delivery makes a flush that fails: it is an event that the
    handler accepts, it brings the records of its key to the threshold,
    and the write of the file raises. *)
Definition flush_fails (disk : disk_reply) (m : message) (w : world) : bool :=
  match event_of m, disk with
  | Some (batch_id, record), (Refused _ | Broken _ _) =>
      (MAX_PER_BATCH <=? length (cached w batch_id ++ [record]))%nat
  | _, _ => false
  end.

(** A batch that was sealed: its key, the clock reading of the flush and
    its records; and the file that the flush wrote for it. *)
Record sealed : Type := Sealed {
  sealed_key : pystr;
  sealed_at : pystr;
  sealed_records : list value
}.

Definition sealed_file (s : sealed) : pystr * string :=
  (artifact_path (sealed_key s) (sealed_at s), artifact_text (sealed_records s)).

(** The records of the sealed batches of a key, oldest first. *)
Definition sealed_for (batch_id : pystr) (batches : list sealed) : list value :=
  concat (map sealed_records
            (filter (fun s => sealed_key s = batch_id) batches)).

(** A flush that opened its file: the batch it was to write and, when
    the write broke, how many characters of the text had reached the
    file. *)
Record flush : Type := Flush {
  flushed : sealed;
  broken_at : option nat
}.

Definition flush_path (f : flush) : pystr := fst (sealed_file (flushed f)).

Definition flush_text (f : flush) : string :=
  match broken_at f with
  | None => snd (sealed_file (flushed f))
  | Some kept => substring 0 kept (snd (sealed_file (flushed f)))
  end.

Definition unbroken (f : flush) : bool :=
  match broken_at f with
  | None => true
  | Some _ => false
  end.

(** The batches that were written whole, oldest first. *)
Definition whole (flushes : list flush) : list sealed :=
  map flushed (List.filter unbroken flushes).

(** The files that a sequence of flushes leaves, the oldest first: a
    later one replaces what an earlier one left at the same path. *)
Definition disk_after (flushes : list flush) (disk : gmap pystr string)
    : gmap pystr string :=
  fold_left (fun d f => <[flush_path f := flush_text f]> d) flushes disk.

(** A lowercase hexadecimal digit. *)
Definition lower_hex (c : codepoint) : bool :=
  ((48 <=? c) && (c <=? 57) || (97 <=? c) && (c <=? 102))%N.

End Ledger.

(** ** More of the Python library: [str.strip], [str.endswith], [os.path.basename] *)

(** [str.isspace] of one character. *)
Definition is_whitespace (c : codepoint) : bool :=
  ((9 <=? c) && (c <=? 13) || (28 <=? c) && (c <=? 32)
   || (c =? 133) || (c =? 160) || (c =? 5760)
   || (8192 <=? c) && (c <=? 8202)
   || (c =? 8232) || (c =? 8233) || (c =? 8239) || (c =? 8287) || (c =? 12288))%N.

Fixpoint lstrip (s : pystr) : pystr :=
  match s with
  | c :: rest => if is_whitespace c then lstrip rest else s
  | [] => []
  end.

(** [s.strip()]. *)
Definition strip (s : pystr) : pystr := List.rev (lstrip (List.rev (lstrip s))).

(** [s.startswith(prefix)] and [s.endswith(suffix)]. *)
Fixpoint startswith (prefix s : pystr) : bool :=
  match prefix, s with
  | [], _ => true
  | p :: prefix', c :: s' => N.eqb p c && startswith prefix' s'
  | _ :: _, [] => false
  end.

Definition endswith (suffix s : pystr) : bool :=
  startswith (List.rev suffix) (List.rev s).

(** [os.path.basename] where the separator is [/]: what follows the last
    separator. *)
Definition basename (path : pystr) : pystr := List.last (split 47%N path) [].

(** ** The rest of [comp6452/upload_to_ipfs.py] *)

Module UploadBatch.

(** What the script can fail with: a Python exception, or the
    [RuntimeError] that it raises itself, with its message. *)
Inductive failure : Type :=
| Python (e : exn)
| RuntimeError (message : pystr).

Inductive result (A : Type) : Type :=
| Done (a : A)
| Failed (f : failure).
Arguments Done {A} a.
Arguments Failed {A} f.

(** What [subprocess.run] gives back of a run of the IPFS command. *)
Record completed : Type := Completed {
  returncode : Z;
  stdout : pystr;
  stderr : pystr
}.

(** The parameters of one [INSERT IGNORE INTO batches]; [None] is sent as
    [NULL]. *)
Record row : Type := Row {
  batch_id : pystr;
  ipfs_cid : pystr;
  merkle_root : option value;
  record_count : nat;
  created_at : pystr
}.

(** What the script has done: the paths given to [ipfs add] and the rows
    given to [INSERT IGNORE] and committed, oldest first. Connecting to
    the database and executing the statement are taken to succeed; what
    the table keeps of a row is the database's matter. *)
Record store : Type := Store {
  uploads : list pystr;
  inserted : list row
}.

(** [upload_file_via_cli]; [cli] is what running [ipfs add -Q path]
    gives. *)
Definition upload_file_via_cli (cli : pystr -> completed) (path : pystr)
    (s : store) : result pystr * store :=
  let run := cli path in
  let s' := Store (uploads s ++ [path]) (inserted s) in
  if (returncode run =? 0)%Z then (Done (strip (stdout run)), s')
  else (Failed (RuntimeError (str "IPFS add failed: " ++ stderr run)), s').

(** [for rec in records]: the items of a list, the keys of a dict, the
    characters of a string; nothing else can be iterated. *)
Definition iterate (records : value) : outcome (list value) :=
  match records with
  | VList l => Returned l
  | VDict items => Returned (map (fun kv => VStr (fst kv)) items)
  | VStr s => Returned (map (fun c => VStr [c]) s)
  | _ => Raised TypeError
  end.

(** [len(records)]. *)
Definition len (records : value) : outcome nat :=
  match records with
  | VList l => Returned (length l)
  | VDict items => Returned (length items)
  | VStr s => Returned (length s)
  | _ => Raised TypeError
  end.

(** [[rec['hash'] for rec in records]], one record after the other. *)
Fixpoint hashes_of (records : list value) : outcome (list value) :=
  match records with
  | [] => Returned []
  | rec :: rest =>
      h ← DataCleaner.getitem rec (str "hash");
      hs ← hashes_of rest;
      Returned (h :: hs)
  end.

(** [bytes.fromhex] of a value: only a string is taken. *)
Definition fromhex_value (v : value) : outcome (list byte) :=
  match v with
  | VStr s => Hex.fromhex s
  | _ => Raised TypeError
  end.

Fixpoint decode_all (hashes : list value) : outcome (list (list byte)) :=
  match hashes with
  | [] => Returned []
  | h :: rest =>
      bs ← fromhex_value h;
      more ← decode_all rest;
      Returned (bs :: more)
  end.

(** The hex digests of the pairs of a level of decoded hashes. *)
Fixpoint pair_digests (decoded : list (list byte)) : list pystr :=
  match decoded with
  | first :: second :: rest => SHA256.hexdigest (first ++ second) :: pair_digests rest
  | _ => []
  end.

Definition pad_last (hashes : list value) : list value :=
  if Nat.odd (length hashes) then hashes ++ [List.last hashes VNone] else hashes.

(** [compute_merkle_root] on the hashes as the file holds them, which
    need not be strings: a single hash is returned as it is; otherwise the
    first pass decodes the hashes in order, and the loop goes on with the
    hex digests of the pairs. *)
Definition compute_merkle_root (hash_list : list value) : outcome (option value) :=
  match hash_list with
  | [] => Returned None
  | [h] => Returned (Some h)
  | _ =>
      decoded ← decode_all (pad_last hash_list);
      root ← Upload.levels (pair_digests decoded);
      Returned (Some (VStr root))
  end.

Definition underscore : codepoint := 95%N.

(** [os.path.basename(path).split('_')[0]]. *)
Definition batch_id_of_path (path : pystr) : pystr :=
  hd [] (split underscore (basename path)).

(** [process_batch_file]; [loaded] is what [json.load] makes of the file
    at [path], and [now] the clock reading [datetime.utcnow()]. *)
Definition process_batch_file (cli : pystr -> completed) (now : pystr)
    (path : pystr) (loaded : outcome value) (s : store) : result unit * store :=
  match loaded with
  | Raised e => (Failed (Python e), s)
  | Returned records =>
      let batch_id := batch_id_of_path path in
      match (recs ← iterate records;
             hashes ← hashes_of recs;
             compute_merkle_root hashes) with
      | Raised e => (Failed (Python e), s)
      | Returned merkle_root =>
          match upload_file_via_cli cli path s with
          | (Failed f, s') => (Failed f, s')
          | (Done cid, s') =>
              match len records with
              | Raised e => (Failed (Python e), s')
              | Returned count =>
                  (Done tt,
                   Store (uploads s')
                         (inserted s' ++ [Row batch_id cid merkle_root count now]))
              end
          end
      end
  end.

(** An entry of [./batches] as [main] meets it: the clock reading when
    it is processed, its name, and what [json.load] makes of it. *)
Record entry : Type := Entry {
  processed_at : pystr;
  fname : pystr;
  content : outcome value
}.

Definition entry_path (e : entry) : pystr :=
  DataCleaner.path_join (str "./batches") (fname e).

(** The test of the loop of [main]: [fname.endswith(".json")]. *)
Definition is_json (e : entry) : bool := endswith (str ".json") (fname e).

(** [main]: the entries in the order of [os.listdir]; an exception ends
    the script. *)
Fixpoint main (cli : pystr -> completed) (listing : list entry) (s : store)
    : result unit * store :=
  match listing with
  | [] => (Done tt, s)
  | e :: rest =>
      if is_json e then
        match process_batch_file cli (processed_at e) (entry_path e) (content e) s with
        | (Done _, s') => main cli rest s'
        | (Failed f, s') => (Failed f, s')
        end
      else main cli rest s
  end.

End UploadBatch.

(** ** [traceability_backend/gateway.py] *)

Module Gateway.

(** An MQTT message: its topic, and what [msg.payload.decode()] makes of
    its payload (a [ValueError], of which [UnicodeDecodeError] is a kind,
    when the bytes are not UTF-8). *)
Record mqtt_message : Type := Mqtt {
  topic : pystr;
  decoded : outcome pystr
}.

(** A [basic_publish] on the exchange [raw_data]; publishing is taken to
    succeed. *)
Record publication : Type := Publication {
  routing_key : pystr;
  body : string
}.

Definition single_quote : codepoint := 39%N.
Definition double_quote : codepoint := 34%N.

(** The test for a pair of quotes around the text. *)
Definition quoted (raw : pystr) : bool :=
  startswith [single_quote] raw && endswith [single_quote] raw
  || startswith [double_quote] raw && endswith [double_quote] raw.

(** [raw[1:-1]]. *)
Definition peel (raw : pystr) : pystr := removelast (tl raw).

(** The text that is given to [json.loads]. *)
Definition unwrap (text : pystr) : pystr :=
  let raw := strip text in
  if quoted raw then strip (peel raw) else raw.

(** [k in s] for strings. *)
Fixpoint substring (k s : pystr) : bool :=
  startswith k s
  || match s with
     | [] => false
     | _ :: rest => substring k rest
     end.

(** [k in payload] for a string [k]: a key of a dict, an item of a list,
    a part of a string; a [TypeError] from the other values. *)
Definition contains (payload : value) (k : pystr) : outcome bool :=
  match payload with
  | VDict items => Returned (Ledger.has_key k items)
  | VList l =>
      Returned (existsb (fun v => match v with
                                  | VStr s => bool_decide (s = k)
                                  | _ => false
                                  end) l)
  | VStr s => Returned (substring k s)
  | _ => Raised TypeError
  end.

(** [all(k in payload for k in ks)], which stops at the first [False]. *)
Fixpoint all_in (payload : value) (ks : list pystr) : outcome bool :=
  match ks with
  | [] => Returned true
  | k :: rest =>
      match contains payload k with
      | Returned true => all_in payload rest
      | other => other
      end
  end.

Definition required : list pystr := [str "temp"; str "hum"; str "ts"].

(** [on_message]; [loads] is [json.loads], and [sent] what has been
    published so far, oldest first. Only a [JSONDecodeError] is caught. *)
Definition on_message (loads : pystr -> outcome value) (msg : mqtt_message)
    (sent : list publication) : outcome unit * list publication :=
  match decoded msg with
  | Raised e => (Raised e, sent)
  | Returned text =>
      match unwrap text with
      | [] => (Returned tt, sent)
      | raw =>
          match loads raw with
          | Raised JSONDecodeError => (Returned tt, sent)
          | Raised e => (Raised e, sent)
          | Returned payload =>
              match all_in payload required with
              | Raised e => (Raised e, sent)
              | Returned true =>
                  (Returned tt,
                   sent ++ [Publication (topic msg) (Json.dumps None false payload)])
              | Returned false => (Returned tt, sent)
              end
          end
      end
  end.

End Gateway.

(** * Properties *)

(** ** SHA-256 on the test vectors of the standard *)

Example sha256_abc :
  SHA256.hexdigest (ascii_bytes "abc")
  = str "ba7816bf8f01cfea414140de5dae2223b00361a396177a9cb410ff61f20015ad".
Proof. vm_compute. reflexivity. Qed.

Example sha256_empty :
  SHA256.hexdigest []
  = str "e3b0c44298fc1c149afbf4c8996fb92427ae41e4649b934ca495991b7852b855".
Proof. vm_compute. reflexivity. Qed.

Example sha256_two_blocks :
  SHA256.hexdigest (ascii_bytes "abcdbcdecdefdefgefghfghighijhijkijkljklmklmnlmnomnopnopq")
  = str "248d6a61d20638b8e5c026930c3e6039a33ce45964ff2167f6ecedd419db06c1".
Proof. vm_compute. reflexivity. Qed.

(** ** Hex text *)

Lemma fromhex_byte (b : byte) (rest : pystr) :
  Hex.fromhex (Hex.digit (Byte.to_N b / 16) :: Hex.digit (Byte.to_N b mod 16) :: rest)
  = (bs ← Hex.fromhex rest; Returned (b :: bs)).
Proof. destruct b; reflexivity. Qed.

(** Decoding the hex text of a byte string gives the byte string back. *)
Lemma fromhex_hex (bs : list byte) : Hex.fromhex (Hex.hex bs) = Returned bs.
Proof.
  induction bs as [|b bs IH]; [reflexivity|].
  unfold Hex.hex in *. cbn [flat_map app]. rewrite fromhex_byte, IH. reflexivity.
Qed.

Lemma fromhex_hexdigest (data : list byte) :
  Hex.fromhex (SHA256.hexdigest data) = Returned (SHA256.digest data).
Proof. apply fromhex_hex. Qed.

Lemma fingerprint_hexdigest (data : list byte) :
  Upload.fingerprint (SHA256.hexdigest data) = true.
Proof. unfold Upload.fingerprint. rewrite fromhex_hexdigest. reflexivity. Qed.

(** ** The Merkle root *)

Section MerkleRoot.
Import Upload.

(** The loop, unfolded once. *)
Lemma levels_unfold (current : list pystr) :
  levels current =
  if (length current <=? 1)%nat then list_getitem current 0
  else match loop_body current with
       | Returned parents => levels parents
       | Raised e => Raised e
       end.
Proof.
  unfold loop_body. funelim (levels current).
  - destruct (Nat.leb_spec (length current) 1); [reflexivity | lia].
  - destruct (Nat.leb_spec (length current) 1); [lia|].
    match goal with E : next_level _ = _ |- _ => rewrite E end. reflexivity.
  - destruct (Nat.leb_spec (length current) 1); [lia|].
    match goal with E : next_level _ = _ |- _ => rewrite E end. reflexivity.
Qed.

Lemma next_level_fingerprints (current : list pystr) :
  Forall (fun h => fingerprint h = true) current ->
  Nat.even (length current) = true ->
  exists parents,
    next_level current = Returned parents
    /\ Forall (fun h => fingerprint h = true) parents
    /\ length current = (2 * length parents)%nat.
Proof.
  induction current as [current IH] using
    (well_founded_induction (well_founded_ltof _ (@length pystr))).
  destruct current as [|a [|b rest]]; intros Hfp Heven.
  - exists []. repeat split. constructor.
  - discriminate Heven.
  - inversion Hfp as [|? ? Ha Hfp']; subst.
    inversion Hfp' as [|? ? Hb Hrest]; subst.
    assert (Hlt : ltof _ (@length pystr) rest (a :: b :: rest))
      by (unfold ltof; simpl; lia).
    destruct (IH rest Hlt Hrest) as (ps & Hps & Hfps & Hlen); [exact Heven|].
    unfold fingerprint in Ha, Hb.
    destruct (Hex.fromhex a) as [ba|] eqn:Ea; [|discriminate].
    destruct (Hex.fromhex b) as [bb|] eqn:Eb; [|discriminate].
    exists (SHA256.hexdigest (ba ++ bb) :: ps).
    cbn [next_level]. rewrite Ea, Eb. cbn [mbind outcome_bind]. rewrite Hps.
    repeat split.
    + constructor; [apply fingerprint_hexdigest | exact Hfps].
    + cbn [length]. lia.
Qed.

Lemma pad_odd_even (current : list pystr) :
  Nat.even (length (pad_odd current)) = true.
Proof.
  unfold pad_odd. destruct (Nat.odd (length current)) eqn:E.
  - rewrite length_app, Nat.add_1_r, Nat.even_succ. exact E.
  - rewrite <- Nat.negb_odd, E. reflexivity.
Qed.

Lemma pad_odd_fingerprints (current : list pystr) :
  Forall (fun h => fingerprint h = true) current ->
  Forall (fun h => fingerprint h = true) (pad_odd current).
Proof.
  intros Hfp. unfold pad_odd. destruct (Nat.odd (length current)) eqn:E; [|exact Hfp].
  apply Forall_app. split; [exact Hfp|]. constructor; [|constructor].
  destruct current as [|a rest]; [discriminate E|].
  clear E. revert a Hfp. induction rest as [|b rest IH]; intros a Hfp.
  - inversion Hfp; assumption.
  - inversion Hfp; subst. change (fingerprint (List.last (b :: rest) []) = true).
    apply IH. assumption.
Qed.

(** A pass over a level of fingerprints gives the level of their
    parents, half as long (rounded up) and again of fingerprints. *)
Lemma loop_body_fingerprints (current : list pystr) :
  Forall (fun h => fingerprint h = true) current ->
  exists parents,
    loop_body current = Returned parents
    /\ Forall (fun h => fingerprint h = true) parents
    /\ (length current + Nat.b2n (Nat.odd (length current)) = 2 * length parents)%nat.
Proof.
  intros Hfp. unfold loop_body.
  destruct (next_level_fingerprints (pad_odd current)) as (ps & Hps & Hfps & Hlen).
  - apply pad_odd_fingerprints, Hfp.
  - apply pad_odd_even.
  - exists ps. rewrite pad_odd_length in Hlen. auto.
Qed.

Lemma levels_fingerprints (current : list pystr) :
  current <> [] ->
  Forall (fun h => fingerprint h = true) current ->
  exists (n : nat) (root : pystr),
    passes n current = Returned [root]
    /\ (forall k, (k < n)%nat ->
         exists level parents,
           passes k current = Returned level
           /\ (1 < length level)%nat
           /\ loop_body level = Returned parents
           /\ (0 < length parents < length level)%nat)
    /\ levels current = Returned root.
Proof.
  induction current as [current IH] using
    (well_founded_induction (well_founded_ltof _ (@length pystr))).
  intros Hne Hfp. rewrite levels_unfold.
  destruct (Nat.leb_spec (length current) 1) as [Hle|Hgt].
  - destruct current as [|root [|? ?]]; [congruence| |simpl in Hle; lia].
    exists 0%nat, root. repeat split. intros k Hk. lia.
  - destruct (loop_body_fingerprints current Hfp) as (ps & Hps & Hfps & Hlen).
    assert (Hshrink : (0 < length ps < length current)%nat)
      by (destruct (Nat.odd (length current)); simpl in Hlen; lia).
    destruct (IH ps) as (n & root & Hn & Hbefore & Hroot).
    + unfold ltof. lia.
    + destruct ps; [simpl in Hshrink; lia | discriminate].
    + exact Hfps.
    + exists (S n), root. rewrite Hps. split; [|split].
      * cbn [passes]. rewrite Hps. exact Hn.
      * intros [|k] Hk.
        -- exists current, ps. repeat split; auto; lia.
        -- cbn [passes]. rewrite Hps. apply Hbefore. lia.
      * exact Hroot.
Qed.

(** C1. The root of four fingerprints [h1, h2, h3, h4] is
    sha256(sha256(h1 || h2) || sha256(h3 || h4)): each pair of hashes is
    decoded from hex, the raw bytes are joined and hashed, the two
    parents are combined the same way, and the result is given as a hex
    digest. *)
Theorem merkle_root_of_four (h1 h2 h3 h4 : pystr) (b1 b2 b3 b4 : list byte) :
  Hex.fromhex h1 = Returned b1 ->
  Hex.fromhex h2 = Returned b2 ->
  Hex.fromhex h3 = Returned b3 ->
  Hex.fromhex h4 = Returned b4 ->
  compute_merkle_root [h1; h2; h3; h4] =
  Returned (Some (SHA256.hexdigest
                    (SHA256.digest (b1 ++ b2) ++ SHA256.digest (b3 ++ b4)))).
Proof.
  intros H1 H2 H3 H4. unfold compute_merkle_root.
  rewrite levels_unfold. cbn [length Nat.leb].
  unfold loop_body, pad_odd. cbn [length Nat.odd Nat.even negb next_level].
  rewrite H1, H2, H3, H4. cbn [mbind outcome_bind].
  rewrite levels_unfold. cbn [length Nat.leb].
  unfold loop_body, pad_odd. cbn [length Nat.odd Nat.even negb next_level].
  rewrite !fromhex_hexdigest. cbn [mbind outcome_bind].
  rewrite levels_unfold. reflexivity.
Qed.

Lemma merkle_root_of_four_witness :
  let a := ascii_bytes "a" in
  let b := ascii_bytes "b" in
  let c := ascii_bytes "c" in
  let d := ascii_bytes "d" in
  Hex.fromhex (SHA256.hexdigest a) = Returned (SHA256.digest a)
  /\ Hex.fromhex (SHA256.hexdigest b) = Returned (SHA256.digest b)
  /\ Hex.fromhex (SHA256.hexdigest c) = Returned (SHA256.digest c)
  /\ Hex.fromhex (SHA256.hexdigest d) = Returned (SHA256.digest d)
  /\ compute_merkle_root
       [SHA256.hexdigest a; SHA256.hexdigest b; SHA256.hexdigest c; SHA256.hexdigest d]
     = Returned (Some (SHA256.hexdigest
                         (SHA256.digest (SHA256.digest a ++ SHA256.digest b)
                          ++ SHA256.digest (SHA256.digest c ++ SHA256.digest d)))).
Proof.
  intros a b c d.
  assert (Ha : Hex.fromhex (SHA256.hexdigest a) = Returned (SHA256.digest a))
    by (vm_compute; reflexivity).
  assert (Hb : Hex.fromhex (SHA256.hexdigest b) = Returned (SHA256.digest b))
    by (vm_compute; reflexivity).
  assert (Hc : Hex.fromhex (SHA256.hexdigest c) = Returned (SHA256.digest c))
    by (vm_compute; reflexivity).
  assert (Hd : Hex.fromhex (SHA256.hexdigest d) = Returned (SHA256.digest d))
    by (vm_compute; reflexivity).
  exact (conj Ha (conj Hb (conj Hc (conj Hd
           (merkle_root_of_four _ _ _ _ _ _ _ _ Ha Hb Hc Hd))))).
Defined.

(** The claim C4 says that an empty list is refused with an error: the
    call returns [None] instead. *)
Lemma empty_batch_returns_none :
  compute_merkle_root [] = Returned None
  /\ ~ (exists e, compute_merkle_root [] = Raised e).
Proof. split; [reflexivity | intros [e He]; discriminate He]. Qed.

(** C4, amended. On an empty list the call returns [None] and raises
    nothing; on a list of one hash it returns that hash as it is. *)
Theorem merkle_root_edge_cases :
  compute_merkle_root [] = Returned None
  /\ forall h : pystr, compute_merkle_root [h] = Returned (Some h).
Proof.
  split; [reflexivity|]. intros h. unfold compute_merkle_root.
  rewrite levels_unfold. reflexivity.
Qed.

(** C8. On a non-empty list of fingerprints the loop ends: after some
    number [n] of passes exactly one fingerprint is left and it is the
    root that is returned; every pass before that starts from a level of
    more than one fingerprint and leaves a strictly shorter, non-empty
    one, whether or not the level had to be padded. *)
Theorem merkle_loop_terminates (hash_list : list pystr) :
  hash_list <> [] ->
  Forall (fun h => fingerprint h = true) hash_list ->
  exists (n : nat) (root : pystr),
    passes n hash_list = Returned [root]
    /\ (forall k, (k < n)%nat ->
         exists level parents,
           passes k hash_list = Returned level
           /\ (1 < length level)%nat
           /\ loop_body level = Returned parents
           /\ (0 < length parents < length level)%nat)
    /\ compute_merkle_root hash_list = Returned (Some root).
Proof.
  intros Hne Hfp.
  destruct (levels_fingerprints hash_list Hne Hfp) as (n & root & Hn & Hk & Hroot).
  exists n, root. split; [exact Hn | split; [exact Hk |]].
  unfold compute_merkle_root. destruct hash_list; [congruence|].
  rewrite Hroot. reflexivity.
Qed.

Lemma merkle_loop_terminates_witness :
  let hash_list :=
    [SHA256.hexdigest (ascii_bytes "a"); SHA256.hexdigest (ascii_bytes "b");
     SHA256.hexdigest (ascii_bytes "c")] in
  hash_list <> []
  /\ Forall (fun h => fingerprint h = true) hash_list
  /\ exists (n : nat) (root : pystr),
       passes n hash_list = Returned [root]
       /\ (forall k, (k < n)%nat ->
            exists level parents,
              passes k hash_list = Returned level
              /\ (1 < length level)%nat
              /\ loop_body level = Returned parents
              /\ (0 < length parents < length level)%nat)
       /\ compute_merkle_root hash_list = Returned (Some root).
Proof.
  intros hash_list.
  assert (Hne : hash_list <> []) by discriminate.
  assert (Hfp : Forall (fun h => fingerprint h = true) hash_list)
    by (repeat (constructor; [vm_compute; reflexivity|]); constructor).
  exact (conj Hne (conj Hfp (merkle_loop_terminates hash_list Hne Hfp))).
Defined.

End MerkleRoot.

(** ** The order of keys and the sorting of items *)

Section KeyOrder.
Import Texts.

Lemma str_compare_eq (a b : pystr) : str_compare a b = Eq <-> a = b.
Proof.
  revert b. induction a as [|x a IH]; intros [|y b]; simpl;
    try (split; [discriminate | congruence]); [tauto|].
  destruct (N.compare_spec x y) as [->|Hlt|Hgt].
  - rewrite IH. split; congruence.
  - split; [discriminate | intros [= -> _]; lia].
  - split; [discriminate | intros [= -> _]; lia].
Qed.

Lemma str_compare_antisym (a b : pystr) :
  str_compare b a = CompOpp (str_compare a b).
Proof.
  revert b. induction a as [|x a IH]; intros [|y b]; simpl; try reflexivity.
  rewrite (N.compare_antisym x y).
  destruct (x ?= y)%N; simpl; auto.
Qed.

Lemma str_compare_lt_trans (a b c : pystr) :
  str_compare a b = Lt -> str_compare b c = Lt -> str_compare a c = Lt.
Proof.
  revert b c. induction a as [|x a IH]; intros [|y b] [|z c]; simpl;
    try discriminate; try reflexivity.
  destruct (N.compare_spec x y) as [->|Hxy|Hxy]; try discriminate.
  - destruct (N.compare_spec y z) as [->|Hyz|Hyz]; try discriminate.
    + apply IH.
    + reflexivity.
  - intros _. destruct (N.compare_spec y z) as [->|Hyz|Hyz]; try discriminate.
    + intros _. destruct (N.compare_spec x z); [lia | reflexivity | lia].
    + intros _. destruct (N.compare_spec x z); [lia | reflexivity | lia].
Qed.

Lemma str_le_total (a b : pystr) : str_le a b = true \/ str_le b a = true.
Proof.
  unfold str_le. rewrite (str_compare_antisym a b).
  destruct (str_compare a b); simpl; auto.
Qed.

Lemma str_le_antisym (a b : pystr) :
  str_le a b = true -> str_le b a = true -> a = b.
Proof.
  unfold str_le. rewrite (str_compare_antisym a b).
  destruct (str_compare a b) eqn:E; simpl; try discriminate.
  intros _ _. apply str_compare_eq, E.
Qed.

Lemma str_le_trans (a b c : pystr) :
  str_le a b = true -> str_le b c = true -> str_le a c = true.
Proof.
  unfold str_le.
  destruct (str_compare a b) eqn:Eab; try discriminate;
    destruct (str_compare b c) eqn:Ebc; try discriminate; intros _ _.
  - apply str_compare_eq in Eab as ->. rewrite Ebc. reflexivity.
  - apply str_compare_eq in Eab as ->. rewrite Ebc. reflexivity.
  - apply str_compare_eq in Ebc as <-. rewrite Eab. reflexivity.
  - rewrite (str_compare_lt_trans a b c Eab Ebc). reflexivity.
Qed.

Context {A : Type}.
Implicit Types (x y : pystr * A) (l : list (pystr * A)).

(** Two insertions of items with different keys commute. *)
Lemma insert_item_comm x y l :
  fst x <> fst y ->
  Json.insert_item x (Json.insert_item y l) = Json.insert_item y (Json.insert_item x l).
Proof.
  intros Hne.
  assert (Hxy : str_le (fst x) (fst y) = true -> str_le (fst y) (fst x) = false).
  { intros H. destruct (str_le (fst y) (fst x)) eqn:E; [|reflexivity].
    destruct Hne. apply str_le_antisym; assumption. }
  assert (Hyx : str_le (fst x) (fst y) = false -> str_le (fst y) (fst x) = true).
  { intros H. destruct (str_le_total (fst x) (fst y)); congruence. }
  induction l as [|z l IH]; simpl.
  - destruct (str_le (fst x) (fst y)) eqn:E.
    + rewrite (Hxy eq_refl). reflexivity.
    + rewrite (Hyx eq_refl). reflexivity.
  - destruct (str_le (fst y) (fst z)) eqn:Eyz;
      destruct (str_le (fst x) (fst z)) eqn:Exz; simpl.
    + destruct (str_le (fst x) (fst y)) eqn:E.
      * rewrite (Hxy eq_refl), Eyz. reflexivity.
      * rewrite (Hyx eq_refl), Exz. reflexivity.
    + rewrite Eyz.
      destruct (str_le (fst x) (fst y)) eqn:E.
      * rewrite (str_le_trans _ _ _ E Eyz) in Exz. discriminate.
      * rewrite Exz. reflexivity.
    + rewrite Exz.
      destruct (str_le (fst y) (fst x)) eqn:E.
      * rewrite (str_le_trans _ _ _ E Exz) in Eyz. discriminate.
      * rewrite Eyz. reflexivity.
    + rewrite Eyz, Exz, IH. reflexivity.
Qed.

(** Items with distinct keys are put in one order, whatever order they
    come in. *)
Lemma sort_items_permutation l l' :
  NoDup (map fst l) -> Permutation l l' -> Json.sort_items l = Json.sort_items l'.
Proof.
  intros Hnodup Hperm. induction Hperm as [|x l l' Hperm IH|x y l|l l' l'' H1 IH1 H2 IH2].
  - reflexivity.
  - simpl. rewrite IH; [reflexivity|]. inversion Hnodup; assumption.
  - simpl. apply insert_item_comm.
    inversion Hnodup as [|? ? Hnotin _]; subst. intros Heq. apply Hnotin.
    rewrite Heq. constructor.
  - rewrite IH1 by assumption. apply IH2.
    rewrite <- (Permutation_map fst H1). exact Hnodup.
Qed.

Lemma insert_item_permutation x l : Permutation (Json.insert_item x l) (x :: l).
Proof.
  induction l as [|y l IH]; simpl; [reflexivity|].
  destruct (str_le (fst x) (fst y)); [reflexivity|].
  rewrite IH. apply perm_swap.
Qed.

Lemma sort_items_permuted l : Permutation (Json.sort_items l) l.
Proof.
  induction l as [|x l IH]; simpl; [reflexivity|].
  rewrite insert_item_permutation, IH. reflexivity.
Qed.

Lemma insert_item_sorted x l :
  Sorted key_le l -> Sorted key_le (Json.insert_item x l).
Proof.
  induction l as [|y l IH]; simpl; intros Hsorted.
  - repeat constructor.
  - destruct (str_le (fst x) (fst y)) eqn:E.
    + constructor; [assumption|]. constructor. exact E.
    + inversion Hsorted as [|? ? Hl Hhd]; subst.
      constructor; [apply IH, Hl|].
      assert (Hyx : key_le y x).
      { unfold key_le. destruct (str_le_total (fst x) (fst y)); congruence. }
      destruct l as [|z l]; simpl.
      * constructor. exact Hyx.
      * destruct (str_le (fst x) (fst z)); constructor; [exact Hyx|].
        inversion Hhd; assumption.
Qed.

Lemma sort_items_sorted l : Sorted key_le (Json.sort_items l).
Proof.
  induction l as [|x l IH]; simpl; [constructor|].
  apply insert_item_sorted, IH.
Qed.

End KeyOrder.

(** Sorting looks at keys only: it commutes with a map over the values. *)
Lemma sort_items_map {A B} (g : A -> B) (l : list (pystr * A)) :
  Json.sort_items (map (fun kv => (fst kv, g (snd kv))) l)
  = map (fun kv => (fst kv, g (snd kv))) (Json.sort_items l).
Proof.
  induction l as [|x l IH]; simpl; [reflexivity|]. rewrite IH.
  generalize (Json.sort_items l). intros sorted.
  induction sorted as [|y sorted IHs]; simpl; [reflexivity|].
  destruct (str_le (fst x) (fst y)); simpl; [reflexivity|].
  rewrite IHs. reflexivity.
Qed.

(** ** The fingerprint of an event *)

Section Fingerprint.
Import DataCleaner Texts.
Local Open Scope string_scope.

Lemma has_float_mark_app (a b : string) :
  has_float_mark (a ++ b) = (has_float_mark a || has_float_mark b)%bool.
Proof.
  induction a as [|c a IH]; simpl; [reflexivity|].
  rewrite IH, orb_assoc. reflexivity.
Qed.

Lemma uint_has_no_float_mark (d : Decimal.uint) :
  has_float_mark (NilEmpty.string_of_uint d) = false.
Proof. induction d; simpl; auto. Qed.

Lemma int_repr_has_no_float_mark (z : Z) : has_float_mark (Json.int_repr z) = false.
Proof.
  unfold Json.int_repr, NilZero.string_of_int, NilZero.string_of_uint.
  destruct (Z.to_int z) as [d|d]; destruct d; simpl;
    try reflexivity; apply uint_has_no_float_mark.
Qed.

Lemma encode_float_has_float_mark (f : pyfloat) :
  has_float_mark (Json.encode_float f) = true.
Proof.
  destruct f as [neg d more decpt|neg|]; [|destruct neg; reflexivity|reflexivity].
  unfold Json.encode_float, Json.float_repr.
  assert (Hbody : forall body, has_float_mark body = true ->
            has_float_mark (if neg then String "-" body else body) = true).
  { intros body H. destruct neg; simpl; assumption. }
  apply Hbody.
  destruct ((decpt <=? -4) || (16 <? decpt))%Z.
  - destruct more; simpl; rewrite ?has_float_mark_app; simpl;
      rewrite ?orb_true_r; reflexivity.
  - destruct (decpt <=? 0)%Z; [reflexivity|].
    destruct (Z.of_nat (length (d :: more)) <=? decpt)%Z;
      rewrite !has_float_mark_app; simpl; rewrite ?orb_true_r; reflexivity.
Qed.

(** An [int] and a [float] are never written alike. *)
Lemma int_repr_is_not_float (z : Z) (f : pyfloat) :
  Json.int_repr z <> Json.encode_float f.
Proof.
  intros Heq. apply (f_equal has_float_mark) in Heq.
  rewrite int_repr_has_no_float_mark, encode_float_has_float_mark in Heq.
  discriminate.
Qed.

(** Texts cancel on both sides of a concatenation. *)
Lemma text_app (a b : string) :
  list_ascii_of_string (a ++ b)
  = (list_ascii_of_string a ++ list_ascii_of_string b)%list.
Proof. induction a as [|c a IH]; simpl; [reflexivity | rewrite IH; reflexivity]. Qed.

Lemma text_inj (a b : string) :
  list_ascii_of_string a = list_ascii_of_string b -> a = b.
Proof.
  intros H. rewrite <- (string_of_list_ascii_of_string a),
    <- (string_of_list_ascii_of_string b), H. reflexivity.
Qed.

Lemma text_app_inv_head (a x y : string) : a ++ x = a ++ y -> x = y.
Proof.
  intros H. apply text_inj. apply (f_equal list_ascii_of_string) in H.
  rewrite !text_app in H. exact (app_inv_head _ _ _ H).
Qed.

Lemma text_app_inv_tail (x y r : string) : x ++ r = y ++ r -> x = y.
Proof.
  intros H. apply text_inj. apply (f_equal list_ascii_of_string) in H.
  rewrite !text_app in H. exact (app_inv_tail _ _ _ H).
Qed.

Lemma insert_item_same_texts x l :
  same_texts x -> Forall same_texts l -> Forall same_texts (Json.insert_item x l).
Proof.
  intros Hx Hl. induction Hl as [|y l Hy Hl IH]; simpl.
  - repeat constructor. exact Hx.
  - destruct (str_le (fst x) (fst y)); repeat constructor; assumption.
Qed.

Lemma sort_items_same_texts l :
  Forall same_texts l -> Forall same_texts (Json.sort_items l).
Proof.
  induction 1 as [|x l Hx Hl IH]; simpl; [constructor|].
  apply insert_item_same_texts; assumption.
Qed.

Lemma insert_item_differs x l :
  int_and_float x -> Forall same_texts l -> one_differs (Json.insert_item x l).
Proof.
  intros Hx Hl. induction Hl as [|y l Hy Hl IH]; simpl.
  - apply differs_here; [exact Hx | constructor].
  - destruct (str_le (fst x) (fst y)).
    + apply differs_here; [exact Hx | constructor; assumption].
    + apply differs_later; assumption.
Qed.

Lemma insert_item_one_differs x l :
  same_texts x -> one_differs l -> one_differs (Json.insert_item x l).
Proof.
  intros Hx Hl. induction Hl as [y l Hy Hl|y l Hy Hl IH]; simpl.
  - destruct (str_le (fst x) (fst y)).
    + apply differs_later; [exact Hx|]. apply differs_here; assumption.
    + apply differs_here; [exact Hy|]. apply insert_item_same_texts; assumption.
  - destruct (str_le (fst x) (fst y)).
    + apply differs_later; [exact Hx|]. apply differs_later; assumption.
    + apply differs_later; assumption.
Qed.

Lemma sort_items_one_differs before x after :
  Forall same_texts before -> int_and_float x -> Forall same_texts after ->
  one_differs (Json.sort_items (before ++ x :: after)%list).
Proof.
  intros Hbefore Hx Hafter. induction Hbefore as [|y before Hy Hbefore IH]; simpl.
  - apply insert_item_differs; [exact Hx|]. apply sort_items_same_texts, Hafter.
  - apply insert_item_one_differs; assumption.
Qed.

Lemma same_texts_joined l :
  Forall same_texts l -> first_texts l = second_texts l.
Proof.
  induction 1 as [|x l Hx Hl IH]; [reflexivity|].
  unfold first_texts, second_texts in *. simpl. rewrite IH, Hx. reflexivity.
Qed.

Lemma one_differs_joined sep l :
  one_differs l ->
  Json.join sep (first_texts l) <> Json.join sep (second_texts l).
Proof.
  induction 1 as [x rest (z & f & Hx) Hrest|x rest Hx Hrest IH].
  - assert (Htail : forall texts a b,
               a ++ match texts with [] => EmptyString | _ => sep ++ Json.join sep texts end
               = b ++ match texts with [] => EmptyString | _ => sep ++ Json.join sep texts end ->
               a = b) by (intros texts a b; apply text_app_inv_tail).
    assert (Hjoin : forall p texts,
               Json.join sep (p :: texts)
               = p ++ match texts with [] => EmptyString | _ => sep ++ Json.join sep texts end).
    { intros p [|q texts]; simpl; [|reflexivity].
      apply text_inj. rewrite text_app. simpl. rewrite app_nil_r. reflexivity. }
    unfold first_texts, second_texts. cbn [map].
    fold (first_texts rest). fold (second_texts rest).
    rewrite (same_texts_joined rest Hrest), !Hjoin. intros Heq.
    apply Htail in Heq. rewrite Hx in Heq. cbn [fst snd] in Heq.
    apply text_app_inv_head, text_app_inv_head in Heq.
    exact (int_repr_is_not_float z f Heq).
  - unfold first_texts, second_texts in *. cbn [map].
    destruct rest as [|y rest]; [inversion Hrest|].
    cbn [Json.join map] in *. unfold same_texts in Hx. rewrite Hx.
    intros Heq. apply text_app_inv_head, text_app_inv_head in Heq.
    exact (IH Heq).
Qed.

(** A payload with an [int] in a field and the same payload with a
    [float] in its place are given to the hash as different texts. *)
Lemma int_and_float_payloads_differ (before after : list (pystr * value))
    (key : pystr) (z : Z) (f : pyfloat) :
  Json.dumps None true (VDict (before ++ (key, VInt z) :: after)%list)
  <> Json.dumps None true (VDict (before ++ (key, VFloat f) :: after)%list).
Proof.
  set (both := fun kv : pystr * value =>
         (fst kv, (Json.encode None true 1 (snd kv), Json.encode None true 1 (snd kv)))).
  set (paired := (map both before
                  ++ (key, (Json.int_repr z, Json.encode_float f))
                  :: map both after)%list).
  assert (Hsame : forall l, Forall same_texts (map both l)).
  { intros l. apply Forall_forall. intros x Hin.
    apply list_elem_of_In, in_map_iff in Hin as (kv & <- & _). reflexivity. }
  assert (Hone : one_differs (Json.sort_items paired)).
  { apply sort_items_one_differs; [apply Hsame | | apply Hsame].
    exists z, f. reflexivity. }
  assert (Hfirst : forall l l' v,
             map (fun kv => (fst kv, Json.encode None true 1 (snd kv)))
                 (l ++ (key, v) :: l')%list
             = map (fun kr : pystr * (string * string) => (fst kr, fst (snd kr)))
                 (map both l ++ (key, (Json.encode None true 1 v, Json.encode_float f))
                  :: map both l')%list).
  { intros l l' v. rewrite !map_app. cbn [map fst snd]. rewrite !map_map. reflexivity. }
  assert (Hsecond : forall l l' v,
             map (fun kv => (fst kv, Json.encode None true 1 (snd kv)))
                 (l ++ (key, v) :: l')%list
             = map (fun kr : pystr * (string * string) => (fst kr, snd (snd kr)))
                 (map both l ++ (key, (Json.int_repr z, Json.encode None true 1 v))
                  :: map both l')%list).
  { intros l l' v. rewrite !map_app. cbn [map fst snd]. rewrite !map_map. reflexivity. }
  unfold Json.dumps. cbn [Json.encode].
  rewrite (Hfirst before after (VInt z)), (Hsecond before after (VFloat f)).
  cbn [Json.encode]. fold paired.
  rewrite (sort_items_map (fun r : string * string => fst r) paired).
  rewrite (sort_items_map (fun r : string * string => snd r) paired).
  rewrite !map_map. cbn [fst snd].
  fold (first_texts (Json.sort_items paired)).
  fold (second_texts (Json.sort_items paired)).
  pose proof (one_differs_joined ", " _ Hone) as Hjoined.
  unfold Json.bracket.
  destruct (Json.sort_items paired) as [|x sorted] eqn:E; [inversion Hone|].
  unfold first_texts, second_texts in *. cbn [map] in *.
  cbn [Json.newline_indent Json.item_separator].
  change (", " ++ EmptyString) with ", ".
  intros Heq. apply Hjoined.
  apply text_app_inv_head, text_app_inv_head, text_app_inv_tail in Heq.
  exact Heq.
Qed.

(** C6. Two payloads with the same fields and values, listed in a
    different order, have the same fingerprint. *)
Theorem fingerprint_field_order (items items' : list (pystr * value)) :
  dict_wf items ->
  Permutation items items' ->
  calc_sha256 (VDict items) = calc_sha256 (VDict items').
Proof.
  intros Hwf Hperm. unfold calc_sha256, Json.dumps. cbn [Json.encode].
  rewrite (sort_items_permutation
             (map (fun kv => (fst kv, Json.encode None true 1 (snd kv))) items)
             (map (fun kv => (fst kv, Json.encode None true 1 (snd kv))) items')).
  - reflexivity.
  - rewrite map_map. exact Hwf.
  - apply Permutation_map, Hperm.
Qed.

Lemma fingerprint_field_order_witness :
  let items :=
    [(str "temp", VFloat (Finite false 3 [5%N] 1));
     (str "hum", VInt 80);
     (str "ts", VStr (str "2025-07-31T01:56:14Z"));
     (str "location", VStr (str "Beijing"));
     (str "productName", VStr (str "Beef"))] in
  let items' :=
    [(str "productName", VStr (str "Beef"));
     (str "location", VStr (str "Beijing"));
     (str "ts", VStr (str "2025-07-31T01:56:14Z"));
     (str "hum", VInt 80);
     (str "temp", VFloat (Finite false 3 [5%N] 1))] in
  dict_wf items
  /\ Permutation items items'
  /\ calc_sha256 (VDict items) = calc_sha256 (VDict items').
Proof.
  intros items items'.
  assert (Hwf : dict_wf items)
    by (apply (bool_decide_unpack _); vm_compute; exact I).
  assert (Hperm : Permutation items items') by apply (Permutation_rev items).
  exact (conj Hwf (conj Hperm (fingerprint_field_order items items' Hwf Hperm))).
Defined.

(** The claim C2 says that the fingerprint is taken over scaled integers,
    so that 1 and 1.0 hash alike: the two events below are valid and
    differ only in [temp], the int 1 in one and the float 1.0 in the
    other, and their fingerprints differ. *)
Lemma equal_readings_hash_apart :
  let payload temp :=
    [(str "temp", temp);
     (str "hum", VFloat (Finite false 7 [5%N; 5%N] 2));
     (str "ts", VStr (str "2025-07-31T01:56:14Z"));
     (str "location", VStr (str "Beijing"));
     (str "productName", VStr (str "Beef"))] in
  let event temp :=
    Message (str "coldchain/batch321/sensor") 1 (Returned (VDict (payload temp))) in
  let one := VInt 1 in
  let one_point_zero := VFloat (Finite false 1 [] 1) in
  (exists record, valid_event (event one) (str "batch321") record)
  /\ (exists record, valid_event (event one_point_zero) (str "batch321") record)
  /\ same_number one one_point_zero = true
  /\ calc_sha256 (VDict (payload one)) <> calc_sha256 (VDict (payload one_point_zero)).
Proof.
  intros payload event one one_point_zero. repeat split.
  - eexists. eapply (Valid_event _ _ _ (payload one)); reflexivity.
  - eexists. eapply (Valid_event _ _ _ (payload one_point_zero)); reflexivity.
  - intros Heq. vm_compute in Heq. discriminate Heq.
Qed.

(** C2, amended. The fingerprint of a payload is the SHA-256 digest of
    its JSON text with the fields in key order, each value written as
    it was decoded: an [int] in decimal and a [float] by its [repr],
    with no scaling, and the timestamp as the value it is. An [int] and
    a [float] are never written alike, so a payload with an [int] in a
    field and the same payload with a [float] in its place (1 and 1.0)
    are given to the hash as different texts. *)
Theorem fingerprint_encoding (items : list (pystr * value)) :
  (exists ordered : list (pystr * value),
      Permutation ordered items
      /\ Sorted key_le ordered
      /\ calc_sha256 (VDict items)
         = SHA256.hexdigest (ascii_bytes
             (Json.bracket None 0 "{" "}"
                (map (fun kv => Json.encode_str (fst kv) ++ ": "
                                ++ Json.encode None true 1 (snd kv)) ordered))))
  /\ (forall level z, Json.encode None true level (VInt z) = Json.int_repr z)
  /\ (forall level f, Json.encode None true level (VFloat f) = Json.encode_float f)
  /\ (forall z f, Json.int_repr z <> Json.encode_float f)
  /\ (forall (before after : list (pystr * value)) (key : pystr) (z : Z) (f : pyfloat),
        Json.dumps None true (VDict (before ++ (key, VInt z) :: after)%list)
        <> Json.dumps None true (VDict (before ++ (key, VFloat f) :: after)%list)).
Proof.
  split; [|split; [reflexivity | split; [reflexivity |
    split; [apply int_repr_is_not_float | apply int_and_float_payloads_differ]]]].
  exists (Json.sort_items items).
  split; [apply sort_items_permuted | split; [apply sort_items_sorted|]].
  unfold calc_sha256, Json.dumps. cbn [Json.encode].
  rewrite (sort_items_map (Json.encode None true 1)), map_map. reflexivity.
Qed.

End Fingerprint.

(** ** The message handler *)

Section Handler.
Import DataCleaner.

Arguments str : simpl never.
Arguments calc_sha256 : simpl never.
Arguments Json.dumps : simpl never.

(** [batch_cache[batch_id].append(record)]. *)
Lemma append_spec {A} (batch_id : pystr) (record : value)
    (rest : unit -> prog A) (w : world) :
  (records ← cache_getitem batch_id;
   cache_setitem batch_id (records ++ [record]) ≫= rest) w
  = rest tt
      (World (<[batch_id := cached w batch_id ++ [record]]> (batch_cache w))
             (files w) (channel w)).
Proof.
  unfold mbind, prog_bind, cache_getitem, cache_setitem, cached.
  destruct (batch_cache w !! batch_id) as [records|] eqn:E; cbn.
  - reflexivity.
  - rewrite insert_insert_eq. reflexivity.
Qed.

(** [try_flush_batch] on a key that is entered. *)
Lemma try_flush_batch_spec (timestamp : pystr) (disk : disk_reply)
    (batch_id : pystr) (w : world) (records : list value) :
  batch_cache w !! batch_id = Some records ->
  try_flush_batch timestamp disk batch_id w
  = if (MAX_PER_BATCH <=? length records)%nat then
      match disk with
      | Written =>
          (Returned tt,
           World (<[batch_id := []]> (batch_cache w))
                 (<[artifact_path batch_id timestamp := artifact_text records]>
                    (files w))
                 (channel w))
      | Refused e => (Raised e, w)
      | Broken e kept =>
          (Raised e,
           World (batch_cache w)
                 (<[artifact_path batch_id timestamp
                    := substring 0 kept (artifact_text records)]> (files w))
                 (channel w))
      end
    else (Returned tt, w).
Proof.
  intros E. unfold try_flush_batch, mbind, prog_bind.
  unfold cache_getitem at 1. rewrite E.
  destruct (MAX_PER_BATCH <=? length records)%nat; [|reflexivity].
  unfold write_file, cache_getitem, cache_setitem.
  destruct disk; cbn; [rewrite E|..]; reflexivity.
Qed.

(** A valid event is added to its batch and acknowledged. *)
Lemma on_message_valid (timestamp : pystr) (disk : disk_reply) (m : message)
    (w : world) (batch_id : pystr) (record : value) :
  valid_event m batch_id record ->
  on_message timestamp disk m w
  = accept timestamp disk batch_id record (delivery_tag m) w.
Proof.
  intros [items ts temp hum location productName
          Hbody Hkey Htemp Htempn Hhum Hhumn Hts Hloc Hpn ->].
  unfold on_message, try_except, on_message_body.
  unfold mbind at 1 2 3, prog_bind at 1 2 3, lift, get, list_getitem.
  rewrite Hbody, Hkey, Htemp. cbn [default from_option id]. rewrite Htempn.
  cbn [negb]. unfold mbind at 1, prog_bind at 1. rewrite Hhum.
  cbn [default from_option id]. rewrite Hhumn. cbn [negb].
  unfold mbind at 1 2 3 4 5, prog_bind at 1 2 3 4 5, getitem.
  rewrite Hts, Htemp, Hhum, Hloc, Hpn.
  fold (record_of batch_id items ts temp hum location productName).
  set (record := record_of _ _ _ _ _ _ _).
  rewrite append_spec. unfold mbind at 1, prog_bind at 1.
  erewrite try_flush_batch_spec by apply lookup_insert_eq.
  unfold accept. cbn [batch_cache files channel].
  destruct (MAX_PER_BATCH <=? length (cached w batch_id ++ [record]))%nat;
    [destruct disk|]; cbn; rewrite ?insert_insert_eq; reflexivity.
Qed.

(** A delivery that is not a valid event changes nothing but the
    channel, on which it is answered. *)
Lemma on_message_cases (timestamp : pystr) (disk : disk_reply) (m : message)
    (w : world) :
  (exists batch_id record, valid_event m batch_id record)
  \/ (exists r : reply,
        on_message timestamp disk m w
        = World (batch_cache w) (files w) (channel w ++ [r])).
Proof.
  unfold on_message, try_except, on_message_body.
  unfold mbind at 1 2 3, prog_bind at 1 2 3, lift, list_getitem.
  destruct (loads_body m) as [payload|e] eqn:Hbody; [|right; eexists; reflexivity].
  destruct (split slash (routing_key m) !! 1%nat) as [batch_id|] eqn:Hkey;
    [|right; eexists; reflexivity].
  destruct payload as [| | | | | |items]; try (right; eexists; reflexivity).
  unfold get.
  destruct (dict_lookup (str "temp") items) as [temp|] eqn:Htemp;
    [|right; eexists; reflexivity].
  cbn [default from_option id].
  destruct (is_int_or_float temp) eqn:Htempn; [|right; eexists; reflexivity].
  cbn [negb]. unfold mbind at 1, prog_bind at 1.
  destruct (dict_lookup (str "hum") items) as [hum|] eqn:Hhum;
    [|right; eexists; reflexivity].
  cbn [default from_option id].
  destruct (is_int_or_float hum) eqn:Hhumn; [|right; eexists; reflexivity].
  cbn [negb]. unfold mbind at 1 2 3 4 5, prog_bind at 1 2 3 4 5, getitem.
  destruct (dict_lookup (str "ts") items) as [ts|] eqn:Hts;
    [|right; eexists; reflexivity].
  rewrite Htemp, Hhum.
  destruct (dict_lookup (str "location") items) as [location|] eqn:Hloc;
    [|right; eexists; reflexivity].
  destruct (dict_lookup (str "productName") items) as [productName|] eqn:Hpn;
    [|right; eexists; reflexivity].
  left. exists batch_id, (record_of batch_id items ts temp hum location productName).
  econstructor; eauto.
Qed.

(** The records of the key after a valid event: emptied by a flush
    that returns, kept with the new record otherwise. *)
Lemma cached_accept (timestamp : pystr) (disk : disk_reply) (batch_id : pystr)
    (record : value) (tag : N) (w : world) :
  cached (accept timestamp disk batch_id record tag w) batch_id
  = if (MAX_PER_BATCH <=? length (cached w batch_id ++ [record]))%nat
    then match disk with
         | Written => []
         | _ => cached w batch_id ++ [record]
         end
    else cached w batch_id ++ [record].
Proof.
  unfold accept.
  destruct (MAX_PER_BATCH <=? length (cached w batch_id ++ [record]))%nat;
    [destruct disk|];
    unfold cached at 1; cbn [batch_cache]; rewrite lookup_insert_eq; reflexivity.
Qed.

Lemma cached_accept_other (timestamp : pystr) (disk : disk_reply)
    (batch_id other : pystr) (record : value) (tag : N) (w : world) :
  batch_id <> other ->
  cached (accept timestamp disk batch_id record tag w) other = cached w other.
Proof.
  intros Hne. unfold accept.
  destruct (MAX_PER_BATCH <=? length (cached w batch_id ++ [record]))%nat;
    [destruct disk|];
    unfold cached; cbn [batch_cache]; rewrite lookup_insert_ne by exact Hne;
    reflexivity.
Qed.

(** The files after a valid event. *)
Lemma files_accept (timestamp : pystr) (disk : disk_reply) (batch_id : pystr)
    (record : value) (tag : N) (w : world) :
  files (accept timestamp disk batch_id record tag w)
  = if (MAX_PER_BATCH <=? length (cached w batch_id ++ [record]))%nat
    then match disk with
         | Written =>
             <[artifact_path batch_id timestamp
               := artifact_text (cached w batch_id ++ [record])]> (files w)
         | Refused e => files w
         | Broken e kept =>
             <[artifact_path batch_id timestamp
               := substring 0 kept (artifact_text (cached w batch_id ++ [record]))]>
               (files w)
         end
    else files w.
Proof.
  unfold accept.
  destruct (MAX_PER_BATCH <=? length (cached w batch_id ++ [record]))%nat;
    [destruct disk|]; reflexivity.
Qed.

(** The answer to a valid event. *)
Lemma channel_accept (timestamp : pystr) (disk : disk_reply) (batch_id : pystr)
    (record : value) (tag : N) (w : world) :
  channel (accept timestamp disk batch_id record tag w)
  = channel w
    ++ [if (MAX_PER_BATCH <=? length (cached w batch_id ++ [record]))%nat
        then match disk with
             | Written => basic_ack tag
             | _ => basic_nack tag false
             end
        else basic_ack tag].
Proof.
  unfold accept.
  destruct (MAX_PER_BATCH <=? length (cached w batch_id ++ [record]))%nat;
    [destruct disk|]; reflexivity.
Qed.

(** A delivery that is not a valid event for a key leaves the records of
    that key as they are. *)
Lemma cached_on_message_other (timestamp : pystr) (disk : disk_reply)
    (m : message) (w : world) (batch_id : pystr) :
  ~ (exists record, valid_event m batch_id record) ->
  cached (on_message timestamp disk m w) batch_id = cached w batch_id.
Proof.
  intros Hnot.
  destruct (on_message_cases timestamp disk m w) as [(b & r & Hvalid)|(r & ->)];
    [|reflexivity].
  rewrite (on_message_valid _ _ _ _ _ _ Hvalid).
  apply cached_accept_other. intros ->. apply Hnot. exists r. exact Hvalid.
Qed.

(** Below the threshold, the records of a key are those of its valid
    events, in order of arrival. *)
Lemma cached_run (batch_id : pystr)
    (deliveries : list (pystr * disk_reply * message))
    (records : list value) (w : world) :
  arrivals batch_id deliveries records ->
  (length (cached w batch_id) + length records < MAX_PER_BATCH)%nat ->
  cached (run deliveries w) batch_id = cached w batch_id ++ records.
Proof.
  intros Harr. revert w.
  induction Harr as [|t d m r ds rs Hvalid Harr IH|t d m ds rs Hnot Harr IH];
    intros w Hlen; cbn [run fold_left fst snd].
  - rewrite app_nil_r. reflexivity.
  - cbn [length] in Hlen. fold (run ds (on_message t d m w)).
    assert (Hstep : cached (on_message t d m w) batch_id = cached w batch_id ++ [r]).
    { rewrite (on_message_valid _ _ _ _ _ _ Hvalid), cached_accept.
      destruct (Nat.leb_spec MAX_PER_BATCH (length (cached w batch_id ++ [r])));
        [|reflexivity].
      rewrite length_app in *. cbn [length] in *. lia. }
    rewrite IH; rewrite Hstep.
    + rewrite <- app_assoc. reflexivity.
    + rewrite length_app. cbn [length]. lia.
  - fold (run ds (on_message t d m w)).
    rewrite IH; rewrite (cached_on_message_other _ _ _ _ _ Hnot);
      [reflexivity | exact Hlen].
Qed.

(** A delivery whose write succeeds keeps every open batch below the
    threshold. *)
Lemma below_threshold_on_message (timestamp : pystr) (m : message) (w : world) :
  below_threshold w -> below_threshold (on_message timestamp Written m w).
Proof.
  intros Hw.
  destruct (on_message_cases timestamp Written m w) as [(b & r & Hvalid)|(r & ->)];
    [|exact Hw].
  rewrite (on_message_valid _ _ _ _ _ _ Hvalid).
  intros b' records Hlookup.
  destruct (decide (b = b')) as [<-|Hne].
  - pose proof (cached_accept timestamp Written b r (delivery_tag m) w) as Hc.
    unfold cached at 1 in Hc. rewrite Hlookup in Hc.
    cbn [default from_option id] in Hc. subst records.
    destruct (Nat.leb_spec MAX_PER_BATCH (length (cached w b ++ [r])));
      [unfold MAX_PER_BATCH; cbn [length]; lia | assumption].
  - apply (Hw b'). rewrite <- Hlookup. unfold accept.
    destruct (MAX_PER_BATCH <=? length (cached w b ++ [r]))%nat;
      cbn [batch_cache]; rewrite lookup_insert_ne by exact Hne; reflexivity.
Qed.

Lemma cached_initial_world (batch_id : pystr) : cached initial_world batch_id = [].
Proof. unfold cached, initial_world. cbn [batch_cache]. rewrite lookup_empty. reflexivity. Qed.

(** The claim C3 says that the fourth valid event of a key seals its
    batch, whatever the key. With the key of 234 characters the name of
    the file has 256, and [open] raises [OSError]: the fourth valid event
    is answered with [basic_nack], no file is written and the four
    records stay in the cache; the fifth finds them there and makes
    five. *)
Lemma refused_write_seals_nothing :
  let key := Sample.long_key in
  let event := fun n : Z => Sample.long_event (VInt n) in
  let record := fun n : Z => Sample.long_record (VInt n) in
  let w := run [(Sample.clock, Written, event 1); (Sample.clock, Written, event 2);
                (Sample.clock, Written, event 3)] initial_world in
  let w' := on_message Sample.clock (Refused OSError) (event 4) w in
  let w'' := on_message Sample.clock (Refused OSError) (event 5) w' in
  length (key ++ str "_" ++ Sample.clock ++ str ".json") = 256%nat
  /\ valid_event (event 4) key (record 4)
  /\ valid_event (event 5) key (record 5)
  /\ cached w key = [record 1; record 2; record 3]
  /\ files w = ∅
  /\ files w' = ∅
  /\ cached w' key = [record 1; record 2; record 3; record 4]
  /\ channel w' = channel w ++ [basic_nack 1 false]
  /\ files w'' = ∅
  /\ cached w'' key = [record 1; record 2; record 3; record 4; record 5].
Proof.
  intros key event record w w'.
  assert (Hvalid : forall n, valid_event (event n) key (record n)).
  { intros n. apply (Valid_event _ _ _ (Sample.reading (VInt n)) Sample.ts (VInt n)
                       Sample.hum Sample.location Sample.productName);
      reflexivity. }
  assert (Hw : cached w key = [record 1; record 2; record 3]).
  { unfold w. rewrite (cached_run key _ [record 1; record 2; record 3]).
    - rewrite cached_initial_world. reflexivity.
    - repeat (apply arrivals_valid; [apply Hvalid|]). apply arrivals_nil.
    - rewrite cached_initial_world. unfold MAX_PER_BATCH. cbn [length]. lia. }
  assert (Hfiles : files w = ∅).
  { unfold w, run. cbn [fold_left fst snd].
    rewrite !(on_message_valid _ _ _ _ _ _ (Hvalid _)), !files_accept, !cached_accept.
    reflexivity. }
  cbv zeta. unfold w'.
  rewrite !(on_message_valid _ _ _ _ _ _ (Hvalid _)).
  rewrite !files_accept, !cached_accept, !channel_accept, Hw, Hfiles.
  repeat split; try apply Hvalid.
Qed.

(** C3, amended. A valid event is a delivery that the handler accepts:
    the body is a JSON object, the routing key has a second piece, [temp]
    and [hum] are numbers, and [ts], [location] and [productName] are
    there. With the threshold at four, after the valid events of a key
    have left [records] in its open batch (deliveries for other keys and
    rejected ones may lie in between), the next valid event for the key
    touches no file while fewer than four records are reached. The one
    that makes four, when the write of the file succeeds, writes one
    file, holding the four records in order of arrival, and empties the
    entry, so that the next valid event for the key starts from an empty
    list and touches no file; when the write raises, nothing is sealed
    and the entry keeps the four records. *)
Theorem threshold_seals_once (batch_id : pystr) (w0 : world)
    (earlier : list (pystr * disk_reply * message)) (records : list value)
    (timestamp : pystr) (disk : disk_reply) (m : message) (record : value) :
  cached w0 batch_id = [] ->
  arrivals batch_id earlier records ->
  valid_event m batch_id record ->
  let w := run earlier w0 in
  let w' := on_message timestamp disk m w in
  ((length records + 1 < MAX_PER_BATCH)%nat ->
     files w' = files w /\ cached w' batch_id = records ++ [record])
  /\ ((length records + 1 = MAX_PER_BATCH)%nat ->
        (disk = Written ->
           files w' = <[artifact_path batch_id timestamp
                        := artifact_text (records ++ [record])]> (files w)
           /\ cached w' batch_id = []
           /\ forall (later : list (pystr * disk_reply * message))
                 (timestamp' : pystr) (disk' : disk_reply)
                 (m' : message) (record' : value),
                arrivals batch_id later [] ->
                valid_event m' batch_id record' ->
                let w'' := on_message timestamp' disk' m' (run later w') in
                files w'' = files (run later w') /\ cached w'' batch_id = [record'])
        /\ (disk <> Written -> cached w' batch_id = records ++ [record])).
Proof.
  intros Hempty Harr Hvalid w w'.
  assert (Hw : (length records < MAX_PER_BATCH)%nat -> cached w batch_id = records).
  { intros Hlen. unfold w. rewrite (cached_run _ _ _ _ Harr); rewrite Hempty.
    - reflexivity.
    - cbn [length]. lia. }
  unfold w'. rewrite (on_message_valid _ _ _ _ _ _ Hvalid).
  rewrite cached_accept, files_accept. split.
  - intros Hlen. rewrite Hw by lia.
    destruct (Nat.leb_spec MAX_PER_BATCH (length (records ++ [record])));
      [rewrite length_app in *; cbn [length] in *; lia | auto].
  - intros Hlen. rewrite Hw by lia.
    destruct (Nat.leb_spec MAX_PER_BATCH (length (records ++ [record])));
      [|rewrite length_app in *; cbn [length] in *; lia].
    split; [|destruct disk; [congruence | reflexivity | reflexivity]].
    intros ->. split; [reflexivity | split; [reflexivity|]].
    intros later t' d' m' r' Hlater Hvalid'.
    set (w1 := accept timestamp Written batch_id record (delivery_tag m) w).
    assert (Hw1 : cached w1 batch_id = []).
    { unfold w1. rewrite cached_accept, Hw by lia.
      destruct (Nat.leb_spec MAX_PER_BATCH (length (records ++ [record])));
        [reflexivity | lia]. }
    assert (Hrun : cached (run later w1) batch_id = []).
    { rewrite (cached_run _ _ _ _ Hlater); rewrite Hw1;
        [reflexivity | unfold MAX_PER_BATCH; cbn; lia]. }
    rewrite (on_message_valid _ _ _ _ _ _ Hvalid').
    rewrite cached_accept, files_accept, Hrun. auto.
Qed.

Lemma threshold_seals_once_witness :
  let batch_id := str "batch321" in
  let one := VFloat (Finite false 1 [] 1) in
  let two := VFloat (Finite false 2 [] 1) in
  let three_and_a_half := VFloat (Finite false 3 [5%N] 1) in
  let four := VFloat (Finite false 4 [] 1) in
  let earlier :=
    [(Sample.clock, Written, Sample.event one);
     (Sample.clock, Written, Sample.without_hum);
     (Sample.clock, Refused OSError, Sample.event two);
     (Sample.clock, Written, Sample.elsewhere);
     (Sample.clock, Written, Sample.event three_and_a_half)] in
  let records :=
    [Sample.record one; Sample.record two; Sample.record three_and_a_half] in
  let w := run earlier initial_world in
  let w' := on_message Sample.clock Written (Sample.event four) w in
  cached initial_world batch_id = []
  /\ arrivals batch_id earlier records
  /\ valid_event (Sample.event four) batch_id (Sample.record four)
  /\ ((length records + 1 < MAX_PER_BATCH)%nat ->
        files w' = files w /\ cached w' batch_id = records ++ [Sample.record four])
  /\ ((length records + 1 = MAX_PER_BATCH)%nat ->
        (Written = Written ->
           files w' = <[artifact_path batch_id Sample.clock
                        := artifact_text (records ++ [Sample.record four])]> (files w)
           /\ cached w' batch_id = []
           /\ forall (later : list (pystr * disk_reply * message))
                 (timestamp' : pystr) (disk' : disk_reply)
                 (m' : message) (record' : value),
                arrivals batch_id later [] ->
                valid_event m' batch_id record' ->
                let w'' := on_message timestamp' disk' m' (run later w') in
                files w'' = files (run later w') /\ cached w'' batch_id = [record'])
        /\ (Written <> Written ->
            cached w' batch_id = records ++ [Sample.record four])).
Proof.
  intros batch_id one two three_and_a_half four earlier records w w'.
  assert (Hvalid : forall temp, is_int_or_float temp = true ->
            valid_event (Sample.event temp) batch_id (Sample.record temp)).
  { intros temp Htemp.
    apply (Valid_event _ _ _ (Sample.reading temp) Sample.ts temp Sample.hum
             Sample.location Sample.productName); try reflexivity. exact Htemp. }
  assert (Hempty : cached initial_world batch_id = []) by reflexivity.
  assert (Harr : arrivals batch_id earlier records).
  { apply arrivals_valid; [apply Hvalid; reflexivity|].
    apply arrivals_other.
    { intros [r [items ? ? hum ? ? Hbody _ _ _ Hhum]].
      injection Hbody as <-. vm_compute in Hhum. discriminate Hhum. }
    apply arrivals_valid; [apply Hvalid; reflexivity|].
    apply arrivals_other.
    { intros [r [items ? ? ? ? ? _ Hkey]].
      vm_compute in Hkey. discriminate Hkey. }
    apply arrivals_valid; [apply Hvalid; reflexivity|].
    apply arrivals_nil. }
  assert (Hfour : valid_event (Sample.event four) batch_id (Sample.record four))
    by (apply Hvalid; reflexivity).
  exact (conj Hempty (conj Harr (conj Hfour
           (threshold_seals_once batch_id initial_world earlier records
              Sample.clock Written (Sample.event four) (Sample.record four)
              Hempty Harr Hfour)))).
Defined.

(** The claim C10 says that no open batch is ever seen with four
    records. With the key of 234 characters [open] raises at the fourth
    valid event, the list is not cleared, and the handler returns with
    four records in the entry of the key. *)
Lemma refused_write_leaves_full_batch :
  let event := fun n : Z => Sample.long_event (VInt n) in
  let deliveries :=
    [(Sample.clock, Written, event 1); (Sample.clock, Written, event 2);
     (Sample.clock, Written, event 3); (Sample.clock, Refused OSError, event 4)] in
  length (Sample.long_key ++ str "_" ++ Sample.clock ++ str ".json") = 256%nat
  /\ below_threshold initial_world
  /\ length (cached (run deliveries initial_world) Sample.long_key) = MAX_PER_BATCH
  /\ ~ below_threshold (run deliveries initial_world).
Proof.
  intros event deliveries.
  assert (Hvalid : forall n, valid_event (event n) Sample.long_key
                               (Sample.long_record (VInt n))).
  { intros n. apply (Valid_event _ _ _ (Sample.reading (VInt n)) Sample.ts (VInt n)
                       Sample.hum Sample.location Sample.productName);
      reflexivity. }
  assert (Hinit : below_threshold initial_world).
  { intros b records Hlookup. cbn [initial_world batch_cache] in Hlookup.
    rewrite lookup_empty in Hlookup. discriminate Hlookup. }
  assert (Hfull : length (cached (run deliveries initial_world) Sample.long_key)
                  = MAX_PER_BATCH).
  { change (run deliveries initial_world)
      with (on_message Sample.clock (Refused OSError) (event 4)
              (run [(Sample.clock, Written, event 1); (Sample.clock, Written, event 2);
                    (Sample.clock, Written, event 3)] initial_world)).
    rewrite (on_message_valid _ _ _ _ _ _ (Hvalid 4)), cached_accept.
    rewrite (cached_run Sample.long_key _
               [Sample.long_record (VInt 1); Sample.long_record (VInt 2);
                Sample.long_record (VInt 3)]).
    - rewrite cached_initial_world. reflexivity.
    - repeat (apply arrivals_valid; [apply Hvalid|]). apply arrivals_nil.
    - rewrite cached_initial_world. unfold MAX_PER_BATCH. cbn [length]. lia. }
  split; [reflexivity | split; [exact Hinit | split; [exact Hfull|]]].
  intros Hbelow. unfold cached in Hfull.
  destruct (batch_cache (run deliveries initial_world) !! Sample.long_key)
    as [records|] eqn:E; cbn [default from_option id] in Hfull.
  - pose proof (Hbelow _ _ E). lia.
  - discriminate Hfull.
Qed.

(** C10, amended. As long as the writes succeed, whatever is delivered,
    in any order and at any time, every open batch stays below four
    records: from a world in which that holds, every run of the handler
    whose writes succeed ends in one in which it holds. *)
Theorem batches_stay_below_threshold
    (deliveries : list (pystr * disk_reply * message)) (w : world) :
  writes_succeed deliveries ->
  below_threshold w -> below_threshold (run deliveries w).
Proof.
  revert w. induction deliveries as [|[[t d] m] ds IH]; intros w Hdisk Hw; [exact Hw|].
  apply Forall_cons in Hdisk as [Hd Hds]. cbn [fst snd] in Hd. subst d.
  cbn [run fold_left fst snd]. apply (IH _ Hds), below_threshold_on_message, Hw.
Qed.

Lemma batches_stay_below_threshold_witness :
  let deliveries :=
    [(Sample.clock, Written, Sample.event (VInt 1));
     (Sample.clock, Written, Sample.without_ts);
     (Sample.clock, Written, Sample.event (VInt 2));
     (Sample.clock, Written, Sample.event (VInt 3));
     (Sample.clock, Written, Sample.elsewhere);
     (Sample.clock, Written, Sample.event (VInt 4));
     (Sample.clock, Written, Sample.event (VInt 5))] in
  writes_succeed deliveries
  /\ below_threshold initial_world
  /\ below_threshold (run deliveries initial_world).
Proof.
  intros deliveries.
  assert (Hdisk : writes_succeed deliveries)
    by (repeat (constructor; [reflexivity|]); constructor).
  assert (Hinit : below_threshold initial_world).
  { intros b records Hlookup. cbn [initial_world batch_cache] in Hlookup.
    rewrite lookup_empty in Hlookup. discriminate Hlookup. }
  exact (conj Hdisk (conj Hinit
           (batches_stay_below_threshold deliveries initial_world Hdisk Hinit))).
Defined.

(** The claim C5 says that a delivery without [ts] is acknowledged:
    with [temp] and [hum] in order it is answered with a [basic_nack]
    instead, and nothing is kept of it. *)
Lemma missing_timestamp_is_nacked :
  numeric_field (str "temp") [(str "temp", VInt 2); (str "hum", Sample.hum);
      (str "location", Sample.location); (str "productName", Sample.productName)]
    = true
  /\ loads_body Sample.without_ts
     = Returned (VDict [(str "temp", VInt 2); (str "hum", Sample.hum);
         (str "location", Sample.location); (str "productName", Sample.productName)])
  /\ on_message Sample.clock Written Sample.without_ts initial_world
     = World ∅ ∅ [basic_nack 1 false].
Proof. repeat split. Qed.

(** C5, amended. Take a delivery whose body is a JSON object and whose
    routing key has a second piece. If [temp] or [hum] is missing or is
    not a number, it is acknowledged with [basic_ack]. If both are
    numbers and [ts] is missing, it is answered with [basic_nack]
    without requeue. Either way nothing is appended: the cache, with the
    records of every key, and the files are as before. *)
Theorem malformed_event_is_dropped (timestamp : pystr) (disk : disk_reply)
    (m : message) (w : world) (batch_id : pystr) (items : list (pystr * value)) :
  loads_body m = Returned (VDict items) ->
  split slash (routing_key m) !! 1%nat = Some batch_id ->
  (numeric_field (str "temp") items = false
   \/ numeric_field (str "hum") items = false ->
     on_message timestamp disk m w
     = World (batch_cache w) (files w) (channel w ++ [basic_ack (delivery_tag m)]))
  /\ (numeric_field (str "temp") items = true ->
      numeric_field (str "hum") items = true ->
      dict_lookup (str "ts") items = None ->
      on_message timestamp disk m w
      = World (batch_cache w) (files w)
              (channel w ++ [basic_nack (delivery_tag m) false])).
Proof.
  intros Hbody Hkey. unfold numeric_field.
  split; unfold on_message, try_except, on_message_body;
    unfold mbind at 1 2 3, prog_bind at 1 2 3, lift, list_getitem, get;
    rewrite Hbody, Hkey.
  - destruct (dict_lookup (str "temp") items) as [temp|]; cbn [default from_option id].
    + destruct (is_int_or_float temp); [|reflexivity]. cbn [negb].
      unfold mbind at 1, prog_bind at 1.
      destruct (dict_lookup (str "hum") items) as [hum|]; cbn [default from_option id].
      * destruct (is_int_or_float hum); [|reflexivity].
        intros [H|H]; discriminate H.
      * reflexivity.
    + reflexivity.
  - destruct (dict_lookup (str "temp") items) as [temp|]; [|discriminate].
    cbn [default from_option id]. intros ->. cbn [negb].
    unfold mbind at 1, prog_bind at 1.
    destruct (dict_lookup (str "hum") items) as [hum|]; [|discriminate].
    cbn [default from_option id]. intros ->. cbn [negb].
    unfold mbind at 1, prog_bind at 1, getitem. intros ->. reflexivity.
Qed.

Lemma malformed_event_is_dropped_witness :
  let batch_id := str "batch321" in
  let no_hum :=
    [(str "temp", VInt 2); (str "ts", Sample.ts);
     (str "location", Sample.location); (str "productName", Sample.productName)] in
  let no_ts :=
    [(str "temp", VInt 2); (str "hum", Sample.hum);
     (str "location", Sample.location); (str "productName", Sample.productName)] in
  let w := run [(Sample.clock, Written, Sample.event (VInt 1))] initial_world in
  (loads_body Sample.without_hum = Returned (VDict no_hum)
   /\ split slash (routing_key Sample.without_hum) !! 1%nat = Some batch_id
   /\ (numeric_field (str "temp") no_hum = false
       \/ numeric_field (str "hum") no_hum = false)
   /\ on_message Sample.clock Written Sample.without_hum w
      = World (batch_cache w) (files w)
              (channel w ++ [basic_ack (delivery_tag Sample.without_hum)]))
  /\ (loads_body Sample.without_ts = Returned (VDict no_ts)
      /\ split slash (routing_key Sample.without_ts) !! 1%nat = Some batch_id
      /\ numeric_field (str "temp") no_ts = true
      /\ numeric_field (str "hum") no_ts = true
      /\ dict_lookup (str "ts") no_ts = None
      /\ on_message Sample.clock (Refused OSError) Sample.without_ts w
         = World (batch_cache w) (files w)
                 (channel w ++ [basic_nack (delivery_tag Sample.without_ts) false])).
Proof.
  intros batch_id no_hum no_ts w.
  assert (Hbody1 : loads_body Sample.without_hum = Returned (VDict no_hum))
    by reflexivity.
  assert (Hkey1 : split slash (routing_key Sample.without_hum) !! 1%nat = Some batch_id)
    by reflexivity.
  assert (Hbad : numeric_field (str "temp") no_hum = false
                 \/ numeric_field (str "hum") no_hum = false)
    by (right; reflexivity).
  assert (Hbody2 : loads_body Sample.without_ts = Returned (VDict no_ts))
    by reflexivity.
  assert (Hkey2 : split slash (routing_key Sample.without_ts) !! 1%nat = Some batch_id)
    by reflexivity.
  assert (Htemp : numeric_field (str "temp") no_ts = true) by reflexivity.
  assert (Hhum : numeric_field (str "hum") no_ts = true) by reflexivity.
  assert (Hts : dict_lookup (str "ts") no_ts = None) by reflexivity.
  split.
  - exact (conj Hbody1 (conj Hkey1 (conj Hbad
             (proj1 (malformed_event_is_dropped Sample.clock Written
                       Sample.without_hum w batch_id no_hum Hbody1 Hkey1) Hbad)))).
  - exact (conj Hbody2 (conj Hkey2 (conj Htemp (conj Hhum (conj Hts
             (proj2 (malformed_event_is_dropped Sample.clock (Refused OSError)
                       Sample.without_ts w batch_id no_ts Hbody2 Hkey2)
                    Htemp Hhum Hts)))))).
Defined.

(** C9. A payload whose [temp] or [hum] is a JSON boolean, the other
    being a boolean or a number, passes the check of the two fields: its
    record carries the hash of the payload and is added to the records of
    its key, and it counts towards the threshold, so that the file is
    written, with its record in it, when it is the fourth. The event is
    acknowledged, and at the threshold the entry emptied, when the write
    of the file returns; when the write raises, the event is answered
    with [basic_nack] and the records, its own among them, stay in the
    cache. *)
Theorem boolean_reading_is_batched (timestamp : pystr) (disk : disk_reply)
    (m : message) (w : world)
    (batch_id : pystr) (items : list (pystr * value))
    (ts temp hum location productName : value) :
  loads_body m = Returned (VDict items) ->
  split slash (routing_key m) !! 1%nat = Some batch_id ->
  dict_lookup (str "temp") items = Some temp ->
  dict_lookup (str "hum") items = Some hum ->
  dict_lookup (str "ts") items = Some ts ->
  dict_lookup (str "location") items = Some location ->
  dict_lookup (str "productName") items = Some productName ->
  (json_boolean temp = true /\ (json_boolean hum || json_number hum = true)%bool)
  \/ (json_boolean hum = true /\ (json_boolean temp || json_number temp = true)%bool) ->
  let record := VDict [
    (str "batch_id", VStr batch_id);
    (str "ts", ts);
    (str "temp", temp);
    (str "hum", hum);
    (str "location", location);
    (str "productName", productName);
    (str "hash", VStr (calc_sha256 (VDict items)))
  ] in
  let records := cached w batch_id ++ [record] in
  let path := artifact_path batch_id timestamp in
  let w' := on_message timestamp disk m w in
  if (MAX_PER_BATCH <=? length records)%nat
  then match disk with
       | Written =>
           channel w' = channel w ++ [basic_ack (delivery_tag m)]
           /\ cached w' batch_id = []
           /\ files w' = <[path := artifact_text records]> (files w)
       | Refused e =>
           channel w' = channel w ++ [basic_nack (delivery_tag m) false]
           /\ cached w' batch_id = records
           /\ files w' = files w
       | Broken e kept =>
           channel w' = channel w ++ [basic_nack (delivery_tag m) false]
           /\ cached w' batch_id = records
           /\ files w' = <[path := substring 0 kept (artifact_text records)]> (files w)
       end
  else channel w' = channel w ++ [basic_ack (delivery_tag m)]
       /\ cached w' batch_id = records
       /\ files w' = files w.
Proof.
  intros Hbody Hkey Htemp Hhum Hts Hloc Hpn Hbool record records path w'.
  assert (Hnumbers : is_int_or_float temp = true /\ is_int_or_float hum = true).
  { destruct Hbool as [[Ht Hh]|[Hh Ht]]; destruct temp, hum;
      try discriminate; split; reflexivity. }
  destruct Hnumbers as [Htn Hhn].
  assert (Hvalid : valid_event m batch_id record).
  { apply (Valid_event _ _ _ items ts temp hum location productName);
      auto; reflexivity. }
  unfold w'. rewrite (on_message_valid _ _ _ _ _ _ Hvalid).
  pose proof (cached_accept timestamp disk batch_id record (delivery_tag m) w) as Hc.
  pose proof (files_accept timestamp disk batch_id record (delivery_tag m) w) as Hf.
  pose proof (channel_accept timestamp disk batch_id record (delivery_tag m) w) as Hs.
  fold records in Hc, Hf, Hs. fold path in Hf.
  destruct (MAX_PER_BATCH <=? length records)%nat; [destruct disk|]; auto.
Qed.

Lemma boolean_reading_is_batched_witness :
  let temp := VBool true in
  let items := Sample.reading temp in
  let m := Sample.event temp in
  let w := run [(Sample.clock, Written, Sample.event (VInt 1));
                (Sample.clock, Written, Sample.event (VInt 2));
                (Sample.clock, Written, Sample.event (VInt 3))] initial_world in
  let batch_id := str "batch321" in
  let disk := Written in
  loads_body m = Returned (VDict items)
  /\ split slash (routing_key m) !! 1%nat = Some batch_id
  /\ dict_lookup (str "temp") items = Some temp
  /\ dict_lookup (str "hum") items = Some Sample.hum
  /\ dict_lookup (str "ts") items = Some Sample.ts
  /\ dict_lookup (str "location") items = Some Sample.location
  /\ dict_lookup (str "productName") items = Some Sample.productName
  /\ ((json_boolean temp = true
       /\ (json_boolean Sample.hum || json_number Sample.hum = true)%bool)
      \/ (json_boolean Sample.hum = true
          /\ (json_boolean temp || json_number temp = true)%bool))
  /\ (let record := VDict [
        (str "batch_id", VStr batch_id);
        (str "ts", Sample.ts);
        (str "temp", temp);
        (str "hum", Sample.hum);
        (str "location", Sample.location);
        (str "productName", Sample.productName);
        (str "hash", VStr (calc_sha256 (VDict items)))
      ] in
      let records := cached w batch_id ++ [record] in
      let path := artifact_path batch_id Sample.clock in
      let w' := on_message Sample.clock disk m w in
      if (MAX_PER_BATCH <=? length records)%nat
      then match disk with
           | Written =>
               channel w' = channel w ++ [basic_ack (delivery_tag m)]
               /\ cached w' batch_id = []
               /\ files w' = <[path := artifact_text records]> (files w)
           | Refused e =>
               channel w' = channel w ++ [basic_nack (delivery_tag m) false]
               /\ cached w' batch_id = records
               /\ files w' = files w
           | Broken e kept =>
               channel w' = channel w ++ [basic_nack (delivery_tag m) false]
               /\ cached w' batch_id = records
               /\ files w' = <[path := substring 0 kept (artifact_text records)]>
                               (files w)
           end
      else channel w' = channel w ++ [basic_ack (delivery_tag m)]
           /\ cached w' batch_id = records
           /\ files w' = files w).
Proof.
  intros temp items m w batch_id disk.
  assert (Hbody : loads_body m = Returned (VDict items)) by reflexivity.
  assert (Hkey : split slash (routing_key m) !! 1%nat = Some batch_id)
    by reflexivity.
  assert (Htemp : dict_lookup (str "temp") items = Some temp) by reflexivity.
  assert (Hhum : dict_lookup (str "hum") items = Some Sample.hum) by reflexivity.
  assert (Hts : dict_lookup (str "ts") items = Some Sample.ts) by reflexivity.
  assert (Hloc : dict_lookup (str "location") items = Some Sample.location)
    by reflexivity.
  assert (Hpn : dict_lookup (str "productName") items = Some Sample.productName)
    by reflexivity.
  assert (Hbool : (json_boolean temp = true
                  /\ (json_boolean Sample.hum || json_number Sample.hum = true)%bool)
                 \/ (json_boolean Sample.hum = true
                     /\ (json_boolean temp || json_number temp = true)%bool))
    by (left; split; reflexivity).
  exact (conj Hbody (conj Hkey (conj Htemp (conj Hhum (conj Hts (conj Hloc
           (conj Hpn (conj Hbool
              (boolean_reading_is_batched Sample.clock disk m w batch_id items
                 Sample.ts temp Sample.hum Sample.location Sample.productName
                 Hbody Hkey Htemp Hhum Hts Hloc Hpn Hbool))))))))).
Defined.

(** C7. The text of the file that a flush writes is a function of the
    record list alone: two flushes of the same records, under any keys,
    at any times and in any worlds, whose writes succeed, leave the same
    text in their files. *)
Theorem artifact_is_deterministic (timestamp1 timestamp2 batch_id1 batch_id2 : pystr)
    (w1 w2 : world) (records : list value) :
  cached w1 batch_id1 = records ->
  cached w2 batch_id2 = records ->
  (MAX_PER_BATCH <= length records)%nat ->
  exists text : string,
    text = artifact_text records
    /\ files (snd (try_flush_batch timestamp1 Written batch_id1 w1))
       = <[artifact_path batch_id1 timestamp1 := text]> (files w1)
    /\ files (snd (try_flush_batch timestamp2 Written batch_id2 w2))
       = <[artifact_path batch_id2 timestamp2 := text]> (files w2).
Proof.
  assert (Hflush : forall t b w,
            (MAX_PER_BATCH <= length (cached w b))%nat ->
            files (snd (try_flush_batch t Written b w))
            = <[artifact_path b t := artifact_text (cached w b)]> (files w)).
  { intros t b w. unfold cached.
    destruct (batch_cache w !! b) as [rs|] eqn:E; cbn [default from_option id].
    - intros Hlen. rewrite (try_flush_batch_spec t Written b w rs E).
      destruct (Nat.leb_spec MAX_PER_BATCH (length rs)); [reflexivity | lia].
    - unfold MAX_PER_BATCH. cbn [length]. lia. }
  intros H1 H2 Hlen. exists (artifact_text records).
  split; [reflexivity|].
  split; [rewrite <- H1 | rewrite <- H2]; apply Hflush;
    [rewrite H1 | rewrite H2]; exact Hlen.
Qed.

Lemma artifact_is_deterministic_witness :
  let records :=
    [Sample.record (VInt 1); Sample.record (VInt 2);
     Sample.record (VInt 3); Sample.record (VInt 4)] in
  let w1 := World {[ str "batch321" := records ]} ∅ [] in
  let w2 := World {[ str "batch777" := records ]} ∅ [basic_ack 1] in
  let retry := str "20250731T021500Z" in
  cached w1 (str "batch321") = records
  /\ cached w2 (str "batch777") = records
  /\ (MAX_PER_BATCH <= length records)%nat
  /\ exists text : string,
       text = artifact_text records
       /\ files (snd (try_flush_batch Sample.clock Written (str "batch321") w1))
          = <[artifact_path (str "batch321") Sample.clock := text]> (files w1)
       /\ files (snd (try_flush_batch retry Written (str "batch777") w2))
          = <[artifact_path (str "batch777") retry := text]> (files w2).
Proof.
  intros records w1 w2 retry.
  assert (H1 : cached w1 (str "batch321") = records) by (vm_compute; reflexivity).
  assert (H2 : cached w2 (str "batch777") = records) by (vm_compute; reflexivity).
  assert (Hlen : (MAX_PER_BATCH <= length records)%nat)
    by (unfold MAX_PER_BATCH, records; cbn [length]; lia).
  exact (conj H1 (conj H2 (conj Hlen
           (artifact_is_deterministic Sample.clock retry (str "batch321")
              (str "batch777") w1 w2 records H1 H2 Hlen)))).
Defined.

End Handler.

(** ** More on the message handler *)

Section HandlerTable.
Import DataCleaner Ledger.

Arguments str : simpl never.
Arguments calc_sha256 : simpl never.
Arguments Json.dumps : simpl never.

Lemma event_of_valid (m : message) (batch_id : pystr) (record : value) :
  valid_event m batch_id record <-> event_of m = Some (batch_id, record).
Proof.
  unfold event_of. split.
  - intros [items ts temp hum location productName
            Hbody Hkey Htemp Htn Hhum Hhn Hts Hloc Hpn ->].
    rewrite Hbody, Hkey, Htemp, Hhum, Hts, Hloc, Hpn, Htn, Hhn. reflexivity.
  - destruct (loads_body m) as [[| | | | | |items]|] eqn:Hbody; try discriminate.
    destruct (split slash (routing_key m) !! 1%nat) as [b|] eqn:Hkey; [|discriminate].
    destruct (dict_lookup (str "temp") items) as [temp|] eqn:Htemp; [|discriminate].
    destruct (dict_lookup (str "hum") items) as [hum|] eqn:Hhum; [|discriminate].
    destruct (dict_lookup (str "ts") items) as [ts|] eqn:Hts; [|discriminate].
    destruct (dict_lookup (str "location") items) as [loc|] eqn:Hloc; [|discriminate].
    destruct (dict_lookup (str "productName") items) as [pn|] eqn:Hpn; [|discriminate].
    destruct (is_int_or_float temp) eqn:Htn; [|discriminate].
    destruct (is_int_or_float hum) eqn:Hhn; [|discriminate].
    intros [= <- <-]. econstructor; eauto.
Qed.

(** What the handler does with a delivery, in one equation. *)
Lemma on_message_event_of (timestamp : pystr) (disk : disk_reply) (m : message)
    (w : world) :
  on_message timestamp disk m w =
  match event_of m with
  | Some (batch_id, record) =>
      accept timestamp disk batch_id record (delivery_tag m) w
  | None => World (batch_cache w) (files w) (channel w ++ [reply_to m])
  end.
Proof.
  destruct (event_of m) as [[b r]|] eqn:E.
  - apply on_message_valid, event_of_valid, E.
  - revert E. unfold event_of, reply_to, acknowledged, numeric_field, has_key.
    unfold on_message, try_except, on_message_body.
    unfold mbind at 1 2 3, prog_bind at 1 2 3, lift, list_getitem.
    destruct (loads_body m) as [payload|e] eqn:Hbody; [|reflexivity].
    destruct (split slash (routing_key m) !! 1%nat) as [batch_id|] eqn:Hkey;
      [|destruct payload; reflexivity].
    destruct payload as [| | | | | |items]; try reflexivity.
    unfold get.
    destruct (dict_lookup (str "temp") items) as [temp|] eqn:Htemp; [|reflexivity].
    cbn [default from_option id].
    destruct (is_int_or_float temp) eqn:Htn; [|reflexivity].
    cbn [negb orb]. unfold mbind at 1, prog_bind at 1.
    destruct (dict_lookup (str "hum") items) as [hum|] eqn:Hhum; [|reflexivity].
    cbn [default from_option id].
    destruct (is_int_or_float hum) eqn:Hhn; [|reflexivity].
    cbn [negb orb andb]. unfold mbind at 1 2 3 4 5, prog_bind at 1 2 3 4 5, getitem.
    destruct (dict_lookup (str "ts") items) as [ts|] eqn:Hts; [|reflexivity].
    rewrite Htemp, Hhum.
    destruct (dict_lookup (str "location") items) as [location|] eqn:Hloc;
      [|reflexivity].
    destruct (dict_lookup (str "productName") items) as [productName|] eqn:Hpn;
      [|reflexivity].
    discriminate.
Qed.

Lemma event_of_acknowledged (m : message) (batch_id : pystr) (record : value) :
  event_of m = Some (batch_id, record) ->
  acknowledged m = true /\ split slash (routing_key m) !! 1%nat = Some batch_id.
Proof.
  unfold event_of, acknowledged, numeric_field, has_key.
  destruct (loads_body m) as [[| | | | | |items]|]; try discriminate.
  destruct (split slash (routing_key m) !! 1%nat) as [b|]; [|discriminate].
  destruct (dict_lookup (str "temp") items) as [temp|]; [|discriminate].
  destruct (dict_lookup (str "hum") items) as [hum|]; [|discriminate].
  destruct (dict_lookup (str "ts") items) as [ts|]; [|discriminate].
  destruct (dict_lookup (str "location") items) as [loc|]; [|discriminate].
  destruct (dict_lookup (str "productName") items) as [pn|]; [|discriminate].
  destruct (is_int_or_float temp); [|discriminate].
  destruct (is_int_or_float hum); [|discriminate].
  intros [= <- _]. split; reflexivity.
Qed.

(** X1. Every delivery is answered exactly once, with its own delivery
    tag. The answer is [basic_nack] without requeue when the content is
    refused (a body that is not JSON or not an object, a routing key
    without a second piece, a missing [ts], [location] or [productName]
    after [temp] and [hum] passed), and when the delivery is an accepted
    event that brings its key to the threshold and the write of the file
    raises; it is [basic_ack] in every other case. A delivery whose
    content is refused leaves the cache and the files as they were; an
    accepted event whose flush fails is answered with [basic_nack] all
    the same, and its record stays in the cache. *)
Theorem every_delivery_is_answered (timestamp : pystr) (disk : disk_reply)
    (m : message) (w : world) :
  channel (on_message timestamp disk m w)
  = channel w ++ [if flush_fails disk m w then basic_nack (delivery_tag m) false
                  else reply_to m]
  /\ (acknowledged m = false ->
      batch_cache (on_message timestamp disk m w) = batch_cache w
      /\ files (on_message timestamp disk m w) = files w)
  /\ (flush_fails disk m w = true ->
      acknowledged m = true
      /\ exists batch_id record,
           valid_event m batch_id record
           /\ cached (on_message timestamp disk m w) batch_id
              = cached w batch_id ++ [record]).
Proof.
  rewrite on_message_event_of. unfold flush_fails.
  destruct (event_of m) as [[b r]|] eqn:E.
  - destruct (event_of_acknowledged m b r E) as [Hack _].
    rewrite channel_accept. unfold reply_to. rewrite Hack.
    split; [|split; [discriminate|]].
    + destruct disk; destruct (MAX_PER_BATCH <=? _)%nat; reflexivity.
    + intros Hfails. split; [reflexivity|]. exists b, r.
      split; [apply event_of_valid, E|]. rewrite cached_accept.
      destruct disk; [discriminate Hfails | rewrite Hfails..]; reflexivity.
  - split; [reflexivity | split; [intros _; split; reflexivity | discriminate]].
Qed.

(** X2. A delivery touches the records of one key only, the second piece
    of its routing key: the entry of every other key is as it was. *)
Theorem other_keys_are_untouched (timestamp : pystr) (disk : disk_reply)
    (m : message) (w : world) (batch_id : pystr) :
  split slash (routing_key m) !! 1%nat <> Some batch_id ->
  batch_cache (on_message timestamp disk m w) !! batch_id = batch_cache w !! batch_id.
Proof.
  intros Hother. rewrite on_message_event_of.
  destruct (event_of m) as [[b r]|] eqn:E; [|reflexivity].
  destruct (event_of_acknowledged m b r E) as [_ Hkey].
  assert (Hne : b <> batch_id) by (intros ->; apply Hother, Hkey).
  unfold accept. destruct (MAX_PER_BATCH <=? _)%nat; [destruct disk|];
    cbn [batch_cache]; rewrite lookup_insert_ne by exact Hne; reflexivity.
Qed.

Lemma other_keys_are_untouched_witness :
  let w := run [(Sample.clock, Written, Sample.elsewhere);
                (Sample.clock, Written, Sample.elsewhere)]
               initial_world in
  split slash (routing_key (Sample.event (VInt 1))) !! 1%nat <> Some (str "batch777")
  /\ batch_cache (on_message Sample.clock (Refused OSError) (Sample.event (VInt 1)) w)
       !! str "batch777"
     = batch_cache w !! str "batch777".
Proof.
  intros w.
  assert (Hother : split slash (routing_key (Sample.event (VInt 1))) !! 1%nat
                   <> Some (str "batch777"))
    by (vm_compute; discriminate).
  exact (conj Hother
           (other_keys_are_untouched Sample.clock (Refused OSError)
              (Sample.event (VInt 1)) w (str "batch777") Hother)).
Defined.

Lemma sealed_for_snoc (batch_id : pystr) (batches : list sealed) (s : sealed) :
  sealed_for batch_id (batches ++ [s])
  = sealed_for batch_id batches
    ++ (if decide (sealed_key s = batch_id) then sealed_records s else []).
Proof.
  unfold sealed_for. rewrite filter_app, map_app, concat_app. f_equal.
  rewrite filter_cons, filter_nil.
  destruct (decide (sealed_key s = batch_id)); cbn; [apply app_nil_r | reflexivity].
Qed.

Lemma arrivals_snoc_valid (batch_id : pystr)
    (deliveries : list (pystr * disk_reply * message))
    (records : list value) (timestamp : pystr) (disk : disk_reply) (m : message)
    (record : value) :
  arrivals batch_id deliveries records ->
  valid_event m batch_id record ->
  arrivals batch_id (deliveries ++ [(timestamp, disk, m)]) (records ++ [record]).
Proof.
  intros Harr Hvalid.
  induction Harr as [|t' d' m' r' ds rs Hv Harr IH|t' d' m' ds rs Hnot Harr IH]; cbn.
  - apply arrivals_valid; [exact Hvalid | apply arrivals_nil].
  - apply arrivals_valid; assumption.
  - apply arrivals_other; assumption.
Qed.

Lemma arrivals_snoc_other (batch_id : pystr)
    (deliveries : list (pystr * disk_reply * message))
    (records : list value) (timestamp : pystr) (disk : disk_reply) (m : message) :
  arrivals batch_id deliveries records ->
  ~ (exists record, valid_event m batch_id record) ->
  arrivals batch_id (deliveries ++ [(timestamp, disk, m)]) records.
Proof.
  intros Harr Hnot.
  induction Harr as [|t' d' m' r' ds rs Hv Harr IH|t' d' m' ds rs Hnot' Harr IH]; cbn.
  - apply arrivals_other; [exact Hnot | apply arrivals_nil].
  - apply arrivals_valid; assumption.
  - apply arrivals_other; assumption.
Qed.

Lemma cached_below_threshold (w : world) (batch_id : pystr) :
  below_threshold w -> (length (cached w batch_id) < MAX_PER_BATCH)%nat.
Proof.
  intros Hw. unfold cached.
  destruct (batch_cache w !! batch_id) as [records|] eqn:E; cbn.
  - exact (Hw batch_id records E).
  - unfold MAX_PER_BATCH. lia.
Qed.

Lemma run_snoc (deliveries : list (pystr * disk_reply * message))
    (timestamp : pystr) (disk : disk_reply) (m : message) (w : world) :
  run (deliveries ++ [(timestamp, disk, m)]) w
  = on_message timestamp disk m (run deliveries w).
Proof. unfold run. rewrite fold_left_app. reflexivity. Qed.

Lemma whole_snoc (flushes : list flush) (f : flush) :
  whole (flushes ++ [f]) = whole flushes ++ (if unbroken f then [flushed f] else []).
Proof.
  unfold whole. rewrite List.filter_app, map_app. cbn [List.filter].
  destruct (unbroken f); reflexivity.
Qed.

Lemma disk_after_snoc (flushes : list flush) (f : flush) (disk : gmap pystr string) :
  disk_after (flushes ++ [f]) disk
  = <[flush_path f := flush_text f]> (disk_after flushes disk).
Proof. unfold disk_after. rewrite fold_left_app. reflexivity. Qed.

(** When no two flushes share a path, each has left its text in its
    file. *)
Lemma disk_after_lookup (flushes : list flush) (disk : gmap pystr string) (f : flush) :
  NoDup (map flush_path flushes) ->
  f ∈ flushes ->
  disk_after flushes disk !! flush_path f = Some (flush_text f).
Proof.
  induction flushes as [|x flushes IH] using rev_ind; intros Hpaths Hin.
  - apply elem_of_nil in Hin. destruct Hin.
  - rewrite disk_after_snoc. rewrite map_app in Hpaths. cbn [map] in Hpaths.
    apply NoDup_app in Hpaths as (Hpaths & Hfresh & _).
    apply elem_of_app in Hin as [Hin|Hin].
    + rewrite lookup_insert_ne; [apply IH; assumption|].
      intros Heq. apply (Hfresh (flush_path f)).
      * apply list_elem_of_fmap. exists f. split; [reflexivity | exact Hin].
      * rewrite Heq. left.
    + apply list_elem_of_singleton in Hin as ->. apply lookup_insert_eq.
Qed.

(** What a run from the empty cache and the empty directory keeps: the
    files are what the flushes that opened their file have left; a batch
    written whole has four records or more; for every key the records
    written whole followed by the open ones are the records of its valid
    events, in order of arrival; and while the writes succeed the open
    batches are below four, no flush is broken and the batches have
    exactly four records. *)
Lemma ledger_invariant (deliveries : list (pystr * disk_reply * message)) :
  exists flushes : list flush,
    files (run deliveries initial_world) = disk_after flushes ∅
    /\ Forall (fun s => (MAX_PER_BATCH <= length (sealed_records s))%nat)
              (whole flushes)
    /\ (writes_succeed deliveries ->
        below_threshold (run deliveries initial_world)
        /\ Forall (fun f => unbroken f = true
                            /\ length (sealed_records (flushed f)) = MAX_PER_BATCH)
                  flushes)
    /\ forall batch_id,
         arrivals batch_id deliveries
           (sealed_for batch_id (whole flushes)
            ++ cached (run deliveries initial_world) batch_id).
Proof.
  induction deliveries as [|[[t d] m] ds IH] using rev_ind.
  - exists []. split; [reflexivity | split; [constructor | split]].
    + intros _. split; [|constructor].
      intros b records H. cbn in H. rewrite lookup_empty in H. discriminate H.
    + intros b. rewrite cached_initial_world. apply arrivals_nil.
  - destruct IH as (flushes & Hfiles & Hfull & Hgood & Harr).
    rewrite run_snoc. set (w := run ds initial_world) in *.
    assert (Hgood' : writes_succeed (ds ++ [(t, d, m)]) ->
              d = Written /\ below_threshold w
              /\ Forall (fun f => unbroken f = true
                          /\ length (sealed_records (flushed f)) = MAX_PER_BATCH)
                        flushes).
    { intros Hdisk. apply Forall_app in Hdisk as [Hds Hd].
      apply Forall_inv in Hd. cbn [fst snd] in Hd.
      destruct (Hgood Hds) as [Hbelow Hflushes]. auto. }
    rewrite on_message_event_of.
    destruct (event_of m) as [[b0 r0]|] eqn:E.
    + apply event_of_valid in E as Hvalid.
      assert (Hothers : forall b, b <> b0 -> ~ (exists r, valid_event m b r)).
      { intros b Hne [r Hr]. apply event_of_valid in Hr. congruence. }
      assert (Hopen : forall flushes',
                whole flushes' = whole flushes ->
                cached (accept t d b0 r0 (delivery_tag m) w) b0 = cached w b0 ++ [r0] ->
                forall b,
                  arrivals b (ds ++ [(t, d, m)])
                    (sealed_for b (whole flushes')
                     ++ cached (accept t d b0 r0 (delivery_tag m) w) b)).
      { intros flushes' Hsame Hkept b. rewrite Hsame.
        destruct (decide (b0 = b)) as [<-|Hne].
        - rewrite Hkept, app_assoc.
          apply arrivals_snoc_valid; [apply Harr | exact Hvalid].
        - rewrite (cached_accept_other t d b0 b r0 _ w Hne).
          apply arrivals_snoc_other; [apply Harr | apply Hothers; congruence]. }
      pose proof (cached_accept t d b0 r0 (delivery_tag m) w) as Hcached.
      pose proof (files_accept t d b0 r0 (delivery_tag m) w) as Hwritten.
      destruct (Nat.leb_spec MAX_PER_BATCH (length (cached w b0 ++ [r0])))
        as [Hfull4|Hbelow4].
      * destruct d as [|e|e kept].
        -- exists (flushes ++ [Flush (Sealed b0 t (cached w b0 ++ [r0])) None]).
           rewrite whole_snoc, disk_after_snoc. cbn [unbroken broken_at flushed].
           split; [|split; [|split]].
           ++ rewrite Hwritten, Hfiles. reflexivity.
           ++ apply Forall_app. split; [exact Hfull|].
              constructor; [exact Hfull4 | constructor].
           ++ intros Hdisk. destruct (Hgood' Hdisk) as (_ & Hbelow & Hflushes).
              split.
              ** rewrite <- (on_message_valid _ _ _ _ _ _ Hvalid).
                 apply below_threshold_on_message, Hbelow.
              ** apply Forall_app. split; [exact Hflushes|].
                 constructor; [|constructor]. split; [reflexivity|].
                 cbn [flushed sealed_records].
                 pose proof (cached_below_threshold w b0 Hbelow).
                 rewrite length_app in *. cbn [length] in *. lia.
           ++ intros b. rewrite sealed_for_snoc. cbn [sealed_key sealed_records].
              destruct (decide (b0 = b)) as [<-|Hne].
              ** rewrite Hcached, app_nil_r, app_assoc.
                 apply arrivals_snoc_valid; [apply Harr | exact Hvalid].
              ** rewrite app_nil_r, (cached_accept_other t Written b0 b r0 _ w Hne).
                 apply arrivals_snoc_other; [apply Harr | apply Hothers; congruence].
        -- exists flushes. split; [|split; [|split]].
           ++ rewrite Hwritten. exact Hfiles.
           ++ exact Hfull.
           ++ intros Hdisk. destruct (Hgood' Hdisk) as (Hd & _). discriminate Hd.
           ++ apply Hopen; [reflexivity | exact Hcached].
        -- exists (flushes ++ [Flush (Sealed b0 t (cached w b0 ++ [r0])) (Some kept)]).
           split; [|split; [|split]].
           ++ rewrite disk_after_snoc, Hwritten, Hfiles. reflexivity.
           ++ rewrite whole_snoc, app_nil_r. exact Hfull.
           ++ intros Hdisk. destruct (Hgood' Hdisk) as (Hd & _). discriminate Hd.
           ++ apply Hopen; [rewrite whole_snoc; apply app_nil_r | exact Hcached].
      * exists flushes. split; [|split; [|split]].
        -- rewrite Hwritten. exact Hfiles.
        -- exact Hfull.
        -- intros Hdisk. destruct (Hgood' Hdisk) as (-> & Hbelow & Hflushes).
           split; [|exact Hflushes].
           rewrite <- (on_message_valid _ _ _ _ _ _ Hvalid).
           apply below_threshold_on_message, Hbelow.
        -- apply Hopen; [reflexivity | exact Hcached].
    + exists flushes. split; [exact Hfiles | split; [exact Hfull | split]].
      * intros Hdisk. destruct (Hgood' Hdisk) as (_ & Hbelow & Hflushes).
        split; [|exact Hflushes]. exact Hbelow.
      * intros b. apply arrivals_snoc_other; [apply Harr|].
        intros [r Hr]. apply event_of_valid in Hr. congruence.
Qed.

(** X3. The handler loses no record from its books, repeats none and
    keeps their order, as far as its own writes go: after any
    deliveries from the empty cache and the empty directory, whether the
    writes succeed or fail, the files are what the flushes have left in
    the order they were made, a later one replacing an earlier one of the
    same path; every batch written whole has four records or more, and
    exactly four, with no write broken, when every write succeeds; for
    every key the records of the batches written whole, oldest first,
    followed by the records still in the cache are the records of the
    valid events of the key, in order of arrival. Every batch written
    whole is still in its file provided that no two flushes shared a path
    (the same key in the same second of the clock). *)
Theorem records_are_conserved (deliveries : list (pystr * disk_reply * message)) :
  exists flushes : list flush,
    files (run deliveries initial_world) = disk_after flushes ∅
    /\ Forall (fun s => (MAX_PER_BATCH <= length (sealed_records s))%nat)
              (whole flushes)
    /\ (writes_succeed deliveries ->
        whole flushes = map flushed flushes
        /\ Forall (fun s => length (sealed_records s) = MAX_PER_BATCH) (whole flushes))
    /\ (forall batch_id,
          arrivals batch_id deliveries
            (sealed_for batch_id (whole flushes)
             ++ cached (run deliveries initial_world) batch_id))
    /\ (NoDup (map flush_path flushes) ->
        forall s, s ∈ whole flushes ->
          files (run deliveries initial_world) !! fst (sealed_file s)
          = Some (snd (sealed_file s))).
Proof.
  destruct (ledger_invariant deliveries) as (flushes & Hfiles & Hfull & Hgood & Harr).
  exists flushes.
  split; [exact Hfiles | split; [exact Hfull | split; [|split; [exact Harr|]]]].
  - intros Hdisk. destruct (Hgood Hdisk) as [_ Hflushes]. unfold whole.
    assert (Hall : List.filter unbroken flushes = flushes).
    { clear -Hflushes. induction Hflushes as [|f fs [Hf _] _ IH]; [reflexivity|].
      cbn [List.filter]. rewrite Hf, IH. reflexivity. }
    rewrite Hall. split; [reflexivity|].
    apply Forall_fmap. eapply Forall_impl; [exact Hflushes|].
    intros f [_ Hlen]. exact Hlen.
  - intros Hpaths s Hs. unfold whole in Hs.
    apply list_elem_of_fmap in Hs as (f & -> & Hf).
    apply list_elem_of_In, List.filter_In in Hf as [Hf Hwhole].
    apply list_elem_of_In in Hf.
    rewrite Hfiles. change (fst (sealed_file (flushed f))) with (flush_path f).
    rewrite (disk_after_lookup flushes ∅ f Hpaths Hf).
    unfold flush_text, unbroken in *. destruct (broken_at f); [discriminate|].
    reflexivity.
Qed.

(** A valid event that leaves its key below the threshold touches no
    file. *)
Lemma step_below (timestamp : pystr) (disk : disk_reply) (m : message) (w : world)
    (batch_id : pystr) (record : value) (records : list value) :
  valid_event m batch_id record ->
  cached w batch_id = records ->
  (length records + 1 < MAX_PER_BATCH)%nat ->
  cached (on_message timestamp disk m w) batch_id = records ++ [record]
  /\ files (on_message timestamp disk m w) = files w.
Proof.
  intros Hvalid Hcached Hlen.
  rewrite (on_message_valid _ _ _ _ _ _ Hvalid), cached_accept, files_accept, Hcached.
  destruct (Nat.leb_spec MAX_PER_BATCH (length (records ++ [record])));
    [rewrite length_app in *; cbn [length] in *; lia | auto].
Qed.

(** A valid event that brings its key to the threshold, when the write
    succeeds, leaves the records in the file and none in the cache. *)
Lemma step_seal (timestamp : pystr) (m : message) (w : world)
    (batch_id : pystr) (record : value) (records : list value) :
  valid_event m batch_id record ->
  cached w batch_id = records ->
  (MAX_PER_BATCH <= length records + 1)%nat ->
  cached (on_message timestamp Written m w) batch_id = []
  /\ files (on_message timestamp Written m w)
     = <[artifact_path batch_id timestamp := artifact_text (records ++ [record])]>
         (files w).
Proof.
  intros Hvalid Hcached Hlen.
  rewrite (on_message_valid _ _ _ _ _ _ Hvalid), cached_accept, files_accept, Hcached.
  destruct (Nat.leb_spec MAX_PER_BATCH (length (records ++ [record])));
    [auto | rewrite length_app in *; cbn [length] in *; lia].
Qed.

(** X16. The name of the file is made of the key and of the clock read
    to the second, and the file is opened with mode ['w']: two batches of
    one key that are sealed within one second have the same path, and the
    second replaces the first. After eight valid events of a key that
    start from an empty entry and are handled at one reading of the
    clock, every write succeeding, the directory differs from what it was
    by that one file only, and the file holds the last four records; the
    entry of the key is empty, so the first four are kept nowhere. *)
Theorem second_seal_replaces_first (w : world) (batch_id timestamp : pystr)
    (events : list (message * value)) :
  cached w batch_id = [] ->
  length events = (2 * MAX_PER_BATCH)%nat ->
  Forall (fun e => valid_event (fst e) batch_id (snd e)) events ->
  let w' := run (map (fun e => (timestamp, Written, fst e)) events) w in
  files w'
  = <[artifact_path batch_id timestamp
      := artifact_text (map snd (drop MAX_PER_BATCH events))]> (files w)
  /\ cached w' batch_id = [].
Proof.
  intros Hempty Hlen Hvalid.
  destruct events as [|[m1 r1] [|[m2 r2] [|[m3 r3] [|[m4 r4] [|[m5 r5] [|[m6 r6]
    [|[m7 r7] [|[m8 r8] [|]]]]]]]]]; try discriminate Hlen.
  repeat match goal with
         | H : Forall _ (_ :: _) |- _ => apply Forall_cons in H as [? H]
         end.
  cbn [fst snd] in *. cbn [map run fold_left fst snd drop MAX_PER_BATCH].
  set (w1 := on_message timestamp Written m1 w).
  set (w2 := on_message timestamp Written m2 w1).
  set (w3 := on_message timestamp Written m3 w2).
  set (w4 := on_message timestamp Written m4 w3).
  set (w5 := on_message timestamp Written m5 w4).
  set (w6 := on_message timestamp Written m6 w5).
  set (w7 := on_message timestamp Written m7 w6).
  unfold MAX_PER_BATCH in *.
  destruct (step_below timestamp Written m1 w batch_id r1 [])
    as [C1 F1]; [assumption | assumption | cbn; unfold MAX_PER_BATCH; lia|].
  destruct (step_below timestamp Written m2 w1 batch_id r2 [r1])
    as [C2 F2]; [assumption | exact C1 | cbn; unfold MAX_PER_BATCH; lia|].
  destruct (step_below timestamp Written m3 w2 batch_id r3 [r1; r2])
    as [C3 F3]; [assumption | exact C2 | cbn; unfold MAX_PER_BATCH; lia|].
  destruct (step_seal timestamp m4 w3 batch_id r4 [r1; r2; r3])
    as [C4 F4]; [assumption | exact C3 | cbn; unfold MAX_PER_BATCH; lia|].
  destruct (step_below timestamp Written m5 w4 batch_id r5 [])
    as [C5 F5]; [assumption | exact C4 | cbn; unfold MAX_PER_BATCH; lia|].
  destruct (step_below timestamp Written m6 w5 batch_id r6 [r5])
    as [C6 F6]; [assumption | exact C5 | cbn; unfold MAX_PER_BATCH; lia|].
  destruct (step_below timestamp Written m7 w6 batch_id r7 [r5; r6])
    as [C7 F7]; [assumption | exact C6 | cbn; unfold MAX_PER_BATCH; lia|].
  destruct (step_seal timestamp m8 w7 batch_id r8 [r5; r6; r7])
    as [C8 F8]; [assumption | exact C7 | cbn; unfold MAX_PER_BATCH; lia|].
  subst w7. subst w6. subst w5. subst w4. subst w3. subst w2. subst w1.
  split; [|exact C8].
  rewrite F8, F7, F6, F5, F4, F3, F2, F1, insert_insert_eq. reflexivity.
Qed.

Lemma second_seal_replaces_first_witness :
  let events :=
    map (fun n => (Sample.event (VInt n), Sample.record (VInt n)))
        [1; 2; 3; 4; 5; 6; 7; 8]%Z in
  let w' := run (map (fun e => (Sample.clock, Written, fst e)) events) initial_world in
  cached initial_world (str "batch321") = []
  /\ length events = (2 * MAX_PER_BATCH)%nat
  /\ Forall (fun e => valid_event (fst e) (str "batch321") (snd e)) events
  /\ files w'
     = <[artifact_path (str "batch321") Sample.clock
         := artifact_text (map snd (drop MAX_PER_BATCH events))]> (files initial_world)
  /\ cached w' (str "batch321") = [].
Proof.
  intros events w'.
  assert (Hempty : cached initial_world (str "batch321") = [])
    by apply cached_initial_world.
  assert (Hlen : length events = (2 * MAX_PER_BATCH)%nat) by reflexivity.
  assert (Hvalid : Forall (fun e => valid_event (fst e) (str "batch321") (snd e)) events).
  { assert (Hevent : forall n, valid_event (Sample.event (VInt n)) (str "batch321")
                                 (Sample.record (VInt n))).
    { intros n. apply (Valid_event _ _ _ (Sample.reading (VInt n)) Sample.ts (VInt n)
                         Sample.hum Sample.location Sample.productName);
        reflexivity. }
    unfold events. cbn [map].
    repeat (constructor; [apply Hevent|]). constructor. }
  exact (conj Hempty (conj Hlen (conj Hvalid
           (second_seal_replaces_first initial_world (str "batch321") Sample.clock
              events Hempty Hlen Hvalid)))).
Defined.

End HandlerTable.

(** ** The shape of a fingerprint *)

Section FingerprintShape.
Import DataCleaner Ledger.

Lemma compress_length (h block : list Z) :
  length h = 8%nat -> length (SHA256.compress h block) = 8%nat.
Proof.
  intros Hh. unfold SHA256.compress.
  rewrite length_map, length_combine, Hh. reflexivity.
Qed.

Lemma blocks_length (count : nat) (h bs : list Z) :
  length h = 8%nat -> length (SHA256.blocks count h bs) = 8%nat.
Proof.
  revert h bs. induction count as [|count IH]; intros h bs Hh; cbn [SHA256.blocks].
  - exact Hh.
  - apply IH, compress_length, Hh.
Qed.

Lemma be_bytes_length (count : nat) (v : Z) : length (SHA256.be_bytes count v) = count.
Proof. induction count as [|count IH]; cbn; [reflexivity | rewrite IH; reflexivity]. Qed.

Lemma flat_map_be_bytes_length (h : list Z) :
  length (flat_map (SHA256.be_bytes 4) h) = (4 * length h)%nat.
Proof.
  induction h as [|z h IH]; [reflexivity|].
  cbn [flat_map]. rewrite length_app, be_bytes_length, IH. cbn [length]. lia.
Qed.

(** A SHA-256 digest has 32 bytes. *)
Lemma digest_length (data : list byte) : length (SHA256.digest data) = 32%nat.
Proof.
  unfold SHA256.digest. rewrite length_map, flat_map_be_bytes_length.
  rewrite blocks_length; reflexivity.
Qed.

Lemma hex_length (bs : list byte) : length (Hex.hex bs) = (2 * length bs)%nat.
Proof.
  induction bs as [|b bs IH]; [reflexivity|].
  unfold Hex.hex in *. cbn [flat_map length app]. rewrite IH. lia.
Qed.

Lemma hex_lower (bs : list byte) : Forall (fun c => lower_hex c = true) (Hex.hex bs).
Proof.
  induction bs as [|b bs IH]; [constructor|].
  unfold Hex.hex in *. cbn [flat_map app].
  constructor; [destruct b; reflexivity|]. constructor; [destruct b; reflexivity|].
  exact IH.
Qed.

Lemma hexdigest_shape (data : list byte) :
  length (SHA256.hexdigest data) = 64%nat
  /\ Forall (fun c => lower_hex c = true) (SHA256.hexdigest data).
Proof.
  unfold SHA256.hexdigest. split; [|apply hex_lower].
  rewrite hex_length, digest_length. reflexivity.
Qed.

(** X4. Whatever the payload, its fingerprint is a string of 64 lowercase
    hexadecimal digits, which [bytes.fromhex] decodes to the 32 bytes of
    the SHA-256 digest of the payload's JSON text: the hash stored in a
    record is always one that the Merkle root can be computed from. *)
Theorem calc_sha256_shape (payload : value) :
  length (calc_sha256 payload) = 64%nat
  /\ Forall (fun c => lower_hex c = true) (calc_sha256 payload)
  /\ exists digest : list byte,
       Hex.fromhex (calc_sha256 payload) = Returned digest
       /\ length digest = 32%nat
       /\ digest = SHA256.digest (ascii_bytes (Json.dumps None true payload)).
Proof.
  unfold calc_sha256.
  destruct (hexdigest_shape (ascii_bytes (Json.dumps None true payload))) as [Hlen Hlow].
  split; [exact Hlen | split; [exact Hlow|]].
  eexists. split; [apply fromhex_hexdigest | split; [apply digest_length | reflexivity]].
Qed.

End FingerprintShape.

(** ** More on the Merkle root *)

(** One turn of the loop. *)
Lemma levels_step (current : list pystr) :
  Upload.levels current =
  if (length current <=? 1)%nat then list_getitem current 0
  else match Upload.loop_body current with
       | Returned parents => Upload.levels parents
       | Raised e => Raised e
       end.
Proof. exact (levels_unfold current). Qed.

Section MerkleMore.
Import Upload.

Lemma fromhex_raises (s : pystr) (e : exn) : Hex.fromhex s = Raised e -> e = ValueError.
Proof.
  induction s as [s IH] using (well_founded_induction (well_founded_ltof _ (@length codepoint))).
  destruct s as [|c rest]; cbn [Hex.fromhex]; [discriminate|].
  destruct (Hex.is_space c).
  - apply IH. unfold ltof. cbn. lia.
  - destruct (Hex.digit_value c) as [top|]; [|intros [= <-]; reflexivity].
    destruct rest as [|d rest']; [intros [= <-]; reflexivity|].
    destruct (Hex.digit_value d) as [bot|]; [|intros [= <-]; reflexivity].
    destruct (Hex.fromhex rest') as [bs|e'] eqn:E; cbn [mbind outcome_bind]; [discriminate|].
    intros [= <-]. apply (IH rest'); [unfold ltof; cbn; lia | exact E].
Qed.

Lemma not_fingerprint_raises (h : pystr) :
  fingerprint h = false -> Hex.fromhex h = Raised ValueError.
Proof.
  unfold fingerprint. destruct (Hex.fromhex h) as [bs|e] eqn:E; [discriminate|].
  intros _. rewrite (fromhex_raises h e E). reflexivity.
Qed.

(** A level of even length with a string that is not hex in it is not
    passed: the pass raises [ValueError]. *)
Lemma next_level_raises (current : list pystr) :
  Nat.even (length current) = true ->
  forallb fingerprint current = false ->
  next_level current = Raised ValueError.
Proof.
  induction current as [current IH] using
    (well_founded_induction (well_founded_ltof _ (@length pystr))).
  destruct current as [|a [|b rest]]; intros Heven Hbad; try discriminate.
  cbn [next_level].
  destruct (Hex.fromhex a) as [ba|e] eqn:Ea; cbn [mbind outcome_bind];
    [|rewrite (fromhex_raises a e Ea); reflexivity].
  destruct (Hex.fromhex b) as [bb|e] eqn:Eb; cbn [mbind outcome_bind];
    [|rewrite (fromhex_raises b e Eb); reflexivity].
  rewrite IH; [reflexivity | unfold ltof; cbn; lia | exact Heven |].
  cbn [forallb] in Hbad. unfold fingerprint in Hbad at 1 2. rewrite Ea, Eb in Hbad.
  exact Hbad.
Qed.

Lemma forallb_pad_odd (current : list pystr) :
  forallb fingerprint (pad_odd current) = forallb fingerprint current.
Proof.
  unfold pad_odd. destruct (Nat.odd (length current)); [|reflexivity].
  rewrite forallb_app. cbn [forallb]. rewrite andb_true_r.
  destruct (forallb fingerprint current) eqn:E; [|reflexivity]. cbn.
  destruct current as [|a rest]; [reflexivity|].
  rewrite forallb_forall in E. apply E.
  clear E. revert a. induction rest as [|b rest IH]; intros a; [left; reflexivity|].
  right. apply IH.
Qed.

(** X5. The padding makes two lists share a root: a list of odd length,
    of three hashes or more, has the root of the list with its last hash
    repeated once more (whether the call returns or raises). *)
Theorem odd_list_shares_its_root (hash_list : list pystr) :
  Nat.odd (length hash_list) = true ->
  (1 < length hash_list)%nat ->
  compute_merkle_root (hash_list ++ [List.last hash_list []])
  = compute_merkle_root hash_list.
Proof.
  intros Hodd Hlen.
  assert (Hpad : pad_odd hash_list = hash_list ++ [List.last hash_list []])
    by (unfold pad_odd; rewrite Hodd; reflexivity).
  assert (Heven : pad_odd (hash_list ++ [List.last hash_list []])
                  = hash_list ++ [List.last hash_list []]).
  { unfold pad_odd. rewrite length_app, Nat.add_1_r, Nat.odd_succ.
    rewrite <- Nat.negb_odd, Hodd. reflexivity. }
  assert (Hlevels : levels (hash_list ++ [List.last hash_list []]) = levels hash_list).
  { rewrite (levels_step hash_list),
      (levels_step (hash_list ++ [List.last hash_list []])).
    unfold loop_body. rewrite Heven, Hpad.
    destruct (Nat.leb_spec (length hash_list) 1); [lia|].
    destruct (Nat.leb_spec (length (hash_list ++ [List.last hash_list []])) 1);
      [rewrite length_app in *; lia | reflexivity]. }
  unfold compute_merkle_root. rewrite Hlevels.
  destruct hash_list; [discriminate Hodd | reflexivity].
Qed.

Lemma odd_list_shares_its_root_witness :
  let hash_list :=
    [SHA256.hexdigest (ascii_bytes "a"); SHA256.hexdigest (ascii_bytes "b");
     SHA256.hexdigest (ascii_bytes "c")] in
  Nat.odd (length hash_list) = true
  /\ (1 < length hash_list)%nat
  /\ compute_merkle_root (hash_list ++ [List.last hash_list []])
     = compute_merkle_root hash_list.
Proof.
  intros hash_list.
  assert (Hodd : Nat.odd (length hash_list) = true) by reflexivity.
  assert (Hlen : (1 < length hash_list)%nat) by (cbn [length hash_list]; lia).
  exact (conj Hodd (conj Hlen (odd_list_shares_its_root hash_list Hodd Hlen))).
Defined.

(** The parents that a pass gives are hex digests. *)
Lemma next_level_digests (current parents : list pystr) :
  next_level current = Returned parents ->
  Forall (fun h => exists data, h = SHA256.hexdigest data) parents.
Proof.
  revert parents. induction current as [current IH] using
    (well_founded_induction (well_founded_ltof _ (@length pystr))).
  destruct current as [|a [|b rest]]; intros parents; cbn [next_level].
  - intros [= <-]. constructor.
  - destruct (Hex.fromhex a); discriminate.
  - destruct (Hex.fromhex a) as [ba|]; [|discriminate]. cbn [mbind outcome_bind].
    destruct (Hex.fromhex b) as [bb|]; [|discriminate]. cbn [mbind outcome_bind].
    destruct (next_level rest) as [ps|] eqn:E; [|discriminate]. cbn [mbind outcome_bind].
    intros [= <-]. constructor; [eexists; reflexivity|].
    apply (IH rest); [unfold ltof; cbn; lia | exact E].
Qed.

Lemma levels_digest (current : list pystr) (root : pystr) :
  Forall (fun h => exists data, h = SHA256.hexdigest data) current ->
  levels current = Returned root ->
  exists data, root = SHA256.hexdigest data.
Proof.
  revert root. induction current as [current IH] using
    (well_founded_induction (well_founded_ltof _ (@length pystr))).
  intros root Hdigests. rewrite levels_step.
  destruct (Nat.leb_spec (length current) 1) as [Hle|Hgt].
  - destruct current as [|h [|? ?]]; [discriminate| |cbn in Hle; lia].
    intros [= <-]. inversion Hdigests; assumption.
  - unfold loop_body. destruct (next_level (pad_odd current)) as [ps|] eqn:E;
      [|discriminate].
    apply IH; [unfold ltof; eapply level_shrinks; eassumption|].
    eapply next_level_digests, E.
Qed.

(** X6. On two hashes or more the call never returns [None]: when every
    hash is a string that [bytes.fromhex] decodes, it returns a root of 64
    lowercase hexadecimal digits; when some hash is not, it raises
    [ValueError]. *)
Theorem merkle_root_of_many (hash_list : list pystr) :
  (2 <= length hash_list)%nat ->
  (forallb fingerprint hash_list = true ->
     exists root,
       compute_merkle_root hash_list = Returned (Some root)
       /\ length root = 64%nat
       /\ Forall (fun c => Ledger.lower_hex c = true) root)
  /\ (forallb fingerprint hash_list = false ->
      compute_merkle_root hash_list = Raised ValueError).
Proof.
  intros Hlen. unfold compute_merkle_root.
  destruct hash_list as [|h0 rest0] eqn:Hlist; [cbn in Hlen; lia|]. rewrite <- Hlist in *.
  assert (Hne : hash_list <> []) by (rewrite Hlist; discriminate).
  rewrite levels_step.
  destruct (Nat.leb_spec (length hash_list) 1); [lia|]. unfold loop_body. split.
  - intros Hall.
    assert (Hfp : Forall (fun h => fingerprint h = true) hash_list).
    { apply Forall_forall. intros x Hin. rewrite forallb_forall in Hall.
      apply Hall, list_elem_of_In, Hin. }
    destruct (levels_fingerprints hash_list Hne Hfp) as (n & root & _ & _ & Hroot).
    rewrite levels_step in Hroot.
    destruct (Nat.leb_spec (length hash_list) 1); [lia|]. unfold loop_body in Hroot.
    destruct (next_level (pad_odd hash_list)) as [ps|] eqn:E; [|discriminate].
    rewrite Hroot. exists root. split; [reflexivity|].
    destruct (levels_digest ps root (next_level_digests _ _ E) Hroot) as [data ->].
    apply hexdigest_shape.
  - intros Hbad. rewrite next_level_raises; [reflexivity | apply pad_odd_even |].
    rewrite forallb_pad_odd. exact Hbad.
Qed.

Lemma merkle_root_of_many_witness :
  let hash_list := [SHA256.hexdigest (ascii_bytes "a"); str "not hex"] in
  (2 <= length hash_list)%nat
  /\ (forallb fingerprint hash_list = true ->
       exists root,
         compute_merkle_root hash_list = Returned (Some root)
         /\ length root = 64%nat
         /\ Forall (fun c => Ledger.lower_hex c = true) root)
  /\ (forallb fingerprint hash_list = false ->
      compute_merkle_root hash_list = Raised ValueError).
Proof.
  intros hash_list.
  assert (Hlen : (2 <= length hash_list)%nat) by (cbn [length hash_list]; lia).
  exact (conj Hlen (merkle_root_of_many hash_list Hlen)).
Defined.

Lemma next_level_same_bytes (current current' : list pystr) :
  Forall2 (fun h h' => Hex.fromhex h = Hex.fromhex h') current current' ->
  next_level current = next_level current'.
Proof.
  revert current'. induction current as [current IH] using
    (well_founded_induction (well_founded_ltof _ (@length pystr))).
  intros current' Hsame.
  destruct Hsame as [|a a' rest rest' Ha Hrest]; [reflexivity|].
  destruct Hrest as [|b b' rest rest' Hb Hrest]; cbn [next_level].
  - rewrite Ha. reflexivity.
  - assert (Hlt : ltof _ (@length pystr) rest (a :: b :: rest))
      by (unfold ltof; cbn; lia).
    rewrite Ha, Hb, (IH rest Hlt rest' Hrest). reflexivity.
Qed.

Lemma last_same_bytes (current current' : list pystr) :
  Forall2 (fun h h' => Hex.fromhex h = Hex.fromhex h') current current' ->
  Hex.fromhex (List.last current []) = Hex.fromhex (List.last current' []).
Proof.
  induction 1 as [|a a' rest rest' Ha Hrest IH]; [reflexivity|].
  destruct Hrest; [exact Ha | exact IH].
Qed.

(** X7. On two hashes or more the root depends on the bytes that the
    hashes decode to, not on how they are written: two lists whose hashes
    decode alike, one by one (uppercase for lowercase digits, white space
    between the bytes), have the same root, or raise alike. *)
Theorem root_depends_on_bytes (hash_list hash_list' : list pystr) :
  (2 <= length hash_list)%nat ->
  Forall2 (fun h h' => Hex.fromhex h = Hex.fromhex h') hash_list hash_list' ->
  compute_merkle_root hash_list = compute_merkle_root hash_list'.
Proof.
  intros Hlen Hsame. pose proof (Forall2_length _ _ _ Hsame) as Hlength.
  assert (Hpad : Forall2 (fun h h' => Hex.fromhex h = Hex.fromhex h')
                   (pad_odd hash_list) (pad_odd hash_list')).
  { unfold pad_odd. rewrite <- Hlength.
    destruct (Nat.odd (length hash_list)); [|exact Hsame].
    apply Forall2_app; [exact Hsame|]. constructor; [|constructor].
    exact (last_same_bytes _ _ Hsame). }
  unfold compute_merkle_root.
  destruct Hsame as [|h h' rest rest' Hh Hrest]; [reflexivity|].
  rewrite (levels_step (h :: rest)), (levels_step (h' :: rest')).
  rewrite <- Hlength. destruct (Nat.leb_spec (length (h :: rest)) 1); [lia|].
  unfold loop_body. rewrite (next_level_same_bytes _ _ Hpad). reflexivity.
Qed.

Lemma root_depends_on_bytes_witness :
  let hash_list := [str "00ff"; str "a1b2"; str "c3"] in
  let hash_list' := [str "00 FF"; str " A1B2"; str "C3 "] in
  (2 <= length hash_list)%nat
  /\ Forall2 (fun h h' => Hex.fromhex h = Hex.fromhex h') hash_list hash_list'
  /\ compute_merkle_root hash_list = compute_merkle_root hash_list'.
Proof.
  intros hash_list hash_list'.
  assert (Hlen : (2 <= length hash_list)%nat) by (cbn [length hash_list]; lia).
  assert (Hsame : Forall2 (fun h h' => Hex.fromhex h = Hex.fromhex h')
                    hash_list hash_list')
    by (repeat (constructor; [vm_compute; reflexivity|]); constructor).
  exact (conj Hlen (conj Hsame (root_depends_on_bytes hash_list hash_list' Hlen Hsame))).
Defined.

End MerkleMore.

(** ** Splitting strings, and the names of the batch files *)

Section FileNames.
Import DataCleaner UploadBatch.

Lemma split_nonempty (sep : codepoint) (s : pystr) : split sep s <> [].
Proof.
  induction s as [|c s IH]; cbn; [discriminate|].
  destruct (N.eqb c sep); [discriminate|].
  destruct (split sep s); [congruence | discriminate].
Qed.

(** No piece of a split holds the separator. *)
Lemma split_pieces (sep : codepoint) (s piece : pystr) :
  piece ∈ split sep s -> sep ∉ piece.
Proof.
  revert piece. induction s as [|c s IH]; cbn; intros piece Hin.
  - apply list_elem_of_singleton in Hin as ->. apply not_elem_of_nil.
  - destruct (N.eqb_spec c sep) as [->|Hne].
    + apply elem_of_cons in Hin as [->|Hin]; [apply not_elem_of_nil | apply IH, Hin].
    + destruct (split sep s) as [|p ps] eqn:E; [destruct (split_nonempty sep s E)|].
      apply elem_of_cons in Hin as [->|Hin].
      * intros Hsep. apply elem_of_cons in Hsep as [Heq|Hsep]; [congruence|].
        apply (IH p); [left | exact Hsep].
      * apply IH. right. exact Hin.
Qed.

Lemma split_without_separator (sep : codepoint) (s : pystr) :
  sep ∉ s -> split sep s = [s].
Proof.
  induction s as [|c s IH]; cbn; intros Hnot; [reflexivity|].
  destruct (N.eqb_spec c sep) as [->|Hne]; [destruct Hnot; left|].
  rewrite IH; [reflexivity|]. intros Hin. apply Hnot. right. exact Hin.
Qed.

(** The first piece of a string is that of what comes before a
    separator. *)
Lemma first_piece_app (sep : codepoint) (s rest : pystr) :
  hd [] (split sep (s ++ sep :: rest)) = hd [] (split sep s).
Proof.
  induction s as [|c s IH]; cbn.
  - rewrite N.eqb_refl. reflexivity.
  - destruct (N.eqb c sep); [reflexivity|].
    destruct (split sep (s ++ sep :: rest)) as [|p ps] eqn:E;
      [destruct (split_nonempty _ _ E)|].
    destruct (split sep s) as [|q qs] eqn:E'; [destruct (split_nonempty _ _ E')|].
    cbn in *. rewrite IH. reflexivity.
Qed.

(** A string with the separator in it has two pieces or more. *)
Lemma split_with_separator (sep : codepoint) (s : pystr) :
  sep ∈ s -> (2 <= length (split sep s))%nat.
Proof.
  induction s as [|c s IH]; intros Hin; [apply elem_of_nil in Hin; destruct Hin|].
  cbn. destruct (N.eqb_spec c sep) as [->|Hne].
  - destruct (split sep s) eqn:E; [destruct (split_nonempty _ _ E) | cbn; lia].
  - apply elem_of_cons in Hin as [Heq|Hin]; [congruence|].
    specialize (IH Hin). destruct (split sep s) as [|p ps]; cbn in *; lia.
Qed.

(** The last piece of a string is that of what comes after a separator. *)
Lemma last_piece_app (sep : codepoint) (s rest : pystr) :
  List.last (split sep (s ++ sep :: rest)) [] = List.last (split sep rest) [].
Proof.
  induction s as [|c s IH]; cbn.
  - rewrite N.eqb_refl.
    destruct (split sep rest) eqn:E; [destruct (split_nonempty _ _ E) | reflexivity].
  - assert (Hin : sep ∈ s ++ sep :: rest) by (apply elem_of_app; right; left).
    pose proof (split_with_separator sep _ Hin) as Hlen.
    destruct (split sep (s ++ sep :: rest)) as [|p [|p' ps]];
      [cbn in Hlen; lia | cbn in Hlen; lia |].
    destruct (N.eqb c sep); exact IH.
Qed.

Lemma basename_join (dir name : pystr) :
  slash ∉ name -> basename (path_join dir name) = name.
Proof.
  intros Hname. unfold basename, path_join.
  change (str "/" ++ name) with (slash :: name).
  fold slash. rewrite last_piece_app, (split_without_separator _ _ Hname). reflexivity.
Qed.

(** X8. The batch id that [process_batch_file] reads from the name of a
    file written by the handler is the key of the batch only up to its
    first underscore: it is the key itself exactly when the key has no
    underscore in it, whatever the time of the flush. *)
Theorem batch_id_of_sealed_file (m : message) (key : pystr) (record : value)
    (timestamp : pystr) :
  valid_event m key record ->
  slash ∉ timestamp ->
  batch_id_of_path (artifact_path key timestamp) = hd [] (split underscore key)
  /\ (batch_id_of_path (artifact_path key timestamp) = key <-> underscore ∉ key).
Proof.
  intros [items ts temp hum location productName _ Hkey _ _ _ _ _ _ _ _] Htime.
  assert (Hslash : slash ∉ key).
  { apply (split_pieces slash (routing_key m)). eapply list_elem_of_lookup_2, Hkey. }
  assert (Hname : slash ∉ (key ++ str "_" ++ timestamp ++ str ".json")).
  { intros Hin. apply elem_of_app in Hin as [Hin|Hin]; [exact (Hslash Hin)|].
    apply elem_of_app in Hin as [Hin|Hin];
      [revert Hin; apply (bool_decide_unpack _); vm_compute; exact I|].
    apply elem_of_app in Hin as [Hin|Hin]; [exact (Htime Hin)|].
    revert Hin. apply (bool_decide_unpack _). vm_compute. exact I. }
  assert (Hid : batch_id_of_path (artifact_path key timestamp)
                = hd [] (split underscore key)).
  { unfold batch_id_of_path, artifact_path. rewrite (basename_join _ _ Hname).
    change (str "_" ++ timestamp ++ str ".json")
      with (underscore :: (timestamp ++ str ".json")).
    apply first_piece_app. }
  split; [exact Hid|]. rewrite Hid. split.
  - intros Heq. apply (split_pieces underscore key). rewrite <- Heq at 1.
    destruct (split underscore key) eqn:E; [destruct (split_nonempty _ _ E) | left].
  - intros Hnot. rewrite (split_without_separator _ _ Hnot). reflexivity.
Qed.

Lemma batch_id_of_sealed_file_witness :
  valid_event (Sample.event (VInt 1)) (str "batch321") (Sample.record (VInt 1))
  /\ (slash ∉ Sample.clock)
  /\ batch_id_of_path (artifact_path (str "batch321") Sample.clock)
     = hd [] (split underscore (str "batch321"))
  /\ (batch_id_of_path (artifact_path (str "batch321") Sample.clock) = str "batch321"
      <-> underscore ∉ str "batch321").
Proof.
  assert (Hvalid : valid_event (Sample.event (VInt 1)) (str "batch321")
                     (Sample.record (VInt 1))).
  { apply (Valid_event _ _ _ (Sample.reading (VInt 1)) Sample.ts (VInt 1) Sample.hum
             Sample.location Sample.productName); reflexivity. }
  assert (Htime : slash ∉ Sample.clock)
    by (apply (bool_decide_unpack _); vm_compute; exact I).
  exact (conj Hvalid (conj Htime
           (batch_id_of_sealed_file (Sample.event (VInt 1)) (str "batch321")
              (Sample.record (VInt 1)) Sample.clock Hvalid Htime))).
Defined.

End FileNames.

(** ** Indexing the batch files *)

Section Indexing.
Import DataCleaner UploadBatch.

Lemma last_map_VStr (hashes : list pystr) :
  hashes <> [] -> List.last (map VStr hashes) VNone = VStr (List.last hashes []).
Proof.
  induction hashes as [|h [|h' rest] IH]; intros Hne; [congruence | reflexivity|].
  change (List.last (map VStr (h' :: rest)) VNone = VStr (List.last (h' :: rest) [])).
  apply IH. discriminate.
Qed.

Lemma pad_last_strings (hashes : list pystr) :
  pad_last (map VStr hashes) = map VStr (Upload.pad_odd hashes).
Proof.
  unfold pad_last, Upload.pad_odd. rewrite length_map.
  destruct (Nat.odd (length hashes)) eqn:E; [|reflexivity].
  rewrite map_app, last_map_VStr; [reflexivity|]. intros ->. discriminate E.
Qed.

(** A pass over a level of even length decodes the hashes in order and
    gives the digests of the pairs. *)
Lemma next_level_decoded (current : list pystr) :
  Nat.even (length current) = true ->
  Upload.next_level current
  = (decoded ← decode_all (map VStr current); Returned (pair_digests decoded)).
Proof.
  induction current as [current IH] using
    (well_founded_induction (well_founded_ltof _ (@length pystr))).
  destruct current as [|a [|b rest]]; intros Heven; [reflexivity | discriminate|].
  cbn [Upload.next_level map decode_all fromhex_value].
  destruct (Hex.fromhex a) as [ba|]; cbn [mbind outcome_bind]; [|reflexivity].
  destruct (Hex.fromhex b) as [bb|]; cbn [mbind outcome_bind]; [|reflexivity].
  rewrite (IH rest); [|unfold ltof; cbn; lia | exact Heven].
  destruct (decode_all (map VStr rest)); reflexivity.
Qed.

(** On hashes that are strings the two renderings of
    [compute_merkle_root] agree. *)
Lemma compute_merkle_root_strings (hashes : list pystr) :
  compute_merkle_root (map VStr hashes)
  = match Upload.compute_merkle_root hashes with
    | Returned root => Returned (option_map VStr root)
    | Raised e => Raised e
    end.
Proof.
  destruct hashes as [|h [|h' rest]]; [reflexivity | |].
  - unfold Upload.compute_merkle_root. rewrite levels_step. reflexivity.
  - set (hashes := h :: h' :: rest).
    change (compute_merkle_root (map VStr hashes))
      with (decoded ← decode_all (pad_last (map VStr hashes));
            root ← Upload.levels (pair_digests decoded);
            Returned (Some (VStr root))).
    unfold Upload.compute_merkle_root. change (match hashes with [] => _ | _ => ?x end) with x.
    rewrite (levels_step hashes). cbn [length hashes Nat.leb].
    unfold Upload.loop_body.
    rewrite (next_level_decoded _ (pad_odd_even hashes)), pad_last_strings.
    destruct (decode_all (map VStr (Upload.pad_odd hashes))) as [decoded|];
      cbn [mbind outcome_bind]; [|reflexivity].
    destruct (Upload.levels (pair_digests decoded)); reflexivity.
Qed.

Arguments str : simpl never.
Arguments calc_sha256 : simpl never.

Lemma hash_of_record (key : pystr) (payload : list (pystr * value))
    (ts temp hum location productName : value) :
  getitem (record_of key payload ts temp hum location productName) (str "hash")
  = Returned (VStr (calc_sha256 (VDict payload))).
Proof.
  unfold record_of, getitem. cbn [dict_lookup].
  repeat (destruct (decide _) as [Heq|_]; [vm_compute in Heq; discriminate Heq|]).
  destruct (decide _) as [_|Hne]; [reflexivity | destruct Hne; reflexivity].
Qed.

Lemma hashes_of_records (records : list value) (payloads : list (list (pystr * value))) :
  Forall2 (fun record payload =>
             exists key ts temp hum location productName,
               record = record_of key payload ts temp hum location productName)
          records payloads ->
  hashes_of records
  = Returned (map VStr (map (fun payload => calc_sha256 (VDict payload)) payloads)).
Proof.
  induction 1 as [|record payload records payloads
                   (key & ts & temp & hum & location & productName & ->) _ IH];
    [reflexivity|].
  cbn [hashes_of map]. rewrite hash_of_record, IH. reflexivity.
Qed.

(** X9. A file that holds records made by the handler, one or more, is
    indexed whenever the IPFS command succeeds: no hash is missing or
    fails to decode, the file is uploaded once, and the one row inserted
    carries the batch id read from the file name, the content identifier
    printed by the command without the white space around it, the Merkle
    root of the fingerprints of the payloads in the order of the file,
    and the number of records. *)
Theorem handler_records_are_indexed (cli : pystr -> completed) (now path : pystr)
    (s : store) (records : list value) (payloads : list (list (pystr * value))) :
  Forall2 (fun record payload =>
             exists key ts temp hum location productName,
               record = record_of key payload ts temp hum location productName)
          records payloads ->
  records <> [] ->
  returncode (cli path) = 0 ->
  exists root : pystr,
    Upload.compute_merkle_root
      (map (fun payload => calc_sha256 (VDict payload)) payloads)
    = Returned (Some root)
    /\ process_batch_file cli now path (Returned (VList records)) s
       = (Done tt,
          Store (uploads s ++ [path])
                (inserted s ++ [Row (batch_id_of_path path) (strip (stdout (cli path)))
                                    (Some (VStr root)) (length records) now])).
Proof.
  intros Hmade Hne Hcode.
  set (hashes := map (fun payload => calc_sha256 (VDict payload)) payloads).
  assert (Hhashes : hashes <> []).
  { unfold hashes. destruct Hmade; [congruence | discriminate]. }
  assert (Hfp : Forall (fun h => Upload.fingerprint h = true) hashes).
  { unfold hashes. apply Forall_forall. intros h Hin.
    apply list_elem_of_In, in_map_iff in Hin as (payload & <- & _).
    apply fingerprint_hexdigest. }
  destruct (levels_fingerprints hashes Hhashes Hfp) as (n & root & _ & _ & Hroot).
  assert (Hresult : Upload.compute_merkle_root hashes = Returned (Some root)).
  { unfold Upload.compute_merkle_root. rewrite Hroot.
    destruct hashes; [congruence | reflexivity]. }
  exists root. split; [exact Hresult|].
  unfold process_batch_file. cbn [iterate len mbind outcome_bind].
  rewrite (hashes_of_records records payloads Hmade). cbn [mbind outcome_bind].
  fold hashes. rewrite compute_merkle_root_strings, Hresult. cbn [option_map].
  unfold upload_file_via_cli. rewrite Hcode. reflexivity.
Qed.

Lemma handler_records_are_indexed_witness :
  let records :=
    [Sample.record (VInt 1); Sample.record (VInt 2);
     Sample.record (VInt 3); Sample.record (VInt 4)] in
  let payloads :=
    [Sample.reading (VInt 1); Sample.reading (VInt 2);
     Sample.reading (VInt 3); Sample.reading (VInt 4)] in
  let cli := fun _ : pystr => Completed 0 (str "QmSampleContentIdentifier" ++ [10%N]) [] in
  let path := artifact_path (str "batch321") Sample.clock in
  let s := Store [] [] in
  Forall2 (fun record payload =>
             exists key ts temp hum location productName,
               record = record_of key payload ts temp hum location productName)
          records payloads
  /\ records <> []
  /\ returncode (cli path) = 0
  /\ exists root : pystr,
       Upload.compute_merkle_root
         (map (fun payload => calc_sha256 (VDict payload)) payloads)
       = Returned (Some root)
       /\ process_batch_file cli Sample.clock path (Returned (VList records)) s
          = (Done tt,
             Store (uploads s ++ [path])
                   (inserted s ++ [Row (batch_id_of_path path)
                                       (strip (stdout (cli path)))
                                       (Some (VStr root)) (length records)
                                       Sample.clock])).
Proof.
  intros records payloads cli path s.
  assert (Hmade : Forall2 (fun record payload =>
             exists key ts temp hum location productName,
               record = record_of key payload ts temp hum location productName)
          records payloads).
  { repeat (constructor;
            [exists (str "batch321"), Sample.ts; eexists; exists Sample.hum,
               Sample.location, Sample.productName; reflexivity|]).
    constructor. }
  assert (Hne : records <> []) by discriminate.
  assert (Hcode : returncode (cli path) = 0) by reflexivity.
  exact (conj Hmade (conj Hne (conj Hcode
           (handler_records_are_indexed cli Sample.clock path s records payloads
              Hmade Hne Hcode)))).
Defined.

Lemma iterate_len (records : value) (recs : list value) :
  iterate records = Returned recs -> len records = Returned (length recs).
Proof.
  destruct records; cbn; try discriminate; intros [= <-];
    rewrite ?length_map; reflexivity.
Qed.

(** X10. [process_batch_file] inserts a row only after a successful
    upload. When the content of the file is at fault (it is not JSON,
    cannot be iterated, a record has no [hash], a hash does not decode)
    nothing is uploaded and nothing inserted; when the IPFS command fails
    the file was given to it but no row is inserted; and when the call
    returns, the file was uploaded once and exactly one row inserted. *)
Theorem rows_follow_uploads (cli : pystr -> completed) (now path : pystr)
    (loaded : outcome value) (s : store) :
  match process_batch_file cli now path loaded s with
  | (Done _, s') =>
      returncode (cli path) = 0
      /\ uploads s' = uploads s ++ [path]
      /\ exists root count,
           inserted s' = inserted s ++ [Row (batch_id_of_path path)
                                            (strip (stdout (cli path))) root count now]
  | (Failed (Python e), s') => s' = s
  | (Failed (RuntimeError message), s') =>
      returncode (cli path) <> 0
      /\ uploads s' = uploads s ++ [path]
      /\ inserted s' = inserted s
  end.
Proof.
  unfold process_batch_file.
  destruct loaded as [records|e]; [|reflexivity].
  destruct (iterate records) as [recs|e] eqn:Hiter; cbn [mbind outcome_bind];
    [|reflexivity].
  destruct (hashes_of recs) as [hashes|e]; cbn [mbind outcome_bind]; [|reflexivity].
  destruct (compute_merkle_root hashes) as [root|e]; [|reflexivity].
  unfold upload_file_via_cli. rewrite (iterate_len _ _ Hiter).
  destruct (Z.eqb_spec (returncode (cli path)) 0) as [Hcode|Hcode].
  - split; [exact Hcode | split; [reflexivity | eauto]].
  - split; [exact Hcode | split; reflexivity].
Qed.

(** What a call of [process_batch_file] leaves of the store. *)
Lemma process_batch_file_store (cli : pystr -> completed) (now path : pystr)
    (loaded : outcome value) (s : store) :
  match process_batch_file cli now path loaded s with
  | (Done _, s') =>
      uploads s' = uploads s ++ [path]
      /\ exists r : row,
           inserted s' = inserted s ++ [r] /\ batch_id r = batch_id_of_path path
  | (Failed (Python e), s') => s' = s
  | (Failed (RuntimeError message), s') => uploads s' = uploads s ++ [path]
  end.
Proof.
  unfold process_batch_file.
  destruct loaded as [records|e]; [|reflexivity].
  destruct (iterate records) as [recs|e] eqn:Hiter; cbn [mbind outcome_bind];
    [|reflexivity].
  destruct (hashes_of recs) as [hashes|e]; cbn [mbind outcome_bind]; [|reflexivity].
  destruct (compute_merkle_root hashes) as [root|e]; [|reflexivity].
  unfold upload_file_via_cli. rewrite (iterate_len _ _ Hiter).
  destruct (returncode (cli path) =? 0)%Z; [|reflexivity].
  split; [reflexivity|]. eexists. split; reflexivity.
Qed.

(** X11. [main] gives to IPFS only entries whose name ends in [.json], in
    the order of the listing, and stops at the first entry that fails:
    the uploads are those of the first so many of the [.json] entries,
    and of all of them when [main] returns. In that case one
    [INSERT IGNORE] statement was executed for each of them, in the same
    order, with the batch id read from the name of the entry. These are
    the statements, not the rows of the table: two entries of one batch
    id make two statements for the same primary key, and what the table
    keeps of them is the database's matter, which is not modelled. *)
Theorem main_takes_json_entries (cli : pystr -> completed) (listing : list entry)
    (s : store) :
  exists taken : list entry,
    taken `prefix_of` List.filter is_json listing
    /\ uploads (snd (main cli listing s)) = uploads s ++ map entry_path taken
    /\ (fst (main cli listing s) = Done tt ->
        taken = List.filter is_json listing
        /\ exists statements : list row,
             inserted (snd (main cli listing s)) = inserted s ++ statements
             /\ map batch_id statements
                = map (fun e => batch_id_of_path (entry_path e)) taken).
Proof.
  revert s. induction listing as [|e rest IH]; intros s.
  - exists []. cbn. rewrite app_nil_r. repeat split; try reflexivity.
    exists []. rewrite app_nil_r. split; reflexivity.
  - cbn [main List.filter].
    destruct (is_json e); [|apply IH].
    pose proof (process_batch_file_store cli (processed_at e) (entry_path e)
                  (content e) s) as Hstep.
    destruct (process_batch_file cli (processed_at e) (entry_path e) (content e) s)
      as [[[]|[err|message]] s'].
    + destruct Hstep as (Hup & r & Hins & Hid).
      destruct (IH s') as (taken & Hprefix & Huploads & Hdone).
      exists (e :: taken). split; [apply prefix_cons, Hprefix|]. split.
      * rewrite Huploads, Hup, <- app_assoc. reflexivity.
      * intros Hret. destruct (Hdone Hret) as (-> & statements & Hrows & Hids).
        split; [reflexivity|]. exists (r :: statements). split.
        -- rewrite Hrows, Hins, <- app_assoc. reflexivity.
        -- cbn [map]. rewrite Hid, Hids. reflexivity.
    + subst s'. exists []. split; [apply prefix_nil|]. split.
      * cbn. rewrite app_nil_r. reflexivity.
      * discriminate.
    + exists [e].
      split; [apply prefix_cons, prefix_nil|]. split; [exact Hstep | discriminate].
Qed.

End Indexing.

(** ** The gateway in front of the handler *)

Section GatewayChecks.
Import DataCleaner Ledger.

Arguments str : simpl never.
Arguments Json.dumps : simpl never.

Lemma required_keys_found (items : list (pystr * value)) (temp hum ts : value) :
  dict_lookup (str "temp") items = Some temp ->
  dict_lookup (str "hum") items = Some hum ->
  dict_lookup (str "ts") items = Some ts ->
  Gateway.all_in (VDict items) Gateway.required = Returned true.
Proof.
  intros Htemp Hhum Hts. unfold Gateway.required.
  cbn [Gateway.all_in Gateway.contains]. unfold has_key.
  rewrite Htemp, Hhum, Hts. reflexivity.
Qed.

Lemma on_message_forwards (loads : pystr -> outcome value) (msg : Gateway.mqtt_message)
    (sent : list Gateway.publication) (text : pystr) (payload : value) :
  Gateway.decoded msg = Returned text ->
  Gateway.unwrap text <> [] ->
  loads (Gateway.unwrap text) = Returned payload ->
  Gateway.all_in payload Gateway.required = Returned true ->
  Gateway.on_message loads msg sent
  = (Returned tt,
     sent ++ [Gateway.Publication (Gateway.topic msg) (Json.dumps None false payload)]).
Proof.
  intros Htext Hraw Hloads Hall. unfold Gateway.on_message.
  rewrite Htext. destruct (Gateway.unwrap text); [congruence|].
  rewrite Hloads, Hall. reflexivity.
Qed.

(** X12. The gateway drops no event that the handler would batch: when
    the text that the gateway parses decodes to the payload of a valid
    event, the gateway publishes it, under the topic of the message and
    written by [json.dumps] with the keys in the order received. The
    check of the gateway ([temp], [hum] and [ts] are there) is implied by
    that of the handler. *)
Theorem gateway_passes_valid_events (loads : pystr -> outcome value)
    (msg : Gateway.mqtt_message) (sent : list Gateway.publication) (text : pystr)
    (m : message) (batch_id : pystr) (record : value) :
  valid_event m batch_id record ->
  Gateway.decoded msg = Returned text ->
  Gateway.unwrap text <> [] ->
  loads (Gateway.unwrap text) = loads_body m ->
  exists payload : value,
    loads_body m = Returned payload
    /\ Gateway.on_message loads msg sent
       = (Returned tt,
          sent ++ [Gateway.Publication (Gateway.topic msg)
                                       (Json.dumps None false payload)]).
Proof.
  intros [items ts temp hum location productName
          Hbody _ Htemp _ Hhum _ Hts _ _ _] Htext Hraw Hloads.
  exists (VDict items). split; [exact Hbody|].
  apply (on_message_forwards loads msg sent text (VDict items) Htext Hraw).
  - rewrite Hloads. exact Hbody.
  - exact (required_keys_found items temp hum ts Htemp Hhum Hts).
Qed.

Lemma gateway_passes_valid_events_witness :
  let loads := fun _ : pystr => Returned (VDict (Sample.reading (VInt 1))) in
  let text := str " 'reading' " in
  let msg := Gateway.Mqtt (str "coldchain/batch321/sensor") (Returned text) in
  let m := Sample.event (VInt 1) in
  valid_event m (str "batch321") (Sample.record (VInt 1))
  /\ Gateway.decoded msg = Returned text
  /\ Gateway.unwrap text <> []
  /\ loads (Gateway.unwrap text) = loads_body m
  /\ exists payload : value,
       loads_body m = Returned payload
       /\ Gateway.on_message loads msg []
          = (Returned tt,
             [] ++ [Gateway.Publication (Gateway.topic msg)
                                        (Json.dumps None false payload)]).
Proof.
  intros loads text msg m.
  assert (Hvalid : valid_event m (str "batch321") (Sample.record (VInt 1))).
  { apply event_of_valid. vm_compute. reflexivity. }
  assert (Htext : Gateway.decoded msg = Returned text) by reflexivity.
  assert (Hraw : Gateway.unwrap text <> []) by (vm_compute; discriminate).
  assert (Hloads : loads (Gateway.unwrap text) = loads_body m) by reflexivity.
  exact (conj Hvalid (conj Htext (conj Hraw (conj Hloads
           (gateway_passes_valid_events loads msg [] text m (str "batch321")
              (Sample.record (VInt 1)) Hvalid Htext Hraw Hloads))))).
Defined.

Lemma names_found (l : list value) (k : pystr) :
  In (VStr k) l -> Gateway.contains (VList l) k = Returned true.
Proof.
  intros Hin. cbn [Gateway.contains]. f_equal. apply existsb_exists.
  exists (VStr k). split; [exact Hin | apply bool_decide_eq_true; reflexivity].
Qed.

(** X13. The check of the gateway does not ask for a JSON object: an
    array that has the strings [temp], [hum] and [ts] among its items is
    published like a reading. The handler refuses every delivery whose
    body is an array: it answers with [basic_nack] without requeue and
    leaves the cache and the files as they were. *)
Theorem array_is_forwarded_then_refused (loads : pystr -> outcome value)
    (msg : Gateway.mqtt_message) (sent : list Gateway.publication) (text : pystr)
    (l : list value) :
  In (VStr (str "temp")) l -> In (VStr (str "hum")) l -> In (VStr (str "ts")) l ->
  Gateway.decoded msg = Returned text ->
  Gateway.unwrap text <> [] ->
  loads (Gateway.unwrap text) = Returned (VList l) ->
  Gateway.on_message loads msg sent
  = (Returned tt,
     sent ++ [Gateway.Publication (Gateway.topic msg) (Json.dumps None false (VList l))])
  /\ forall (timestamp : pystr) (disk : disk_reply) (m : message) (w : world),
       loads_body m = Returned (VList l) ->
       on_message timestamp disk m w
       = World (batch_cache w) (files w)
               (channel w ++ [basic_nack (delivery_tag m) false]).
Proof.
  intros Htemp Hhum Hts Htext Hraw Hloads. split.
  - apply (on_message_forwards loads msg sent text (VList l) Htext Hraw Hloads).
    unfold Gateway.required. cbn [Gateway.all_in].
    rewrite (names_found l _ Htemp), (names_found l _ Hhum), (names_found l _ Hts).
    reflexivity.
  - intros timestamp disk m w Hbody. rewrite on_message_event_of.
    unfold event_of, reply_to, acknowledged. rewrite Hbody. reflexivity.
Qed.

Lemma array_is_forwarded_then_refused_witness :
  let l := [VStr (str "ts"); VInt 4; VStr (str "temp"); VStr (str "hum")] in
  let loads := fun _ : pystr => Returned (VList l) in
  let text := str "names" in
  let msg := Gateway.Mqtt (str "coldchain/batch321/sensor") (Returned text) in
  In (VStr (str "temp")) l /\ In (VStr (str "hum")) l /\ In (VStr (str "ts")) l
  /\ Gateway.decoded msg = Returned text
  /\ Gateway.unwrap text <> []
  /\ loads (Gateway.unwrap text) = Returned (VList l)
  /\ (Gateway.on_message loads msg []
      = (Returned tt,
         [] ++ [Gateway.Publication (Gateway.topic msg)
                                    (Json.dumps None false (VList l))])
      /\ forall (timestamp : pystr) (disk : disk_reply) (m : message) (w : world),
           loads_body m = Returned (VList l) ->
           on_message timestamp disk m w
           = World (batch_cache w) (files w)
                   (channel w ++ [basic_nack (delivery_tag m) false])).
Proof.
  intros l loads text msg.
  assert (Htemp : In (VStr (str "temp")) l) by (right; right; left; reflexivity).
  assert (Hhum : In (VStr (str "hum")) l) by (right; right; right; left; reflexivity).
  assert (Hts : In (VStr (str "ts")) l) by (left; reflexivity).
  assert (Htext : Gateway.decoded msg = Returned text) by reflexivity.
  assert (Hraw : Gateway.unwrap text <> []) by (vm_compute; discriminate).
  assert (Hloads : loads (Gateway.unwrap text) = Returned (VList l)) by reflexivity.
  exact (conj Htemp (conj Hhum (conj Hts (conj Htext (conj Hraw (conj Hloads
           (array_is_forwarded_then_refused loads msg [] text l
              Htemp Hhum Hts Htext Hraw Hloads))))))).
Defined.

Lemma lstrip_kept (c : codepoint) (s : pystr) :
  is_whitespace c = false -> lstrip (c :: s) = c :: s.
Proof. intros Hc. cbn [lstrip]. rewrite Hc. reflexivity. Qed.

Lemma strip_between (q : codepoint) (inner : pystr) :
  is_whitespace q = false -> strip (q :: inner ++ [q]) = q :: inner ++ [q].
Proof.
  intros Hq. unfold strip. rewrite (lstrip_kept q _ Hq).
  replace (List.rev (q :: inner ++ [q])) with (q :: List.rev inner ++ [q]).
  - rewrite (lstrip_kept q _ Hq).
    change (q :: List.rev inner ++ [q]) with ((q :: List.rev inner) ++ [q]).
    rewrite List.rev_app_distr. cbn [List.rev app].
    rewrite List.rev_involutive. reflexivity.
  - cbn [List.rev]. rewrite List.rev_app_distr. reflexivity.
Qed.

Lemma quoted_between (q : codepoint) (inner : pystr) :
  q = Gateway.single_quote \/ q = Gateway.double_quote ->
  Gateway.quoted (q :: inner ++ [q]) = true.
Proof.
  intros Hq. unfold Gateway.quoted, endswith.
  replace (List.rev (q :: inner ++ [q])) with (q :: List.rev inner ++ [q])
    by (cbn [List.rev]; rewrite List.rev_app_distr; reflexivity).
  destruct Hq as [-> | ->]; reflexivity.
Qed.

(** X14. One pair of quotes around the text is taken off, and no more:
    a text between two single or two double quotes is handled as the
    text between them, provided that this text, without the white space
    around it, is not itself between quotes. *)
Theorem quotes_are_peeled_once (loads : pystr -> outcome value) (topic : pystr)
    (sent : list Gateway.publication) (q : codepoint) (inner : pystr) :
  q = Gateway.single_quote \/ q = Gateway.double_quote ->
  Gateway.quoted (strip inner) = false ->
  Gateway.unwrap (q :: inner ++ [q]) = strip inner
  /\ Gateway.on_message loads (Gateway.Mqtt topic (Returned (q :: inner ++ [q]))) sent
     = Gateway.on_message loads (Gateway.Mqtt topic (Returned inner)) sent.
Proof.
  intros Hq Hplain.
  assert (Hws : is_whitespace q = false) by (destruct Hq as [-> | ->]; reflexivity).
  assert (Hunwrap : Gateway.unwrap (q :: inner ++ [q]) = strip inner).
  { unfold Gateway.unwrap. rewrite (strip_between q inner Hws).
    rewrite (quoted_between q inner Hq). unfold Gateway.peel. cbn [tl].
    rewrite removelast_last. reflexivity. }
  split; [exact Hunwrap|].
  unfold Gateway.on_message. cbn [Gateway.decoded Gateway.topic].
  rewrite Hunwrap. unfold Gateway.unwrap. rewrite Hplain. reflexivity.
Qed.

Lemma quotes_are_peeled_once_witness :
  let loads := fun _ : pystr => Returned (VDict (Sample.reading (VInt 1))) in
  let topic := str "coldchain/batch321/sensor" in
  let q := Gateway.double_quote in
  let inner := str " reading " in
  (q = Gateway.single_quote \/ q = Gateway.double_quote)
  /\ Gateway.quoted (strip inner) = false
  /\ Gateway.unwrap (q :: inner ++ [q]) = strip inner
  /\ Gateway.on_message loads (Gateway.Mqtt topic (Returned (q :: inner ++ [q]))) []
     = Gateway.on_message loads (Gateway.Mqtt topic (Returned inner)) [].
Proof.
  intros loads topic q inner.
  assert (Hq : q = Gateway.single_quote \/ q = Gateway.double_quote)
    by (right; reflexivity).
  assert (Hplain : Gateway.quoted (strip inner) = false) by (vm_compute; reflexivity).
  exact (conj Hq (conj Hplain
           (quotes_are_peeled_once loads topic [] q inner Hq Hplain))).
Defined.

End GatewayChecks.

(** ** From the topic to the batch *)

Section Topics.
Import DataCleaner.

Lemma second_piece (sep : codepoint) (before piece after : pystr) :
  sep ∉ before -> sep ∉ piece ->
  split sep (before ++ sep :: piece ++ sep :: after) !! 1%nat = Some piece.
Proof.
  intros Hbefore Hpiece. induction before as [|c before IH]; cbn [app split].
  - rewrite N.eqb_refl. cbn [lookup list_lookup].
    pose proof (first_piece_app sep piece after) as Hfirst.
    rewrite (split_without_separator _ _ Hpiece) in Hfirst. cbn [hd] in Hfirst.
    destruct (split sep (piece ++ sep :: after)) as [|p ps] eqn:E;
      [destruct (split_nonempty _ _ E)|].
    cbn [hd] in Hfirst. subst p. reflexivity.
  - destruct (N.eqb_spec c sep) as [->|Hne]; [destruct Hbefore; left|].
    assert (Hrest : sep ∉ before) by (intros Hin; apply Hbefore; right; exact Hin).
    specialize (IH Hrest).
    destruct (split sep (before ++ sep :: piece ++ sep :: after)) as [|p ps];
      [discriminate IH | exact IH].
Qed.

(** X15. The gateway subscribes to [coldchain/+/sensor] and publishes
    under the topic of the message, and the handler takes the second
    piece of the routing key as the batch id: a valid event of topic
    [coldchain/<device>/sensor] is batched under [<device>], the level
    that the [+] of the subscription stands for (which holds no [/]). *)
Theorem batch_id_is_topic_level (m : message) (device batch_id : pystr)
    (record : value) :
  slash ∉ device ->
  routing_key m = str "coldchain/" ++ device ++ str "/sensor" ->
  valid_event m batch_id record ->
  batch_id = device.
Proof.
  intros Hdevice Htopic [items ts temp hum location productName
                         _ Hkey _ _ _ _ _ _ _ _].
  rewrite Htopic in Hkey.
  change (str "coldchain/" ++ device ++ str "/sensor")
    with (str "coldchain" ++ slash :: device ++ slash :: str "sensor") in Hkey.
  rewrite second_piece in Hkey; [congruence | | exact Hdevice].
  vm_compute. intros Hin. repeat (apply elem_of_cons in Hin as [Hin|Hin];
                                  [discriminate Hin|]).
  apply elem_of_nil in Hin. exact Hin.
Qed.

Lemma batch_id_is_topic_level_witness :
  let m := Sample.event (VInt 1) in
  (slash ∉ str "batch321")
  /\ routing_key m = str "coldchain/" ++ str "batch321" ++ str "/sensor"
  /\ valid_event m (str "batch321") (Sample.record (VInt 1))
  /\ str "batch321" = str "batch321".
Proof.
  intros m.
  assert (Hdevice : slash ∉ str "batch321").
  { vm_compute. intros Hin. repeat (apply elem_of_cons in Hin as [Hin|Hin];
                                    [discriminate Hin|]).
    apply elem_of_nil in Hin. exact Hin. }
  assert (Htopic : routing_key m = str "coldchain/" ++ str "batch321" ++ str "/sensor")
    by reflexivity.
  assert (Hvalid : valid_event m (str "batch321") (Sample.record (VInt 1))).
  { apply event_of_valid. vm_compute. reflexivity. }
  exact (conj Hdevice (conj Htopic (conj Hvalid
           (batch_id_is_topic_level m (str "batch321") (str "batch321")
              (Sample.record (VInt 1)) Hdevice Htopic Hvalid)))).
Defined.

End Topics.
